(** * playstore_crawler: the work queue, graph expansion and driver loops

    A shallow embedding of [db_interface.py], [main.py],
    [my_model/crawl_task.py] and [my_tools/file_tools.py].

    The document store (MongoDB through pymongo) is an external collaborator;
    module [Mongo] gives the fragment of its semantics the program relies on:
    filters, [$set]/[$unset] updates, [find_one_and_update] returning the
    document as it was before the update, [update_many], and the unordered
    [insert_many] under unique indexes.

    Conventions:
    - timestamps ([time.time()]) and durations are integers counted in one
      common clock unit, and an [_id] is an integer;
    - the store is reachable: [@retry(AutoReconnect)] never has to retry;
    - the catalog client, the clock, the file system and the interrupt
      signal are given by an [environment]; the program's interactions with
      them are numbered; the signal is delivered at the start of an
      interaction or, for a request to the store, while its answer is
      awaited: the store has then carried the request out, and the caller
      binds no answer;
    - a stored document is held in flat form, one key for the dotted path
      to every leaf; a sub-document is there when a path leads through it;
    - a loop that may not end takes fuel. *)

From stdpp Require Import gmap strings list fin_maps pretty.

Local Open Scope Z_scope.
Local Open Scope string_scope.
Local Open Scope list_scope.

(** ** The document store *)

Module Mongo.

(** Field values.  Nested documents are addressed by their dotted path
    (as the index declarations of [db_interface.py] do), so a document is
    a flat map from paths to values; an array of sub-documents is stored as
    the array of the values found under the path. *)
Inductive value :=
| VNull
| VNum (n : Z)
| VStr (s : string)
| VArr (l : list string).

#[global] Instance value_eq_dec : EqDecision value.
Proof. solve_decision. Defined.

Abbreviation document := (gmap string value).

(** A stored document: the store gives every document an [_id]. *)
Record stored := Stored { _id : Z; body : document }.

#[global] Instance stored_eq_dec : EqDecision stored.
Proof. solve_decision. Defined.

Definition field (d : stored) (k : string) : option value :=
  if decide (k = "_id") then Some (VNum (_id d)) else body d !! k.

(** *** Filters *)

Inductive cond :=
| Is (v : value)              (* {"f": v}; v = None also matches a missing f *)
| Lt (n : Z)                  (* {"f": {"$lt": n}} *)
| In_ (vs : list value)       (* {"f": {"$in": vs}} *)
| ElemMatch (v : string).     (* {"f": {"$elemMatch": {"g": v}}}, path "f.g" *)

Abbreviation query := (list (string * cond)).

Definition is_null (fv : option value) : bool :=
  match fv with
  | None | Some VNull => true
  | _ => false
  end.

Definition value_matches (v : value) (fv : option value) : bool :=
  match v, fv with
  | VNull, _ => is_null fv
  | VStr s, Some (VArr l) => bool_decide (s ∈ l)
  | _, Some x => bool_decide (x = v)
  | _, None => false
  end.

Definition cond_holds (c : cond) (fv : option value) : bool :=
  match c with
  | Is v => value_matches v fv
  | Lt n => match fv with Some (VNum m) => bool_decide (m < n) | _ => false end
  | In_ vs => existsb (fun v => value_matches v fv) vs
  | ElemMatch v => match fv with Some (VArr l) => bool_decide (v ∈ l) | _ => false end
  end.

Definition matches (q : query) (d : stored) : bool :=
  forallb (fun kc => cond_holds kc.2 (field d kc.1)) q.

(** *** Updates *)

Inductive update :=
| Set_ (kvs : list (string * value))   (* {"$set": {...}} *)
| Unset (ks : list string).            (* {"$unset": {...}} *)

Definition apply_update (u : update) (d : stored) : stored :=
  match u with
  | Set_ kvs => Stored (_id d) (foldl (fun b kv => <[kv.1 := kv.2]> b) (body d) kvs)
  | Unset ks => Stored (_id d) (foldl (fun b k => delete k b) (body d) ks)
  end.

(** *** Sorting

    A descending sort on a field puts numbers first, greatest first, and
    documents without a number there last.  [sort = None] is the natural
    (insertion) order.  Ties keep the natural order. *)

Definition sort_key (sort : option string) (d : stored) : option Z :=
  match sort with
  | None => None
  | Some f => match field d f with Some (VNum n) => Some n | _ => None end
  end.

Definition key_lt (a b : option Z) : bool :=
  match a, b with
  | None, Some _ => true
  | Some x, Some y => bool_decide (x < y)
  | _, None => false
  end.

(** The position and content of the document a find-one picks. *)
Fixpoint select (q : query) (sort : option string) (docs : list stored)
  : option (nat * stored) :=
  match docs with
  | [] => None
  | d :: rest =>
      let r := prod_map S id <$> select q sort rest in
      if matches q d then
        match r with
        | Some (j, d') =>
            if key_lt (sort_key sort d) (sort_key sort d') then Some (j, d') else Some (0%nat, d)
        | None => Some (0%nat, d)
        end
      else r
  end.

(** The document a find-one picks matches the filter, no matching document
    has a greater sort key, and the matching documents before it have a
    smaller one. *)
Definition picked (q : query) (sort : option string) (docs : list stored)
    (i : nat) (d : stored) : Prop :=
  docs !! i = Some d /\ matches q d = true /\
  forall j d', docs !! j = Some d' -> matches q d' = true ->
    key_lt (sort_key sort d) (sort_key sort d') = false /\
    ((j < i)%nat -> key_lt (sort_key sort d') (sort_key sort d) = true).

(** [find_one_and_update(filter, update, sort=...)]: the document before
    the update, and the collection after it. *)
Definition find_one_and_update (q : query) (u : update) (sort : option string)
    (docs : list stored) : option stored * list stored :=
  match select q sort docs with
  | None => (None, docs)
  | Some (i, d) => (Some d, <[i := apply_update u d]> docs)
  end.

(** [update_many(filter, update)]: matched count and collection after. *)
Definition update_many (q : query) (u : update) (docs : list stored)
  : nat * list stored :=
  (length (filter (fun d => matches q d = true) docs),
   (fun d => if matches q d then apply_update u d else d) <$> docs).

(** *** Bulk insert *)

Record write_error := WriteError { code : Z; errmsg : string }.

Definition index_key (idx : list string) (b : document) : list value :=
  (fun k => default VNull (b !! k)) <$> idx.

Definition collides (idxs : list (list string)) (b : document) (docs : list stored) : bool :=
  existsb (fun idx =>
    existsb (fun d => bool_decide (index_key idx (body d) = index_key idx b)) docs) idxs.

Definition fresh_id (docs : list stored) : Z :=
  1 + foldr (fun d m => Z.max (_id d) m) 0 docs.

(** [insert_many(entries, ordered=False)]: every entry is attempted; an
    entry the server refuses for a reason of its own ([reject]) or that
    collides on a unique index is reported and the others go in. *)
Fixpoint insert_many (reject : document -> option write_error)
    (idxs : list (list string)) (entries : list document) (docs : list stored)
  : list write_error * list stored :=
  match entries with
  | [] => ([], docs)
  | e :: es =>
      match reject e with
      | Some err =>
          let '(errs, docs') := insert_many reject idxs es docs in (err :: errs, docs')
      | None =>
          if collides idxs e docs then
            let '(errs, docs') := insert_many reject idxs es docs in
            (WriteError 11000 "E11000 duplicate key error" :: errs, docs')
          else insert_many reject idxs es (docs ++ [Stored (fresh_id docs) e])
      end
  end.

End Mongo.
Export Mongo.

(** ** [db_interface.py] *)

Inductive level := INFO | WARNING | ERROR | STDOUT.

Abbreviation log_entry := (level * string)%type.

(** Python truthiness of a value that may be [None]. *)
Definition truthy (v : option value) : bool :=
  match v with
  | None | Some VNull | Some (VNum 0) | Some (VStr "") | Some (VArr []) => false
  | _ => true
  end.

(** [repr(s)] of a string of code points below 256: between single
    quotes, or between double quotes when the string holds a single quote
    and no double quote; the quote in use and the backslash are escaped,
    tab, newline and carriage return are written [\t], [\n], [\r], and
    every other code point that is not printable is written [\xhh]. *)
Definition single_quote : Ascii.ascii := Ascii.ascii_of_N 39.
Definition double_quote : Ascii.ascii := Ascii.ascii_of_N 34.
Definition backslash : Ascii.ascii := Ascii.ascii_of_N 92.

Definition hex_digit (n : N) : Ascii.ascii :=
  Ascii.ascii_of_N (if (n <? 10)%N then 48 + n else 87 + n)%N.

Definition py_isprintable (n : N) : bool :=
  ((32 <=? n) && (n <? 127) || (161 <=? n) && negb (n =? 173))%N.

Definition py_repr_char (quote a : Ascii.ascii) : string :=
  let n := Ascii.N_of_ascii a in
  if bool_decide (a = quote) || bool_decide (a = backslash) then String backslash (String a "")
  else if (n =? 9)%N then String backslash "t"
  else if (n =? 10)%N then String backslash "n"
  else if (n =? 13)%N then String backslash "r"
  else if py_isprintable n then String a ""
  else String backslash
         ("x" +:+ String (hex_digit (n / 16)) (String (hex_digit (n mod 16)) "")).

Fixpoint holds_char (a : Ascii.ascii) (s : string) : bool :=
  match s with
  | "" => false
  | String b rest => bool_decide (a = b) || holds_char a rest
  end.

Fixpoint py_repr_chars (quote : Ascii.ascii) (s : string) : string :=
  match s with
  | "" => ""
  | String a rest => py_repr_char quote a +:+ py_repr_chars quote rest
  end.

Definition py_repr (s : string) : string :=
  let quote :=
    if holds_char single_quote s && negb (holds_char double_quote s)
    then double_quote else single_quote in
  String quote (py_repr_chars quote s +:+ String quote "").

(** [str(x)]; the items of a list are written as [repr] writes them. *)
Definition py_str (v : option value) : string :=
  match v with
  | None | Some VNull => "None"
  | Some (VNum n) => pretty n
  | Some (VStr s) => s
  | Some (VArr l) => "[" +:+ String.concat ", " (py_repr <$> l) +:+ "]"
  end.

(** The two values read from [config.conf]. *)
Record conf := Conf {
  max_task_duration_seconds : Z;
  max_download_duration_seconds : Z
}.

Module db_interface.

(** The unique indexes declared when the module is loaded. *)
Definition playstore_unique : list (list string) :=
  [["docid"; "details.appDetails.versionCode"; "device"]].
Definition crawlqueue_unique : list (list string) := [["data"; "task"]].

Section WithServer.
(** What the server refuses for a reason other than a duplicate key. *)
Variable reject : document -> option write_error.

Definition dump_to_mongodb (idxs : list (list string)) (entries : list document)
    (target_collection : list stored) : list log_entry * list stored :=
  match entries with
  | [] => ([], target_collection)
  | _ =>
      let '(writeErrors, col') := insert_many reject idxs entries target_collection in
      (omap (fun err => if decide (code err = 11000) then None
                        else Some (ERROR, errmsg err)) writeErrors,
       col')
  end.

Definition dump (entries : list document) (playstore_col : list stored) :=
  dump_to_mongodb playstore_unique entries playstore_col.

Definition enqueue_crawl_tasks (crawl_tasks : list document) (crawlqueue_col : list stored) :=
  dump_to_mongodb crawlqueue_unique crawl_tasks crawlqueue_col.
End WithServer.

Definition set_similar_apps (target_package : option value) (packages : list string)
    (playstore_col : list stored) : list log_entry * list stored :=
  let '(matched_count, col') :=
    update_many [("docid", Is (default VNull target_package))]
      (Set_ [("similarTo", VArr packages)]) playstore_col in
  (if decide (matched_count = 0%nat)
   then [(ERROR, "Unable to set similar packages for " +:+ py_str target_package
                 +:+ "! Entry not found.")]
   else [],
   col').

(** [t1], [t2], [t3] are the three readings of [time.time()], in the order
    the code takes them: the new lease of a pending task, the deadline,
    the new lease of an expired task. *)
Definition get_crawl_task (c : conf) (t1 t2 t3 : Z) (crawlqueue_col : list stored)
  : option stored * list stored :=
  let '(document_before, col1) :=
    find_one_and_update [("start_time", Is VNull)] (Set_ [("start_time", VNum t1)])
      (Some "priority") crawlqueue_col in
  match document_before with
  | None =>
      let task_max_duration := max_task_duration_seconds c in
      let task_deadline := t2 - task_max_duration in
      find_one_and_update [("start_time", Lt task_deadline); ("end_time", Is VNull)]
        (Set_ [("start_time", VNum t3)]) None col1
  | Some _ => (document_before, col1)
  end.

Definition set_crawl_task_completed (now : Z) (task_id : Z) (error : option value)
    (crawlqueue_col : list stored) : list log_entry * list stored :=
  let updated_doc :=
    if truthy error
    then Set_ [("end_time", VNum now); ("error", default VNull error)]
    else Set_ [("end_time", VNum now)] in
  let '(document_before, col') :=
    find_one_and_update [("_id", Is (VNum task_id))] updated_doc None crawlqueue_col in
  (match document_before with
   | None => [(ERROR, "Unable to set task " +:+ pretty task_id
                      +:+ " as completed! Id not found.")]
   | Some _ => []
   end, col').

Definition reset_crawl_task (task_id : Z) (crawlqueue_col : list stored)
  : list log_entry * list stored :=
  let '(document_before, col') :=
    find_one_and_update [("_id", Is (VNum task_id))] (Unset ["start_time"; "end_time"])
      None crawlqueue_col in
  (match document_before with
   | None => [(ERROR, "Unable to set task " +:+ pretty task_id
                      +:+ " as completed! Id not found.")]
   | Some _ => []
   end, col').

Definition set_crawl_task_priority (task_type : string) (datas : list string)
    (priority : Z) (crawlqueue_col : list stored) : list log_entry * list stored :=
  let '(matched_count, col') :=
    update_many [("task", Is (VStr task_type)); ("data", In_ (VStr <$> datas))]
      (Set_ [("priority", VNum priority)]) crawlqueue_col in
  (if decide (matched_count = 0%nat)
   then [(ERROR, "Unable to set priority for " +:+ py_str (Some (VArr datas))
                 +:+ "! Entry not found.")]
   else [],
   col').

Definition undownloaded_filter (free_only : bool) (q : query) : query :=
  if free_only then q ++ [("offer.micros", ElemMatch "0")] else q.

Definition get_app_undownloaded (c : conf) (free_only : bool) (t1 t2 t3 : Z)
    (playstore_col : list stored) : option stored * list stored :=
  let fil := undownloaded_filter free_only [("download_start_time", Is VNull)] in
  let '(document_before, col1) :=
    find_one_and_update fil (Set_ [("download_start_time", VNum t1)]) None playstore_col in
  match document_before with
  | None =>
      let analysis_max_duration := max_download_duration_seconds c in
      let analysis_deadline := t2 - analysis_max_duration in
      let fil := undownloaded_filter free_only
                   [("download_start_time", Lt analysis_deadline);
                    ("download_end_time", Is VNull)] in
      find_one_and_update fil (Set_ [("download_start_time", VNum t3)]) None col1
  | Some _ => (document_before, col1)
  end.

Definition set_app_downloaded (now : Z) (app_id : Z) (playstore_col : list stored)
  : list log_entry * list stored :=
  let '(document_before, col') :=
    find_one_and_update [("_id", Is (VNum app_id))] (Set_ [("download_end_time", VNum now)])
      None playstore_col in
  (match document_before with
   | None => [(ERROR, "Unable to set app " +:+ pretty app_id
                      +:+ " as downloaded! Id not found.")]
   | Some _ => []
   end, col').

Definition reset_app_download (app_id : Z) (playstore_col : list stored)
  : list log_entry * list stored :=
  let '(document_before, col') :=
    find_one_and_update [("_id", Is (VNum app_id))]
      (Unset ["download_start_time"; "download_end_time"]) None playstore_col in
  (match document_before with
   | None => [(ERROR, "Unable to set app " +:+ pretty app_id
                      +:+ " as downloaded! Id not found.")]
   | Some _ => []
   end, col').

End db_interface.

(** ** [my_tools/file_tools.py] *)

Module file_tools.

(** A Python string is a sequence of Unicode code points; [of_string] and
    [to_string] read a string of this development as one of code points
    below 256. *)
Abbreviation pystr := (list N).

Definition of_string (s : string) : pystr := Ascii.N_of_ascii <$> String.list_ascii_of_string s.
Definition to_string (s : pystr) : string := String.string_of_list_ascii (Ascii.ascii_of_N <$> s).

Section Unicode.
(** [str.isalnum] and the whitespace test of [str.rstrip] come from the
    Unicode database. *)
Variables isalnum isspace : N -> bool.

Definition keep_characters : list N := [32%N; 46%N; 95%N].   (* ' ', '.', '_' *)

(** [s.rstrip()] *)
Fixpoint rstrip (s : pystr) : pystr :=
  match s with
  | [] => []
  | c :: rest =>
      match rstrip rest with
      | [] => if isspace c then [] else [c]
      | r => c :: r
      end
  end.

Definition sanitize_filename (filename : pystr) : pystr :=
  rstrip (filter (fun c => isalnum c = true \/ c ∈ keep_characters) filename).
End Unicode.

(** The tables restricted to ASCII. *)
Definition ascii_isalnum (c : N) : bool :=
  (bool_decide (48 <= c <= 57) || bool_decide (65 <= c <= 90) || bool_decide (97 <= c <= 122))%N.
Definition ascii_isspace (c : N) : bool :=
  (bool_decide (9 <= c <= 13) || bool_decide (28 <= c <= 32))%N.

End file_tools.

(** ** [my_model/crawl_task.py] *)

Inductive CrawlTask := SIMILAR | CREATOR | DETAILS.

#[global] Instance CrawlTask_eq_dec : EqDecision CrawlTask.
Proof. solve_decision. Defined.

Definition CrawlTask_value (t : CrawlTask) : string :=
  match t with
  | SIMILAR => "CRAWL_SIMILAR"
  | CREATOR => "CRAWL_CREATOR"
  | DETAILS => "CRAWL_DETAILS"
  end.

(** ** [main.py] *)

Inductive exn :=
| KeyboardInterrupt
| RequestError (http_status : option value)
| DownloadError (msg : string)
| IOError (msg : string)
| KeyError (key : string)
| TypeError
| AttributeError
| Diverged.     (* a retry loop that did not end within the fuel given *)

Inductive outcome (A : Type) :=
| Ok (a : A)
| Raise (e : exn).
Arguments Ok {A} a.
Arguments Raise {A} e.

(** One entry of a bulk-details answer: [entry.doc.docid],
    [entry.doc.creator] and the JSON form of [entry.doc]. *)
Record bulk_entry := BulkEntry { docid : string; creator : string; json : document }.

(** The catalog client and the rest of the outside world.  The program's
    interactions with the outside are numbered as they happen; what the
    outside answers to the [n]-th interaction is given here. *)
Record environment := {
  (** the [k]-th reading of [time.time()] during interaction [n] *)
  clock : nat -> nat -> Z;
  (** the interaction, if any, at which the interrupt signal is delivered *)
  sigint_at : option nat;
  (** whether the signal is delivered while that interaction is under way
      rather than before it starts: a request to the store has then been
      carried out by the store, and its answer is lost *)
  sigint_during : bool;
  (** [play_store.listSimilar], [play_store.search]: a result page *)
  listSimilar : nat -> option value -> outcome string;
  search : nat -> option value -> outcome string;
  (** [play_store.getPages(..., details=True)]: the entries *)
  getPages_details : nat -> string -> outcome (list bulk_entry);
  (** [play_store.getPages(page)]: for every doc the docids of its children *)
  getPages : nat -> string -> outcome (list (list string));
  (** [play_store.details(package, True)]: [docV2] and the preference pages *)
  details : nat -> option value -> outcome (document * gmap string string);
  (** [play_store.download] *)
  download : nat -> option value -> option value -> outcome (option string);
  (** [get_folder_size] *)
  folder_size : nat -> Z;
  (** writing the file and renaming it: does it raise [IOError]? *)
  write_file : nat -> string -> option string;
  server_reject : document -> option write_error
}.

Record world := World {
  tick : nat;                         (* interactions so far *)
  playstore_col : list stored;
  crawlqueue_col : list stored;
  log : list log_entry;
  files : list (string * string)      (* files put in place: path and content *)
}.

Definition M (A : Type) : Type := world -> outcome A * world.

Definition ret {A} (a : A) : M A := fun w => (Ok a, w).
Definition raise {A} (e : exn) : M A := fun w => (Raise e, w).
Definition bind {A B} (m : M A) (f : A -> M B) : M B :=
  fun w => match m w with
           | (Ok a, w') => f a w'
           | (Raise e, w') => (Raise e, w')
           end.

Declare Scope py_scope.
Delimit Scope py_scope with py.
Notation "'do' x <- m ;; k" := (bind m (fun x => k))
  (at level 10, x name, m at level 99, k at level 200, only parsing) : py_scope.
Notation "'run' m ;; k" := (bind m (fun _ => k))
  (at level 10, m at level 99, k at level 200, only parsing) : py_scope.
Local Open Scope py_scope.

(** Updates of one component of the world. *)
Definition bump (w : world) : world :=
  World (S (tick w)) (playstore_col w) (crawlqueue_col w) (log w) (files w).
Definition set_playstore (col : list stored) (w : world) : world :=
  World (tick w) col (crawlqueue_col w) (log w) (files w).
Definition set_crawlqueue (col : list stored) (w : world) : world :=
  World (tick w) (playstore_col w) col (log w) (files w).
Definition add_log (ls : list log_entry) (w : world) : world :=
  World (tick w) (playstore_col w) (crawlqueue_col w) (log w ++ ls) (files w).
Definition add_file (path data : string) (w : world) : world :=
  World (tick w) (playstore_col w) (crawlqueue_col w) (log w) (files w ++ [(path, data)]).

Definition logging (l : level) (msg : string) : M unit :=
  fun w => (Ok tt, add_log [(l, msg)] w).

Definition log_all (ls : list log_entry) : M unit :=
  fun w => (Ok tt, add_log ls w).

Definition on_playstore {A} (f : list stored -> A * list stored) : M A :=
  fun w => (Ok (f (playstore_col w)).1, set_playstore (f (playstore_col w)).2 w).

Definition on_crawlqueue {A} (f : list stored -> A * list stored) : M A :=
  fun w => (Ok (f (crawlqueue_col w)).1, set_crawlqueue (f (crawlqueue_col w)).2 w).

Definition put_file (path data : string) : M unit :=
  fun w => (Ok tt, add_file path data w).

Definition lift {A} (o : outcome A) : M A := fun w => (o, w).

Module main.
Section WithEnvironment.
Variable env : environment.
Variable c : conf.
Variable emulated_device : string.
(** Unicode tables used by [sanitize_filename]. *)
Variables isalnum isspace : N -> bool.

(** The next interaction with the catalog, the file system or the
    clock: its number, unless the interrupt signal arrives there.  Such an
    interaction changes nothing that the world keeps before it has
    ended, so the signal during it is the signal before it. *)
Definition interact : M nat :=
  fun w =>
    if decide (sigint_at env = Some (tick w))
    then (Raise KeyboardInterrupt, bump w)
    else (Ok (tick w), bump w).

(** *** Calls into [db_interface] *)

(** A request to the store; [f n] is the request at interaction [n].
    The signal may arrive before the request is sent, and nothing has
    happened; or while the answer is awaited: the store has carried the
    request out, and the caller, left by [KeyboardInterrupt], binds no
    answer.  (A claim sends one request or two; the signal during a
    first request that found nothing is the signal before the second.) *)
Definition store_call {A} (on : (list stored -> A * list stored) -> M A)
    (f : nat -> list stored -> A * list stored) : M A :=
  fun w =>
    if decide (sigint_at env = Some (tick w)) then
      (Raise KeyboardInterrupt,
       if sigint_during env then (on (f (tick w)) (bump w)).2 else bump w)
    else on (f (tick w)) (bump w).

(** A call that changes a collection and then logs. *)
Definition playstore_call (f : nat -> list stored -> list log_entry * list stored)
  : M unit :=
  do ls <- store_call on_playstore f ;;
  log_all ls.

Definition crawlqueue_call (f : nat -> list stored -> list log_entry * list stored)
  : M unit :=
  do ls <- store_call on_crawlqueue f ;;
  log_all ls.

Definition db_dump (entries : list document) : M unit :=
  playstore_call (fun _ => db_interface.dump (server_reject env) entries).

Definition db_enqueue_crawl_tasks (crawl_tasks : list document) : M unit :=
  crawlqueue_call (fun _ => db_interface.enqueue_crawl_tasks (server_reject env) crawl_tasks).

Definition db_set_similar_apps (package : option value) (packages : list string) : M unit :=
  playstore_call (fun _ => db_interface.set_similar_apps package packages).

Definition db_get_crawl_task : M (option stored) :=
  store_call on_crawlqueue
    (fun n => db_interface.get_crawl_task c (clock env n 0) (clock env n 1) (clock env n 2)).

Definition db_set_crawl_task_completed (task_id : Z) (error : option value) : M unit :=
  crawlqueue_call
    (fun n => db_interface.set_crawl_task_completed (clock env n 0) task_id error).

Definition db_reset_crawl_task (task_id : Z) : M unit :=
  crawlqueue_call (fun _ => db_interface.reset_crawl_task task_id).

Definition db_set_crawl_task_priority (task_type : string) (datas : list string)
    (priority : Z) : M unit :=
  crawlqueue_call (fun _ => db_interface.set_crawl_task_priority task_type datas priority).

Definition db_get_app_undownloaded : M (option stored) :=
  store_call on_playstore
    (fun n => db_interface.get_app_undownloaded c true
                (clock env n 0) (clock env n 1) (clock env n 2)).

Definition db_set_app_downloaded (app_id : Z) : M unit :=
  playstore_call (fun n => db_interface.set_app_downloaded (clock env n 0) app_id).

Definition db_reset_app_download (app_id : Z) : M unit :=
  playstore_call (fun _ => db_interface.reset_app_download app_id).

(** *** Graph expansion *)

Definition task_draft (data : value) (task : CrawlTask) : document :=
  {[ "data" := data; "task" := VStr (CrawlTask_value task) ]}.

(** The drafts [dump_data] hands to [dump] and to [enqueue_crawl_tasks]. *)
Definition dump_data_drafts (bulk_details : list bulk_entry)
  : list document * list document :=
  ((fun entry => <["device" := VStr emulated_device]> (json entry)) <$> bulk_details,
   mjoin ((fun entry => [task_draft (VStr (creator entry)) CREATOR;
                         task_draft (VStr (docid entry)) SIMILAR]) <$> bulk_details)).

Definition dump_data (bulk_details : list bulk_entry) : M unit :=
  let '(entries, crawl_tasks) := dump_data_drafts bulk_details in
  run db_dump entries ;;
  db_enqueue_crawl_tasks crawl_tasks.

(** [packages_found += v]: what extending a list by [v] appends. *)
Definition extend_by (v : value) : outcome (list value) :=
  match v with
  | VArr l => Ok (VStr <$> l)
  | VStr s => Ok ((fun a => VStr (String a EmptyString)) <$> String.list_ascii_of_string s)
  | VNull | VNum _ => Raise TypeError
  end.

Definition extend_if_present (details : document) (k : string)
    (packages_found : list value) : outcome (list value) :=
  match details !! k with
  | None => Ok packages_found
  | Some v =>
      match extend_by v with
      | Ok more => Ok (packages_found ++ more)
      | Raise e => Raise e
      end
  end.

(** The drafts [dump_data_details] hands to [dump] and to
    [enqueue_crawl_tasks]. *)
Definition dump_data_details_drafts (details : document)
  : outcome (list document * list document) :=
  match extend_if_present details "similar" [] with
  | Raise e => Raise e
  | Ok found1 =>
  match extend_if_present details "preInstall" found1 with
  | Raise e => Raise e
  | Ok found2 =>
  match extend_if_present details "postInstall" found2 with
  | Raise e => Raise e
  | Ok packages_found =>
  match details !! "creator" with
  | None => Raise (KeyError "creator")
  | Some creator =>
      let crawl_tasks :=
        [task_draft creator CREATOR]
        ++ ((fun package => task_draft package DETAILS) <$> packages_found) in
      Ok ([<["device" := VStr emulated_device]> details], crawl_tasks)
  end end end end.

Definition dump_data_details (details : document) : M unit :=
  do drafts <- lift (dump_data_details_drafts details) ;;
  run db_dump drafts.1 ;;
  db_enqueue_crawl_tasks drafts.2.

(** *** The handlers of the three task kinds *)

Definition crawl_similar (package : option value) : M unit :=
  do n <- interact ;;
  do list_result <- lift (listSimilar env n package) ;;
  do n <- interact ;;
  do details <- lift (getPages_details env n list_result) ;;
  let similar_packages := docid <$> details in
  run db_set_similar_apps package similar_packages ;;
  dump_data details.

Definition crawl_creator (creator : option value) : M unit :=
  do n <- interact ;;
  do search_result <- lift (search env n creator) ;;
  do n <- interact ;;
  do details <- lift (getPages_details env n search_result) ;;
  dump_data details.

(** One of the three preference pages of [crawl_details]: the docids of
    the children of its docs, or nothing when the page is absent. *)
Definition children_of (pref_pages : gmap string string) (k : string) : M (list string) :=
  match pref_pages !! k with
  | None | Some "" => ret []
  | Some page =>
      do n <- interact ;;
      do docs <- lift (getPages env n page) ;;
      ret (mjoin docs)
  end.

Definition crawl_details (package : option value) : M unit :=
  do n <- interact ;;
  do r <- lift (details env n package) ;;
  let '(docV2, pref_pages) := r in
  do similar <- children_of pref_pages "similar" ;;
  do pre_install <- children_of pref_pages "preInstall" ;;
  do post_install <- children_of pref_pages "postInstall" ;;
  dump_data_details
    (<["postInstall" := VArr post_install]>
       (<["preInstall" := VArr pre_install]>
          (<["similar" := VArr similar]> docV2))).

(** *** Dispatch *)

Definition unknown_crawl_task (task_type : option value) (x : option value) : M unit :=
  logging WARNING ("Unknown crawl task: " +:+ py_str task_type).

(** [switcher.get(task_type, default)].  A list is not hashable. *)
Definition switcher_get (task_type : option value)
  : outcome (option value -> M unit) :=
  match task_type with
  | Some (VArr _) => Raise TypeError
  | Some (VStr s) =>
      if decide (s = CrawlTask_value SIMILAR) then Ok crawl_similar
      else if decide (s = CrawlTask_value CREATOR) then Ok crawl_creator
      else if decide (s = CrawlTask_value DETAILS) then Ok crawl_details
      else Ok (unknown_crawl_task task_type)
  | _ => Ok (unknown_crawl_task task_type)
  end.

Definition execute_crawl_task (task_type task_data : option value) : M unit :=
  do func <- lift (switcher_get task_type) ;;
  func task_data.

(** *** The crawl loop *)

Inductive loop := Continue | Break.

(** The [except KeyboardInterrupt] clause of [crawl_playstore]: [task]
    is the local variable as it stands when the exception arrives. *)
Definition crawl_interrupted (task : option stored) : M loop :=
  run logging STDOUT "
Interrupted! Reverting state..." ;;
  match task with
  | Some t => run db_reset_crawl_task (_id t) ;; ret Break
  | None => ret Break
  end.

(** The statements of the [try] block that follow the claim. *)
Definition crawl_claimed (task : stored) : M loop :=
  let task_id := _id task in
  let task_type := field task "task" in
  let task_data := field task "data" in
  run logging INFO ("Processing task " +:+ py_str task_type +:+ " for " +:+ py_str task_data) ;;
  do error <- (fun w => match execute_crawl_task task_type task_data w with
                     | (Raise (RequestError http_status), w') => (Ok http_status, w')
                     | (Raise e, w') => (Raise e, w')
                     | (Ok _, w') => (Ok None, w')
                     end) ;;
  run db_set_crawl_task_completed task_id error ;;
  ret Continue.

(** The [try] block of [crawl_playstore]: the local variable [task] as
    it stands when the block is left, and how the block is left. *)
Definition crawl_try (w : world) : option stored * (outcome loop * world) :=
  match db_get_crawl_task w with
  | (Raise e, w1) => (None, (Raise e, w1))
  | (Ok None, w1) =>
      (None, (run logging INFO "No crawl task found! Exiting..." ;; ret Break) w1)
  | (Ok (Some task), w1) => (Some task, crawl_claimed task w1)
  end.

(** One turn of the [while True] of [crawl_playstore]. *)
Definition crawl_step : M loop :=
  fun w =>
    match crawl_try w with
    | (task, (Raise KeyboardInterrupt, w')) => crawl_interrupted task w'
    | (_, r) => r
    end.

Fixpoint crawl_playstore (fuel : nat) : M unit :=
  match fuel with
  | O => raise Diverged
  | S fuel' =>
      do l <- crawl_step ;;
      match l with
      | Break => ret tt
      | Continue => crawl_playstore fuel'
      end
  end.

(** *** The download loop *)

Fixpoint ends_with_slash (s : string) : bool :=
  match s with
  | "" => false
  | String c "" => bool_decide (String c "" = "/")
  | String _ rest => ends_with_slash rest
  end.

Definition starts_with_slash (s : string) : bool :=
  match s with
  | "" => false
  | String c _ => bool_decide (String c "" = "/")
  end.

(** [os.path.join(dir, file)] on a POSIX system. *)
Definition path_join (dir file : string) : string :=
  if starts_with_slash file then file
  else if decide (dir = "") then file
  else if ends_with_slash dir then dir +:+ file
  else dir +:+ "/" +:+ file.

Definition download_apk (package version_code : option value) (output_path : string)
  : M unit :=
  fun w =>
    match (do n <- interact ;;
           do data <- lift (download env n package version_code) ;;
           match data with
           | None | Some "" => ret tt
           | Some data =>
               do n <- interact ;;
               match write_file env n output_path with
               | Some msg => raise (IOError msg)
               | None => put_file output_path data
               end
           end) w with
    | (Raise (DownloadError msg), w') => logging ERROR msg w'
    | r => r
    end.

(** The inner [while True]: the download is tried again after an
    [IOError]. *)
Fixpoint download_until_written (fuel : nat) (docid version_code : option value)
    (filename output_path : string) : M unit :=
  match fuel with
  | O => raise Diverged
  | S fuel' =>
      run logging INFO ("Downloading " +:+ py_str docid +:+ ", Version " +:+ py_str version_code) ;;
      fun w =>
        match download_apk docid version_code output_path w with
        | (Raise (IOError e), w') =>
            (run logging ERROR ("Error while writing " +:+ filename +:+ " : " +:+ e) ;;
             download_until_written fuel' docid version_code filename output_path) w'
        | r => r
        end
  end.

Definition sanitize (filename : string) : string :=
  file_tools.to_string
    (file_tools.sanitize_filename isalnum isspace (file_tools.of_string filename)).

(** The [except KeyboardInterrupt] clause of [create_apks_pool]. *)
Definition pool_interrupted (next_apk : option stored) : M loop :=
  run logging STDOUT "
Interrupted! Reverting state..." ;;
  match next_apk with
  | Some a => run db_reset_app_download (_id a) ;; ret Break
  | None => ret Break
  end.

(** Is there a sub-document at [path]: does a path to a leaf lead
    through it? *)
Definition has_subdocument (d : stored) (path : string) : bool :=
  existsb (fun kv => String.prefix (path +:+ ".") kv.1) (map_to_list (body d)).

(** [next_apk.get('details').get('appDetails').get('versionCode')]:
    [.get] on [None] or on a leaf raises [AttributeError].  (The flat
    form has no empty sub-document, and the version code is a leaf.) *)
Definition version_code_of (next_apk : stored) : outcome (option value) :=
  if has_subdocument next_apk "details" then
    if has_subdocument next_apk "details.appDetails" then
      Ok (field next_apk "details.appDetails.versionCode")
    else Raise AttributeError
  else Raise AttributeError.

(** The statements that follow the claim of an undownloaded record. *)
Definition pool_claimed (fuel : nat) (output_dir : string) (next_apk : stored) : M loop :=
  let app_id := _id next_apk in
  let docid := field next_apk "docid" in
  do version_code <- lift (version_code_of next_apk) ;;
  let filename :=
    sanitize (py_str docid +:+ "##" +:+ py_str version_code +:+ "##" +:+ pretty app_id
              +:+ ".apk") in
  let output_path := path_join output_dir filename in
  run download_until_written fuel docid version_code filename output_path ;;
  run db_set_app_downloaded (_id next_apk) ;;
  ret Continue.

(** The [try] block of [create_apks_pool]: the local variable
    [next_apk] as it stands when the block is left, and how the block is
    left; [Break] stands for the [return] taken when no record is
    left. *)
Definition pool_try (fuel : nat) (output_dir : string) (dir_size : Z) (w : world)
  : option stored * (outcome loop * world) :=
  match interact w with
  | (Raise e, w0) => (None, (Raise e, w0))
  | (Ok n, w0) =>
      let cur_size := folder_size env n in
      if decide (cur_size < dir_size * 1000 * 1000) then
        match db_get_app_undownloaded w0 with
        | (Raise e, w1) => (None, (Raise e, w1))
        | (Ok None, w1) =>
            (None, (run logging STDOUT "No apk remaining! Shutting down." ;; ret Break) w1)
        | (Ok (Some next_apk), w1) =>
            (Some next_apk, pool_claimed fuel output_dir next_apk w1)
        end
      else
        (* time.sleep(1) *)
        (None, (do _ <- interact ;; ret Continue) w0)
  end.

(** One turn of the [while True] of [create_apks_pool]. *)
Definition pool_step (fuel : nat) (output_dir : string) (dir_size : Z) : M loop :=
  fun w =>
    match pool_try fuel output_dir dir_size w with
    | (next_apk, (Raise KeyboardInterrupt, w')) => pool_interrupted next_apk w'
    | (_, r) => r
    end.

Fixpoint create_apks_pool (fuel : nat) (output_dir : string) (dir_size : Z) : M unit :=
  match fuel with
  | O => raise Diverged
  | S fuel' =>
      do l <- pool_step fuel output_dir dir_size ;;
      match l with
      | Break => ret tt
      | Continue => create_apks_pool fuel' output_dir dir_size
      end
  end.

(** *** Priorities *)

Definition increase_priority (packages : list string) (priority : Z) : M unit :=
  db_set_crawl_task_priority (CrawlTask_value DETAILS) packages priority.

(** The call [main] makes for [--change-priority]: the default
    [priority=10]. *)
Definition change_priority (packages : list string) : M unit :=
  increase_priority packages 10.

End WithEnvironment.
End main.

(** ** Task states *)

(** The fields of a task ([start_time], [end_time], [priority], [task],
    [data]) and the states they stand for. *)
Definition leased_at (d : stored) : option value := field d "start_time".
Definition completed_at (d : stored) : option value := field d "end_time".
Definition priority (d : stored) : option Z := sort_key (Some "priority") d.
Definition kind (d : stored) : option value := field d "task".
Definition key (d : stored) : option value := field d "data".

Definition pending (d : stored) : bool := is_null (leased_at d).
Definition done (d : stored) : bool := negb (is_null (completed_at d)).

(** Leased before [deadline] and not completed. *)
Definition expired (deadline : Z) (d : stored) : bool :=
  match leased_at d with
  | Some (VNum s) => bool_decide (s < deadline)
  | _ => false
  end && is_null (completed_at d).

(** What [claim()] at time [now] may pick. *)
Definition claimable (c : conf) (now : Z) (d : stored) : bool :=
  pending d || expired (now - max_task_duration_seconds c) d.

(** The task with its lease set to [t]. *)
Definition lease (t : Z) (d : stored) : stored :=
  Stored (_id d) (<["start_time" := VNum t]> (body d)).

(** The task with lease and completion cleared. *)
Definition cleared (d : stored) : stored :=
  Stored (_id d) (delete "end_time" (delete "start_time" (body d))).

Definition unique_ids (docs : list stored) : Prop := NoDup (_id <$> docs).

(** ** Sample runs *)

Definition sample_conf : conf := Conf 10 10.

Definition accept_all : document -> option write_error := fun _ => None.

(** Two workers and one task.  Worker A claims the task at time 0 and is
    slow; at time 100 the lease has expired and worker B claims the task
    again; B is interrupted and resets the task; at time 120 A finishes and
    marks the task completed. *)
Definition raced_queue : list stored :=
  let q0 := (db_interface.enqueue_crawl_tasks accept_all
               [main.task_draft (VStr "com.a") DETAILS] []).2 in
  let q1 := (db_interface.get_crawl_task sample_conf 0 0 0 q0).2 in
  let q2 := (db_interface.get_crawl_task sample_conf 100 100 100 q1).2 in
  let q3 := (db_interface.reset_crawl_task 1 q2).2 in
  (db_interface.set_crawl_task_completed 120 1 None q3).2.

Definition raced_task : stored :=
  Stored 1 (<["end_time" := VNum 120]> (main.task_draft (VStr "com.a") DETAILS)).

(** A task leased at time 5. *)
Definition leased_task : stored :=
  Stored 1 (<["start_time" := VNum 5]> (main.task_draft (VStr "com.a") DETAILS)).

(** Pending tasks of priorities 1, 5 and 3. *)
Definition pending_task (i : Z) (key : string) (prio : Z) : stored :=
  Stored i (<["priority" := VNum prio]> (main.task_draft (VStr key) DETAILS)).

Definition queue_1_5_3 : list stored :=
  [pending_task 1 "com.a" 1; pending_task 2 "com.b" 5; pending_task 3 "com.c" 3].

(** ** Counting drafts *)

Definition draft_kind (d : document) : option value := d !! "task".

Definition count_kind (t : CrawlTask) (drafts : list document) : nat :=
  length (filter (fun d => draft_kind d = Some (VStr (CrawlTask_value t))) drafts).

(** A detail result with 2 similar packages, 1 pre-install package and a
    creator. *)
Definition sample_details : document :=
  {[ "docid" := VStr "com.a"; "creator" := VStr "ACME";
     "similar" := VArr ["com.b"; "com.c"]; "preInstall" := VArr ["com.d"];
     "postInstall" := VArr [] ]}.

(** The task with its priority set to [p]. *)
Definition with_priority (p : Z) (d : stored) : stored :=
  Stored (_id d) (<["priority" := VNum p]> (body d)).

(** ** The pair [(kind, key)] of a task *)

(** The value of the unique index of the crawl queue. *)
Definition task_key (b : document) : list value := index_key ["data"; "task"] b.

(** How many stored tasks carry the pair [k]. *)
Definition stored_with (k : list value) (q : list stored) : nat :=
  length (filter (fun d => task_key (body d) = k) q).

(** The unique index holds. *)
Definition unique_tasks (q : list stored) : Prop := NoDup ((fun d => task_key (body d)) <$> q).

(** What [dump_to_mongodb] logs for a write error. *)
Definition insert_error_log (err : write_error) : option log_entry :=
  if decide (code err = 11000) then None else Some (ERROR, errmsg err).

(** ** A sample environment *)

Definition sample_env : environment := {|
  clock := fun n _ => 100 + Z.of_nat n;
  sigint_at := None;
  sigint_during := false;
  listSimilar := fun _ _ => Ok "similar-page";
  search := fun _ _ => Ok "search-page";
  getPages_details := fun _ _ => Ok [];
  getPages := fun _ _ => Ok [];
  details := fun _ _ => Raise (RequestError (Some (VNum 404)));
  download := fun _ _ _ => Ok None;
  folder_size := fun _ => 0;
  write_file := fun _ _ => None;
  server_reject := accept_all
|}.

(** The same, with the interrupt signal delivered at interaction [n]. *)
Definition interrupted_env (n : nat) : environment := {|
  clock := clock sample_env;
  sigint_at := Some n;
  sigint_during := false;
  listSimilar := listSimilar sample_env;
  search := search sample_env;
  getPages_details := getPages_details sample_env;
  getPages := getPages sample_env;
  details := details sample_env;
  download := download sample_env;
  folder_size := folder_size sample_env;
  write_file := write_file sample_env;
  server_reject := server_reject sample_env
|}.

Definition sample_world (records tasks : list stored) : world :=
  World 0 records tasks [] [].

(** ** What the calls keep *)

(** No call removes a document or changes an [_id]: the ids of a
    collection can only grow at the end, and stay unique. *)
Definition ids_grow (q q' : list stored) : Prop :=
  (exists new, _id <$> q' = (_id <$> q) ++ new) /\ (unique_ids q -> unique_ids q').

Definition world_grows (w w' : world) : Prop :=
  ids_grow (playstore_col w) (playstore_col w') /\
  ids_grow (crawlqueue_col w) (crawlqueue_col w').

Definition keeps_ids {A} (m : M A) : Prop := forall w, world_grows w (m w).2.

(** The document is stored under its id, and holds neither of the two
    fields. *)
Definition stored_without (f1 f2 : string) (i : Z) (col : list stored) : Prop :=
  (exists d, d ∈ col /\ _id d = i) /\
  forall d, d ∈ col -> _id d = i -> field d f1 = None /\ field d f2 = None.

(** ** Completion marks *)


(** The record with its download lease set to [t]. *)
Definition download_leased (t : Z) (d : stored) : stored :=
  Stored (_id d) (<["download_start_time" := VNum t]> (body d)).

(** The record marked downloaded at [now]. *)
Definition downloaded (now : Z) (d : stored) : stored :=
  Stored (_id d) (<["download_end_time" := VNum now]> (body d)).



(** The fetch gave nothing to write. *)
Definition no_payload (o : outcome (option string)) : bool :=
  match o with
  | Ok None | Ok (Some "") => true
  | _ => false
  end.

(** A free app that is not downloaded yet. *)
Definition sample_record : stored :=
  Stored 1 {[ "docid" := VStr "com.a"; "details.appDetails.versionCode" := VNum 7;
              "device" := VStr "device"; "offer.micros" := VArr ["0"] ]}.


(** ** More on the queue *)

(** How many tasks are pending. *)
Definition count_pending (q : list stored) : nat :=
  length (filter (fun d => pending d = true) q).

(** No stored document has the id. *)
Definition unknown_id (i : Z) (col : list stored) : Prop := i ∉ _id <$> col.

(** ** Records and their download lease *)

(** The value of the unique index of the record collection: package,
    version and device. *)
Definition record_key (b : document) : list value :=
  index_key ["docid"; "details.appDetails.versionCode"; "device"] b.

Definition unique_records (col : list stored) : Prop :=
  NoDup ((fun d => record_key (body d)) <$> col).

Definition download_pending (d : stored) : bool :=
  is_null (field d "download_start_time").

(** Download leased before [deadline] and not completed. *)
Definition download_expired (deadline : Z) (d : stored) : bool :=
  match field d "download_start_time" with
  | Some (VNum s) => bool_decide (s < deadline)
  | _ => false
  end && is_null (field d "download_end_time").

(** One of the offers has the price ["0"]. *)
Definition free (d : stored) : bool :=
  match field d "offer.micros" with
  | Some (VArr l) => bool_decide ("0" ∈ l)
  | _ => false
  end.

(** What [free_only] lets through. *)
Definition offered (free_only : bool) (d : stored) : bool :=
  if free_only then free d else true.

(** The record with download lease and completion cleared. *)
Definition download_cleared (d : stored) : stored :=
  Stored (_id d) (delete "download_end_time" (delete "download_start_time" (body d))).

(** The record with its similar packages set. *)
Definition with_similar (packages : list string) (d : stored) : stored :=
  Stored (_id d) (<["similarTo" := VArr packages]> (body d)).

(** A record that costs something, and the free sample record leased for
    download at time 5. *)
Definition paid_record : stored :=
  Stored 2 {[ "docid" := VStr "com.paid"; "details.appDetails.versionCode" := VNum 3;
              "device" := VStr "device"; "offer.micros" := VArr ["990000"] ]}.

(** ** What carrying out a task adds to the queue *)

(** A task as the crawler drafts it: a key and one of the three kinds,
    and nothing else, so neither lease, completion nor priority. *)
Definition drafted (d : stored) : Prop :=
  exists data t, body d = main.task_draft data t.

(** The queue only grows, at its end, by drafted tasks. *)
Definition queue_appended (w w' : world) : Prop :=
  exists new, crawlqueue_col w' = crawlqueue_col w ++ new /\ Forall drafted new.

Definition appends_only {A} (m : M A) : Prop := forall w, queue_appended w (m w).2.

(** Neither caught by the loop ([KeyboardInterrupt]) nor by the inner
    [try] ([RequestError]). *)
Definition uncaught (e : exn) : bool :=
  match e with
  | KeyboardInterrupt | RequestError _ => false
  | _ => true
  end.

(** ** More sample environments *)

(** The sample environment with other answers of [play_store.details],
    [play_store.download] and of the file system. *)
Definition env_with
    (details' : nat -> option value -> outcome (document * gmap string string))
    (download' : nat -> option value -> option value -> outcome (option string))
    (write_file' : nat -> string -> option string)
    (folder_size' : nat -> Z) : environment := {|
  clock := clock sample_env;
  sigint_at := None;
  sigint_during := false;
  listSimilar := listSimilar sample_env;
  search := search sample_env;
  getPages_details := getPages_details sample_env;
  getPages := getPages sample_env;
  details := details';
  download := download';
  folder_size := folder_size';
  write_file := write_file';
  server_reject := accept_all
|}.

(** The catalog answers with a document that names no creator. *)
Definition keyless_env : environment :=
  env_with (fun _ _ => Ok (∅, ∅)) (download sample_env) (write_file sample_env)
    (folder_size sample_env).

(** The fetch fails. *)
Definition failing_download_env : environment :=
  env_with (details sample_env) (fun _ _ _ => Raise (DownloadError "not found"))
    (write_file sample_env) (folder_size sample_env).

(** The fetch gives a payload; the disk takes it, or refuses every write. *)
Definition payload_env : environment :=
  env_with (details sample_env) (fun _ _ _ => Ok (Some "apk-bytes"))
    (write_file sample_env) (folder_size sample_env).

Definition full_disk_env : environment :=
  env_with (details sample_env) (fun _ _ _ => Ok (Some "apk-bytes"))
    (fun _ _ => Some "No space left on device") (folder_size sample_env).

(** The folder has reached its size. *)
Definition full_folder_env : environment :=
  env_with (details sample_env) (download sample_env) (write_file sample_env)
    (fun _ => 100 * 1000 * 1000).

(** The name of the file a record is downloaded to, [version_code] being
    the version code read from the record. *)
Definition apk_filename (isalnum isspace : N -> bool) (next_apk : stored)
    (version_code : option value) : string :=
  main.sanitize isalnum isspace
    (py_str (field next_apk "docid") +:+ "##" +:+ py_str version_code +:+ "##"
     +:+ pretty (_id next_apk) +:+ ".apk").

(** A free record that has no [details]. *)
Definition bare_record : stored :=
  Stored 3 {[ "docid" := VStr "com.bare"; "device" := VStr "device";
              "offer.micros" := VArr ["0"] ]}.

(** The sample environment with the signal delivered at interaction [n],
    while the interaction is under way. *)
Definition interrupted_during_env (n : nat) : environment := {|
  clock := clock sample_env;
  sigint_at := Some n;
  sigint_during := true;
  listSimilar := listSimilar sample_env;
  search := search sample_env;
  getPages_details := getPages_details sample_env;
  getPages := getPages sample_env;
  details := details sample_env;
  download := download sample_env;
  folder_size := folder_size sample_env;
  write_file := write_file sample_env;
  server_reject := server_reject sample_env
|}.

(** Both collections and the files are as before. *)
Definition unchanged (w w' : world) : Prop :=
  playstore_col w' = playstore_col w /\ crawlqueue_col w' = crawlqueue_col w /\
  files w' = files w.

(** ** [get_folder_size] on a file tree *)

Module file_tree.

Inductive os_error := FileNotFoundError | PermissionError.

(** An entry of a scanned folder.  [entry.is_dir()] holds for [IsDir],
    which carries what [os.scandir] gives for the entry's path; another
    entry carries what [entry.stat().st_size] gives.  An entry deleted
    during the scan answers [FileNotFoundError]. *)
#[warnings="-register-all"] Inductive entry :=
| NotDir (stat : os_error + Z)
| IsDir (scandir : os_error + list entry).

(** The [for] loop of [get_folder_size]: [size_of] is what the body of
    the [try] adds for an entry, or the exception it raises. *)
Definition scan (size_of : entry -> os_error + Z) : list entry -> Z -> os_error + Z :=
  fix loop (d : list entry) (total_size : Z) : os_error + Z :=
    match d with
    | [] => inr total_size
    | entry :: rest =>
        match size_of entry with
        | inr n => loop rest (total_size + n)
        | inl FileNotFoundError => loop rest total_size
        | inl e => inl e
        end
    end.

Fixpoint entry_size (e : entry) : os_error + Z :=
  match e with
  | NotDir stat => stat
  | IsDir (inl err) => inl err
  | IsDir (inr d) => scan entry_size d 0
  end.

Definition get_folder_size (scandir : os_error + list entry) : os_error + Z :=
  entry_size (IsDir scandir).

(** A file of 10 bytes, a folder holding 5 and 7 bytes and a file that
    is gone, and a folder that is gone. *)
Definition sample_listing : list entry :=
  [NotDir (inr 10);
   IsDir (inr [NotDir (inr 5); NotDir (inl FileNotFoundError); NotDir (inr 7)]);
   IsDir (inl FileNotFoundError)].

End file_tree.

(** * Properties *)

(** ** The store *)

Section Select.
Context (q : query) (sort : option string).

Local Abbreviation k := (sort_key sort).

Lemma key_lt_irrefl a : key_lt a a = false.
Proof. destruct a as [x|]; simpl; [|done]. apply bool_decide_eq_false. lia. Qed.

Lemma key_lt_asym a b : key_lt a b = true -> key_lt b a = false.
Proof.
  destruct a as [x|], b as [y|]; simpl; try done.
  rewrite bool_decide_eq_true, bool_decide_eq_false. lia.
Qed.

Lemma key_lt_negtrans a b c :
  key_lt a b = false -> key_lt b c = false -> key_lt a c = false.
Proof.
  destruct a as [x|], b as [y|], c as [z|]; simpl; try done.
  rewrite !bool_decide_eq_false. lia.
Qed.

Lemma select_None docs :
  select q sort docs = None <-> forall d, d ∈ docs -> matches q d = false.
Proof.
  induction docs as [|d0 rest IH]; simpl.
  - split; [intros _ d Hd; inversion Hd | done].
  - destruct (matches q d0) eqn:Hm.
    + split.
      * destruct (select q sort rest) as [[j d']|]; simpl; [|done].
        by destruct (key_lt _ _).
      * intros H. specialize (H d0 (list_elem_of_here _ _)). congruence.
    + rewrite fmap_None, IH. split.
      * intros H d Hd. apply elem_of_cons in Hd as [->|Hd]; auto.
      * intros H d Hd. apply H. by apply list_elem_of_further.
Qed.

Lemma select_Some docs i d : select q sort docs = Some (i, d) -> picked q sort docs i d.
Proof.
  revert i d. induction docs as [|d0 rest IH]; intros i d; simpl; [done|].
  destruct (select q sort rest) as [[j1 d1]|] eqn:Hsel; simpl.
  - destruct (IH _ _ eq_refl) as (Hl & Hm1 & Hbest).
    destruct (matches q d0) eqn:Hm0.
    + destruct (key_lt (k d0) (k d1)) eqn:Hlt; intros [= <- <-].
      * split_and!; [done..|]. intros [|j] d' Hj Hm'; simpl in Hj.
        -- injection Hj as <-. split; [by apply key_lt_asym | done].
        -- destruct (Hbest _ _ Hj Hm') as [H1 H2]. split; [done|].
           intros ?. apply H2. lia.
      * split_and!; [done..|]. intros [|j] d' Hj Hm'; simpl in Hj.
        -- injection Hj as <-. split; [apply key_lt_irrefl | lia].
        -- destruct (Hbest _ _ Hj Hm') as [H1 _]. split; [|lia].
           by eapply key_lt_negtrans.
    + intros [= <- <-]. split_and!; [done..|]. intros [|j] d' Hj Hm'; simpl in Hj.
      * injection Hj as <-. congruence.
      * destruct (Hbest _ _ Hj Hm') as [H1 H2]. split; [done|].
        intros ?. apply H2. lia.
  - destruct (matches q d0) eqn:Hm0; [|done].
    intros [= <- <-]. split_and!; [done..|]. intros [|j] d' Hj Hm'; simpl in Hj.
    + injection Hj as <-. split; [apply key_lt_irrefl | lia].
    + pose proof (proj1 (select_None rest) Hsel) as Hn.
      rewrite Hn in Hm'; [done|]. by eapply list_elem_of_lookup_2.
Qed.

Lemma picked_unique docs i d i' d' :
  picked q sort docs i d -> picked q sort docs i' d' -> i = i' /\ d = d'.
Proof.
  intros (Hl & Hm & Hb) (Hl' & Hm' & Hb').
  assert (i = i') as <-; [|split; congruence].
  destruct (Nat.lt_trichotomy i i') as [Hlt|[?|Hlt]]; [|done|].
  - destruct (Hb' _ _ Hl Hm) as [_ H1]. destruct (Hb _ _ Hl' Hm') as [H2 _].
    rewrite H1 in H2; [done | lia].
  - destruct (Hb _ _ Hl' Hm') as [_ H1]. destruct (Hb' _ _ Hl Hm) as [H2 _].
    rewrite H1 in H2; [done | lia].
Qed.

Lemma select_picked docs i d : picked q sort docs i d -> select q sort docs = Some (i, d).
Proof.
  intros Hp. destruct (select q sort docs) as [[i' d']|] eqn:Hsel.
  - apply select_Some in Hsel. destruct (picked_unique _ _ _ _ _ Hp Hsel) as [-> ->]. done.
  - destruct Hp as (Hl & Hm & _). pose proof (proj1 (select_None docs) Hsel) as Hn.
    rewrite Hn in Hm; [done|]. by eapply list_elem_of_lookup_2.
Qed.
End Select.

(** How the filters of [get_crawl_task] read a task. *)
Lemma matches_pending d : matches [("start_time", Is VNull)] d = pending d.
Proof. unfold matches, pending, leased_at. simpl. apply andb_true_r. Qed.

Lemma matches_expired deadline d :
  matches [("start_time", Lt deadline); ("end_time", Is VNull)] d = expired deadline d.
Proof.
  unfold matches, expired, leased_at, completed_at. simpl. rewrite andb_true_r.
  by destruct (field d "start_time") as [[]|].
Qed.

(** ** The claim protocol *)

(** What [get_crawl_task] returns is in the queue and is pending or
    expired; it returns nothing only when no task is either. *)
Lemma get_crawl_task_phases (c : conf) (t1 t2 t3 : Z) (q : list stored) :
  match db_interface.get_crawl_task c t1 t2 t3 q with
  | (Some d, _) =>
      d ∈ q /\ (pending d = true \/ expired (t2 - max_task_duration_seconds c) d = true)
  | (None, _) =>
      forall d, d ∈ q ->
        pending d = false /\ expired (t2 - max_task_duration_seconds c) d = false
  end.
Proof.
  unfold db_interface.get_crawl_task, find_one_and_update.
  destruct (select _ (Some "priority") q) as [[i d]|] eqn:H1.
  - apply select_Some in H1 as (Hl & Hm & _). rewrite matches_pending in Hm.
    split; [by eapply list_elem_of_lookup_2 | by left].
  - pose proof (proj1 (select_None _ _ _) H1) as Hn1.
    destruct (select _ None q) as [[i d]|] eqn:H2.
    + apply select_Some in H2 as (Hl & Hm & _). rewrite matches_expired in Hm.
      split; [by eapply list_elem_of_lookup_2 | by right].
    + pose proof (proj1 (select_None _ _ _) H2) as Hn2. intros d Hd.
      rewrite <- matches_pending, <- matches_expired. auto.
Qed.

(** C1: [get_crawl_task] first picks a pending task of greatest priority
    and sets its lease to the time read for it; only when no task is pending
    does it pick a task whose lease is older than the deadline and that is
    not completed, and refreshes its lease; it returns the task as it was
    before the update, and returns nothing, leaving the queue as it was,
    exactly when no task qualifies under either rule. *)
Theorem get_crawl_task_claims (c : conf) (t1 t2 t3 : Z) (q : list stored) :
  match db_interface.get_crawl_task c t1 t2 t3 q with
  | (Some d, q') =>
      exists i, q !! i = Some d /\
        ((pending d = true /\
          (forall d', d' ∈ q -> pending d' = true -> key_lt (priority d) (priority d') = false) /\
          q' = <[i := lease t1 d]> q)
         \/
         ((forall d', d' ∈ q -> pending d' = false) /\
          expired (t2 - max_task_duration_seconds c) d = true /\
          q' = <[i := lease t3 d]> q))
  | (None, q') =>
      q' = q /\
      forall d, d ∈ q ->
        pending d = false /\ expired (t2 - max_task_duration_seconds c) d = false
  end.
Proof.
  unfold db_interface.get_crawl_task, find_one_and_update.
  destruct (select _ (Some "priority") q) as [[i d]|] eqn:H1.
  - apply select_Some in H1 as (Hl & Hm & Hb). exists i. split; [done|]. left.
    rewrite matches_pending in Hm. split_and!; [done| |done].
    intros d' Hd' Hp'. apply list_elem_of_lookup in Hd' as [j Hj].
    rewrite <- matches_pending in Hp'. by destruct (Hb _ _ Hj Hp').
  - pose proof (proj1 (select_None _ _ _) H1) as Hn1.
    assert (forall d', d' ∈ q -> pending d' = false) as Hnp.
    { intros d' Hd'. rewrite <- matches_pending. auto. }
    destruct (select _ None q) as [[i d]|] eqn:H2.
    + apply select_Some in H2 as (Hl & Hm & _). exists i. split; [done|]. right.
      rewrite matches_expired in Hm. done.
    + pose proof (proj1 (select_None _ _ _) H2) as Hn2.
      split; [done|]. intros d Hd. split; [auto|].
      rewrite <- matches_expired. auto.
Qed.


Example get_crawl_task_priority_5_first :
  fst (db_interface.get_crawl_task sample_conf 50 50 50 queue_1_5_3)
  = Some (pending_task 2 "com.b" 5).
Proof. vm_compute. reflexivity. Qed.

(** C2, as stated, fails: a task completed after its lease was reset has
    [end_time] set and no [start_time], and [get_crawl_task] returns it. *)
Lemma get_crawl_task_returns_done_task :
  raced_queue = [raced_task] /\
  fst (db_interface.get_crawl_task sample_conf 130 130 130 raced_queue) = Some raced_task /\
  done raced_task = true.
Proof. vm_compute. done. Qed.

Lemma pending_not_leased d T : leased_at d = Some (VNum T) -> pending d = false.
Proof. unfold pending. by intros ->. Qed.

Lemma expired_leased deadline d T :
  leased_at d = Some (VNum T) -> done d = false ->
  expired deadline d = bool_decide (T < deadline).
Proof.
  unfold expired, done. intros -> Hd. apply negb_false_iff in Hd. rewrite Hd.
  apply andb_true_r.
Qed.

Lemma expired_inv deadline d :
  expired deadline d = true ->
  exists T, leased_at d = Some (VNum T) /\ T < deadline /\ done d = false.
Proof.
  unfold expired, done. intros [H1 H2]%andb_true_iff.
  destruct (leased_at d) as [[|T| |]|]; try done.
  exists T. apply bool_decide_eq_true in H1. by rewrite H2.
Qed.

(** C2, amended: the task [get_crawl_task] returns either has no lease, or
    has a lease older than the deadline and is not completed; so a task
    whose lease is set is returned neither before its lease has expired nor
    once it is completed.  A task leased at [T] and not completed turns
    claimable exactly when more than the maximal duration has passed since
    [T]; when no other task is claimable, it is then the task returned. *)
Theorem get_crawl_task_respects_leases (c : conf) (t1 t2 t3 : Z) (q : list stored) :
  (forall d q', db_interface.get_crawl_task c t1 t2 t3 q = (Some d, q') ->
     pending d = true \/
     exists T, leased_at d = Some (VNum T) /\ max_task_duration_seconds c < t2 - T
               /\ done d = false)
  /\
  (forall d T, d ∈ q -> leased_at d = Some (VNum T) -> done d = false ->
     (claimable c t2 d = true <-> max_task_duration_seconds c < t2 - T) /\
     ((forall d', d' ∈ q -> d' ≠ d -> claimable c t2 d' = false) ->
      (fst (db_interface.get_crawl_task c t1 t2 t3 q) = Some d
       <-> max_task_duration_seconds c < t2 - T))).
Proof.
  pose proof (get_crawl_task_phases c t1 t2 t3 q) as Hc. split.
  - intros d q' Heq. rewrite Heq in Hc. destruct Hc as (_ & [Hp|He]).
    + by left.
    + right. apply expired_inv in He as (T & ? & ? & ?). exists T. split_and!; [done|lia|done].
  - intros d T Hd HT Hnd.
    assert (claimable c t2 d = true <-> max_task_duration_seconds c < t2 - T) as Hcl.
    { unfold claimable. rewrite (pending_not_leased _ _ HT), (expired_leased _ _ _ HT Hnd).
      simpl. rewrite bool_decide_eq_true. lia. }
    split; [done|]. intros Hothers.
    destruct (db_interface.get_crawl_task c t1 t2 t3 q) as [[d1|] q1]; simpl.
    + destruct Hc as (Hin & Hcase).
      assert (claimable c t2 d1 = true) as Hcl1.
      { unfold claimable. destruct Hcase as [->| ->]; [done|apply orb_true_r]. }
      assert (d1 = d) as ->.
      { destruct (decide (d1 = d)); [done|]. rewrite Hothers in Hcl1; done. }
      split; [intros _; by apply Hcl | done].
    + destruct (Hc d Hd) as [_ Hne].
      split; [done|]. intros Hlt%Hcl. unfold claimable in Hlt.
      rewrite (pending_not_leased _ _ HT), Hne in Hlt. done.
Qed.

(** C2, amended, on the queue that holds the one task leased at time 5: it
    is not handed out at time 15 and is handed out at time 16. *)
Lemma get_crawl_task_respects_leases_witness :
  fst (db_interface.get_crawl_task sample_conf 16 16 16 [leased_task]) = Some leased_task /\
  fst (db_interface.get_crawl_task sample_conf 15 15 15 [leased_task]) <> Some leased_task.
Proof.
  split.
  - apply (proj2 (proj2 (get_crawl_task_respects_leases sample_conf 16 16 16 [leased_task])
                   leased_task 5 ltac:(apply list_elem_of_here) eq_refl eq_refl)).
    + intros d' Hd' Hne. apply list_elem_of_singleton in Hd'. done.
    + simpl. lia.
  - intros H.
    apply (proj2 (proj2 (get_crawl_task_respects_leases sample_conf 15 15 15 [leased_task])
                   leased_task 5 ltac:(apply list_elem_of_here) eq_refl eq_refl)) in H.
    + simpl in H. lia.
    + intros d' Hd' Hne. apply list_elem_of_singleton in Hd'. done.
Defined.

(** ** Reset *)

Lemma matches_id (i : Z) (d : stored) :
  matches [("_id", Is (VNum i))] d = bool_decide (_id d = i).
Proof.
  unfold matches. simpl. rewrite andb_true_r. unfold field. simpl.
  apply bool_decide_ext. split; congruence.
Qed.

(** Looking a document up by its [_id] finds the first one that has it. *)
Lemma select_by_id (docs : list stored) (i : nat) (d : stored) :
  docs !! i = Some d ->
  (forall j d', (j < i)%nat -> docs !! j = Some d' -> _id d' ≠ _id d) ->
  select [("_id", Is (VNum (_id d)))] None docs = Some (i, d).
Proof.
  intros Hi Hfirst. apply select_picked. split_and!; [done| |].
  - rewrite matches_id. by apply bool_decide_eq_true.
  - intros j d' Hj Hm. rewrite matches_id in Hm. apply bool_decide_eq_true in Hm.
    split; [done|]. intros Hlt. by destruct (Hfirst _ _ Hlt Hj).
Qed.

Lemma unique_ids_lookup (docs : list stored) (i j : nat) (d d' : stored) :
  unique_ids docs -> docs !! i = Some d -> docs !! j = Some d' -> _id d' = _id d -> j = i.
Proof.
  intros Hnd Hi Hj Heq. eapply (NoDup_lookup _ _ _ _ Hnd).
  - rewrite list_lookup_fmap, Hj. done.
  - rewrite list_lookup_fmap, Hi. simpl. by rewrite Heq.
Qed.

Lemma apply_unset_lease (t : Z) (d : stored) :
  apply_update (Unset ["start_time"; "end_time"]) (lease t d) = cleared d.
Proof. unfold cleared, lease. simpl. by rewrite delete_insert_eq. Qed.

Lemma cleared_fields (d : stored) :
  leased_at (cleared d) = None /\ completed_at (cleared d) = None /\
  priority (cleared d) = priority d /\ _id (cleared d) = _id d.
Proof.
  unfold leased_at, completed_at, priority, cleared, sort_key, field. simpl.
  rewrite lookup_delete_eq, lookup_delete_ne, lookup_delete_eq by done.
  by rewrite !lookup_delete_ne by done.
Qed.

(** [reset_crawl_task] on the document found under the id. *)
Lemma reset_crawl_task_found (docs : list stored) (i : nat) (d : stored) :
  docs !! i = Some d ->
  (forall j d', (j < i)%nat -> docs !! j = Some d' -> _id d' ≠ _id d) ->
  db_interface.reset_crawl_task (_id d) docs
  = ([], <[i := apply_update (Unset ["start_time"; "end_time"]) d]> docs).
Proof.
  intros Hi Hfirst. unfold db_interface.reset_crawl_task, find_one_and_update.
  by rewrite (select_by_id _ _ _ Hi Hfirst).
Qed.

(** After a claim and a reset, the next claim finds the same task. *)
Lemma claim_after_reset (c : conf) (t1 t2 t3 : Z) (q : list stored) (i : nat) (d : stored) :
  q !! i = Some d ->
  (pending d = true /\
   (forall j d', q !! j = Some d' -> pending d' = true ->
      key_lt (priority d) (priority d') = false /\
      ((j < i)%nat -> key_lt (priority d') (priority d) = true)))
  \/ (forall d', d' ∈ q -> pending d' = false) ->
  fst (db_interface.get_crawl_task c t1 t2 t3 (<[i := cleared d]> q)) = Some (cleared d).
Proof.
  intros Hi Hcase. destruct (cleared_fields d) as (Hl & _ & Hprio & _).
  assert (i < length q)%nat as Hlen by by eapply lookup_lt_Some.
  unfold db_interface.get_crawl_task, find_one_and_update.
  rewrite (select_picked _ _ _ i (cleared d)); [done|].
  split_and!.
  - by apply list_lookup_insert_eq.
  - rewrite matches_pending. unfold pending. by rewrite Hl.
  - intros j d' Hj Hm. rewrite matches_pending in Hm.
    change (sort_key (Some "priority")) with priority. rewrite Hprio.
    destruct (decide (j = i)) as [->|Hne].
    + rewrite list_lookup_insert_eq in Hj by done. injection Hj as <-.
      rewrite Hprio. split; [apply key_lt_irrefl | lia].
    + rewrite list_lookup_insert_ne in Hj by done.
      destruct Hcase as [(_ & Hbest)|Hnone].
      * by apply Hbest.
      * rewrite Hnone in Hm; [done|]. by eapply list_elem_of_lookup_2.
Qed.

(** The position [get_crawl_task] claims at, with the order it was chosen
    by. *)
Lemma get_crawl_task_position (c : conf) (t1 t2 t3 : Z) (q q' : list stored) (d : stored) :
  db_interface.get_crawl_task c t1 t2 t3 q = (Some d, q') ->
  exists i t, q !! i = Some d /\ q' = <[i := lease t d]> q /\
    ((pending d = true /\
      (forall j d', q !! j = Some d' -> pending d' = true ->
         key_lt (priority d) (priority d') = false /\
         ((j < i)%nat -> key_lt (priority d') (priority d) = true)))
     \/ (forall d', d' ∈ q -> pending d' = false)).
Proof.
  unfold db_interface.get_crawl_task, find_one_and_update.
  destruct (select _ (Some "priority") q) as [[i d1]|] eqn:H1.
  - intros [= <- <-]. apply select_Some in H1 as (Hl & Hm & Hb).
    exists i, t1. split_and!; [done..|]. left. rewrite matches_pending in Hm. split; [done|].
    intros j d' Hj Hp'. rewrite <- matches_pending in Hp'. by apply Hb.
  - pose proof (proj1 (select_None _ _ _) H1) as Hn1.
    destruct (select _ None q) as [[i d1]|] eqn:H2; [|done].
    intros [= <- <-]. apply select_Some in H2 as (Hl & _ & _).
    exists i, t3. split_and!; [done..|]. right.
    intros d' Hd'. rewrite <- matches_pending. auto.
Qed.

(** C7: [reset_crawl_task] clears both [start_time] and [end_time] of the
    task found under the id, which is pending afterwards; and in a queue
    with unique ids, a task that was claimed and then reset is what the next
    claim returns, with neither lease nor completion. *)
Theorem reset_restores_pending (c : conf) (q : list stored) :
  unique_ids q ->
  (forall i d, q !! i = Some d ->
     db_interface.reset_crawl_task (_id d) q = ([], <[i := cleared d]> q) /\
     leased_at (cleared d) = None /\ completed_at (cleared d) = None /\
     pending (cleared d) = true)
  /\
  (forall t1 t2 t3 d q1,
     db_interface.get_crawl_task c t1 t2 t3 q = (Some d, q1) ->
     exists i q2,
       db_interface.reset_crawl_task (_id d) q1 = ([], q2) /\
       q2 !! i = Some (cleared d) /\
       leased_at (cleared d) = None /\ completed_at (cleared d) = None /\
       forall t1' t2' t3',
         fst (db_interface.get_crawl_task c t1' t2' t3' q2) = Some (cleared d)).
Proof.
  intros Huniq. split.
  - intros i d Hi. destruct (cleared_fields d) as (Hl & Hc & _ & _).
    split_and!; [|done|done|by unfold pending; rewrite Hl].
    rewrite (reset_crawl_task_found q i d Hi).
    + done.
    + intros j d' Hlt Hj Heq. pose proof (unique_ids_lookup _ _ _ _ _ Huniq Hi Hj Heq). lia.
  - intros t1 t2 t3 d q1 Hclaim.
    apply get_crawl_task_position in Hclaim as (i & t & Hi & -> & Hcase).
    assert (i < length q)%nat as Hlen by by eapply lookup_lt_Some.
    destruct (cleared_fields d) as (Hl & Hc & _ & _).
    exists i, (<[i := cleared d]> q). split_and!; [|by apply list_lookup_insert_eq|done|done|].
    + change (_id d) with (_id (lease t d)).
      rewrite (reset_crawl_task_found _ i (lease t d)).
      * by rewrite apply_unset_lease, list_insert_insert_eq.
      * by apply list_lookup_insert_eq.
      * intros j d' Hlt Hj Heq. rewrite list_lookup_insert_ne in Hj by lia.
        pose proof (unique_ids_lookup _ _ _ _ _ Huniq Hi Hj Heq). lia.
    + intros t1' t2' t3'. by apply claim_after_reset.
Qed.

(** C7 on the queue of priorities 1, 5, 3: the task of priority 5 is
    claimed, reset, and claimed again. *)
Lemma reset_restores_pending_witness :
  exists i q2,
    db_interface.reset_crawl_task 2
      (snd (db_interface.get_crawl_task sample_conf 50 50 50 queue_1_5_3)) = ([], q2) /\
    q2 !! i = Some (cleared (pending_task 2 "com.b" 5)) /\
    leased_at (cleared (pending_task 2 "com.b" 5)) = None /\
    completed_at (cleared (pending_task 2 "com.b" 5)) = None /\
    forall t1' t2' t3',
      fst (db_interface.get_crawl_task sample_conf t1' t2' t3' q2)
      = Some (cleared (pending_task 2 "com.b" 5)).
Proof.
  assert (unique_ids queue_1_5_3) as Huniq.
  { unfold unique_ids. apply (bool_decide_unpack _). vm_compute. exact I. }
  apply (proj2 (reset_restores_pending sample_conf queue_1_5_3 Huniq) 50 50 50
           (pending_task 2 "com.b" 5)).
  vm_compute. reflexivity.
Defined.

(** ** Running the calls of [main] *)

Section Calls.
Context (env : environment).

Lemma interact_ok (w : world) :
  sigint_at env ≠ Some (tick w) -> main.interact env w = (Ok (tick w), bump w).
Proof. intros H. unfold main.interact. by rewrite decide_False. Qed.

Lemma interact_interrupted (w : world) :
  sigint_at env = Some (tick w) -> main.interact env w = (Raise KeyboardInterrupt, bump w).
Proof. intros H. unfold main.interact. by rewrite decide_True. Qed.

Lemma store_call_ok {A} (on : (list stored -> A * list stored) -> M A)
    (f : nat -> list stored -> A * list stored) (w : world) :
  sigint_at env ≠ Some (tick w) ->
  main.store_call env on f w = on (f (tick w)) (bump w).
Proof. intros H. unfold main.store_call. by rewrite decide_False. Qed.

Lemma store_call_interrupted {A} (on : (list stored -> A * list stored) -> M A)
    (f : nat -> list stored -> A * list stored) (w : world) :
  sigint_at env = Some (tick w) ->
  main.store_call env on f w
  = (Raise KeyboardInterrupt,
     if sigint_during env then (on (f (tick w)) (bump w)).2 else bump w).
Proof. intros H. unfold main.store_call. by rewrite decide_True. Qed.

Lemma crawlqueue_call_ok f (w : world) :
  sigint_at env ≠ Some (tick w) ->
  main.crawlqueue_call env f w
  = (Ok tt, add_log (f (tick w) (crawlqueue_col w)).1
              (set_crawlqueue (f (tick w) (crawlqueue_col w)).2 (bump w))).
Proof. intros H. unfold main.crawlqueue_call, bind. by rewrite store_call_ok. Qed.

Lemma crawlqueue_call_interrupted f (w : world) :
  sigint_at env = Some (tick w) ->
  main.crawlqueue_call env f w
  = (Raise KeyboardInterrupt,
     if sigint_during env
     then set_crawlqueue (f (tick w) (crawlqueue_col w)).2 (bump w) else bump w).
Proof. intros H. unfold main.crawlqueue_call, bind. by rewrite store_call_interrupted. Qed.

Lemma playstore_call_ok f (w : world) :
  sigint_at env ≠ Some (tick w) ->
  main.playstore_call env f w
  = (Ok tt, add_log (f (tick w) (playstore_col w)).1
              (set_playstore (f (tick w) (playstore_col w)).2 (bump w))).
Proof. intros H. unfold main.playstore_call, bind. by rewrite store_call_ok. Qed.

Lemma playstore_call_interrupted f (w : world) :
  sigint_at env = Some (tick w) ->
  main.playstore_call env f w
  = (Raise KeyboardInterrupt,
     if sigint_during env
     then set_playstore (f (tick w) (playstore_col w)).2 (bump w) else bump w).
Proof. intros H. unfold main.playstore_call, bind. by rewrite store_call_interrupted. Qed.
End Calls.

(** ** Priorities *)

Lemma set_crawl_task_priority_queue (task_type : string) (datas : list string) (p : Z)
    (q : list stored) :
  (db_interface.set_crawl_task_priority task_type datas p q).2
  = (fun d => if matches [("task", Is (VStr task_type)); ("data", In_ (VStr <$> datas))] d
              then apply_update (Set_ [("priority", VNum p)]) d else d) <$> q.
Proof. done. Qed.

Lemma matches_details_in (packages : list string) (d : stored) :
  matches [("task", Is (VStr (CrawlTask_value DETAILS))); ("data", In_ (VStr <$> packages))] d
  = value_matches (VStr (CrawlTask_value DETAILS)) (kind d)
    && existsb (fun v => value_matches v (key d)) (VStr <$> packages).
Proof. unfold matches, kind, key. simpl. by rewrite andb_true_r. Qed.

Lemma existsb_in_strings (packages : list string) (s : string) :
  existsb (fun v => value_matches v (Some (VStr s))) (VStr <$> packages) = bool_decide (s ∈ packages).
Proof.
  induction packages as [|p rest IH]; [done|].
  rewrite fmap_cons. cbn [existsb value_matches]. rewrite IH.
  - destruct (decide (s = p)) as [->|Hne].
    + rewrite bool_decide_eq_true_2 by done. symmetry. apply bool_decide_eq_true.
      apply list_elem_of_here.
    + rewrite (bool_decide_eq_false_2 (VStr s = VStr p)) by congruence. simpl.
      apply bool_decide_ext. rewrite elem_of_cons. split; [by right | by intros [?|?]].
Qed.

(** C9: the priority bump of [--change-priority] sets the priority to 10 on
    the [DETAILS] tasks whose key is one of the given packages, and leaves
    every task of another kind ([SIMILAR], [CREATOR], ...) and every task
    whose key is not among the packages as it was. *)
Theorem increase_priority_frame (env : environment) (packages : list string) (w : world) :
  sigint_at env ≠ Some (tick w) ->
  exists w',
    main.change_priority env packages w = (Ok tt, w') /\
    playstore_col w' = playstore_col w /\
    length (crawlqueue_col w') = length (crawlqueue_col w) /\
    forall i d, crawlqueue_col w !! i = Some d ->
      exists d', crawlqueue_col w' !! i = Some d' /\
        (forall s, kind d = Some (VStr (CrawlTask_value DETAILS)) ->
                   key d = Some (VStr s) -> s ∈ packages ->
                   d' = with_priority 10 d /\ priority d' = Some 10) /\
        (forall s, kind d = Some (VStr s) -> s ≠ CrawlTask_value DETAILS -> d' = d) /\
        (forall s, key d = Some (VStr s) -> s ∉ packages -> d' = d).
Proof.
  intros Hsig.
  unfold main.change_priority, main.increase_priority, main.db_set_crawl_task_priority.
  rewrite crawlqueue_call_ok by done. eexists. split; [reflexivity|].
  cbn [playstore_col crawlqueue_col add_log set_crawlqueue bump].
  rewrite set_crawl_task_priority_queue.
  split_and!; [done|by rewrite length_fmap|].
  intros i d Hi. rewrite list_lookup_fmap, Hi. eexists. split; [reflexivity|].
  cbv beta. rewrite matches_details_in. split_and!.
  - intros s Hk Hd Hin. rewrite Hk, Hd, existsb_in_strings. simpl.
    rewrite bool_decide_eq_true_2 by done.
    split; [done|]. unfold priority, sort_key, field. simpl. by rewrite lookup_insert_eq.
  - intros s Hk Hne. rewrite Hk. simpl. rewrite bool_decide_eq_false_2; [done|].
    intros [= ?]. done.
  - intros s Hd Hnin. rewrite Hd, existsb_in_strings.
    rewrite (bool_decide_eq_false_2 _ Hnin). by rewrite andb_false_r.
Qed.

(** ** File names *)

Section Sanitize.
Context (isalnum isspace : N -> bool).

Local Abbreviation rstrip := (file_tools.rstrip isspace).

Lemma rstrip_elem (s : list N) (x : N) : x ∈ rstrip s -> x ∈ s.
Proof.
  induction s as [|a rest IH]; simpl; [done|].
  destruct (rstrip rest) as [|b r] eqn:Hr.
  - destruct (isspace a); [by intros ?%elem_of_nil|].
    intros ->%list_elem_of_singleton. apply list_elem_of_here.
  - intros [->|Hx]%elem_of_cons; [apply list_elem_of_here|].
    apply list_elem_of_further. by apply IH.
Qed.

Lemma rstrip_last (s : list N) (x : N) : last (rstrip s) = Some x -> isspace x = false.
Proof.
  induction s as [|a rest IH]; simpl; [done|].
  destruct (rstrip rest) as [|b r] eqn:Hr.
  - destruct (isspace a) eqn:Ha; simpl; [done|]. by intros [= <-].
  - intros Hl. apply IH. exact Hl.
Qed.

Lemma rstrip_fixed (s : list N) :
  (forall x, last s = Some x -> isspace x = false) -> rstrip s = s.
Proof.
  induction s as [|a rest IH]; simpl; [done|]. intros Hl.
  destruct rest as [|b r].
  - simpl. by rewrite (Hl a eq_refl).
  - rewrite IH; [done|]. intros x Hx. apply Hl. exact Hx.
Qed.

Lemma filter_fixed (P : N -> Prop) `{!forall x, Decision (P x)} (s : list N) :
  (forall x, x ∈ s -> P x) -> filter P s = s.
Proof.
  induction s as [|a rest IH]; [done|]. intros Hall.
  rewrite filter_cons_True by (apply Hall, list_elem_of_here).
  rewrite IH; [done|]. intros x Hx. by apply Hall, list_elem_of_further.
Qed.

(** C10: what [sanitize_filename] returns holds only alphanumeric
    characters, spaces, dots and underscores, and does not end in
    whitespace; sanitizing it again returns it unchanged. *)
Theorem sanitize_filename_idempotent (filename : list N) :
  let r := file_tools.sanitize_filename isalnum isspace filename in
  (forall x, x ∈ r -> isalnum x = true \/ x = 32%N \/ x = 46%N \/ x = 95%N) /\
  (forall x, last r = Some x -> isspace x = false) /\
  file_tools.sanitize_filename isalnum isspace r = r.
Proof.
  simpl. unfold file_tools.sanitize_filename.
  assert (forall x, x ∈ rstrip (filter (fun c => isalnum c = true \/ c ∈ file_tools.keep_characters)
                                       filename) ->
                    isalnum x = true \/ x ∈ file_tools.keep_characters) as Hkeep.
  { intros x Hx%rstrip_elem. by apply list_elem_of_filter in Hx as [? _]. }
  split_and!.
  - intros x Hx. destruct (Hkeep x Hx) as [?|Hk]; [by left|right].
    unfold file_tools.keep_characters in Hk. rewrite !elem_of_cons in Hk.
    destruct Hk as [?|[?|[?|Hn]]]; auto. by apply elem_of_nil in Hn.
  - apply rstrip_last.
  - rewrite filter_fixed by done. apply rstrip_fixed, rstrip_last.
Qed.
End Sanitize.

Example sanitize_filename_ascii :
  main.sanitize file_tools.ascii_isalnum file_tools.ascii_isspace
    "com.a/b##12##5.apk  " = "com.ab125.apk".
Proof. vm_compute. reflexivity. Qed.

(** ** Graph expansion *)

Lemma task_draft_kind (data : value) (t : CrawlTask) :
  draft_kind (main.task_draft data t) = Some (VStr (CrawlTask_value t)).
Proof. unfold draft_kind, main.task_draft. by rewrite lookup_insert_ne, lookup_singleton_eq. Qed.

Lemma count_kind_details (t : CrawlTask) (packages : list value) :
  count_kind t ((fun p => main.task_draft p DETAILS) <$> packages)
  = if decide (t = DETAILS) then length packages else 0%nat.
Proof.
  unfold count_kind. induction packages as [|p rest IH]; [by case_decide|].
  rewrite fmap_cons. destruct (decide (t = DETAILS)) as [->|Hne].
  - rewrite filter_cons_True by apply task_draft_kind. cbn [length]. by rewrite IH.
  - rewrite filter_cons_False; [done|]. rewrite task_draft_kind.
    intros [= ?]. by destruct t.
Qed.

(** C5, as stated, fails: for a detail result with 2 similar packages,
    1 pre-install package and a creator, [dump_data_details] makes 3 drafts
    of kind [DETAILS] or [SIMILAR], not 4. *)
Lemma dump_data_details_three_details :
  exists records crawl_tasks,
    main.dump_data_details_drafts "device" sample_details = Ok (records, crawl_tasks) /\
    (count_kind DETAILS crawl_tasks + count_kind SIMILAR crawl_tasks)%nat = 3%nat /\
    (count_kind DETAILS crawl_tasks + count_kind SIMILAR crawl_tasks)%nat ≠ 4%nat.
Proof. eexists _, _. split; [vm_compute; reflexivity|]. vm_compute. split; [done|lia]. Qed.

(** C5, amended: for a detail result with a creator and with [s] similar,
    [p] pre-install and [q] post-install packages, [dump_data_details]
    makes one record draft, one [CREATOR] draft for the creator, one
    [DETAILS] draft for every listed package ([s + p + q] of them) and no
    [SIMILAR] draft: [1 + s + p + q] task drafts in all. *)
Theorem dump_data_details_drafts_count (emulated_device : string) (details : document)
    (creator : value) (similar pre_install post_install : list string) :
  details !! "creator" = Some creator ->
  details !! "similar" = Some (VArr similar) ->
  details !! "preInstall" = Some (VArr pre_install) ->
  details !! "postInstall" = Some (VArr post_install) ->
  exists crawl_tasks,
    main.dump_data_details_drafts emulated_device details
    = Ok ([<["device" := VStr emulated_device]> details], crawl_tasks) /\
    crawl_tasks = main.task_draft creator CREATOR
                  :: ((fun p => main.task_draft (VStr p) DETAILS)
                        <$> (similar ++ pre_install ++ post_install)) /\
    count_kind CREATOR crawl_tasks = 1%nat /\
    count_kind DETAILS crawl_tasks
    = (length similar + length pre_install + length post_install)%nat /\
    count_kind SIMILAR crawl_tasks = 0%nat /\
    length crawl_tasks
    = (1 + length similar + length pre_install + length post_install)%nat.
Proof.
  intros Hc Hs Hp Hq. unfold main.dump_data_details_drafts, main.extend_if_present.
  rewrite Hs, Hp, Hq, Hc. simpl. eexists. split; [reflexivity|].
  rewrite <- !fmap_app, <- list_fmap_compose.
  split; [by rewrite <- app_assoc|].
  unfold count_kind at 1 2 3.
  rewrite filter_cons_True by apply task_draft_kind.
  rewrite !filter_cons_False by (rewrite task_draft_kind; intros [= ?]; done).
  simpl. rewrite (list_fmap_compose VStr (fun p => main.task_draft p DETAILS)).
  pose proof (count_kind_details CREATOR) as H1. pose proof (count_kind_details DETAILS) as H2.
  pose proof (count_kind_details SIMILAR) as H3. unfold count_kind in H1, H2, H3.
  rewrite H1, H2, H3. simpl. rewrite !length_fmap, !length_app. split_and!; lia.
Qed.

(** C5, amended, on the detail result with 2 similar packages and
    1 pre-install package: 1 [CREATOR] draft and 3 [DETAILS] drafts. *)
Lemma dump_data_details_drafts_count_witness :
  exists crawl_tasks,
    main.dump_data_details_drafts "device" sample_details
    = Ok ([<["device" := VStr "device"]> sample_details], crawl_tasks) /\
    crawl_tasks = main.task_draft (VStr "ACME") CREATOR
                  :: ((fun p => main.task_draft (VStr p) DETAILS)
                        <$> (["com.b"; "com.c"] ++ ["com.d"] ++ [])) /\
    count_kind CREATOR crawl_tasks = 1%nat /\
    count_kind DETAILS crawl_tasks = 3%nat /\
    count_kind SIMILAR crawl_tasks = 0%nat /\
    length crawl_tasks = 4%nat.
Proof.
  apply (dump_data_details_drafts_count "device" sample_details (VStr "ACME")
           ["com.b"; "com.c"] ["com.d"] []); vm_compute; reflexivity.
Defined.

(** ** Enqueueing *)

Section Insert.
Context (reject : document -> option write_error) (idx : list string).

Local Abbreviation keys := (fmap (M:=list) (fun d => index_key idx (body d))).

Lemma collides_single (e : document) (docs : list stored) :
  collides [idx] e docs = true <-> index_key idx e ∈ keys docs.
Proof.
  unfold collides. simpl. rewrite orb_false_r, existsb_exists, list_elem_of_fmap.
  split.
  - intros (d & Hd & Heq). exists d. apply bool_decide_eq_true in Heq.
    split; [done|]. by apply list_elem_of_In.
  - intros (d & Heq & Hd). exists d. split; [by apply list_elem_of_In|].
    by apply bool_decide_eq_true.
Qed.

Lemma collides_single_false (e : document) (docs : list stored) :
  collides [idx] e docs = false <-> index_key idx e ∉ keys docs.
Proof. rewrite <- collides_single. by destruct (collides _ _ _). Qed.

(** The unordered bulk insert: the collection grows at its end by drafts
    the server accepts and that met no document with their key; every
    accepted draft finds its key in the collection afterwards; the unique
    index keeps holding; the errors that are not duplicate-key errors are
    those of the server. *)
Lemma insert_many_spec (es : list document) (docs : list stored) :
  exists new,
    (insert_many reject [idx] es docs).2 = docs ++ new /\
    (forall d, d ∈ new ->
       body d ∈ es /\ reject (body d) = None /\ index_key idx (body d) ∉ keys docs) /\
    (forall e, e ∈ es -> reject e = None ->
       index_key idx e ∈ keys (insert_many reject [idx] es docs).2) /\
    (NoDup (keys docs) -> NoDup (keys (insert_many reject [idx] es docs).2)) /\
    omap insert_error_log (insert_many reject [idx] es docs).1
    = omap (fun e => reject e ≫= insert_error_log) es.
Proof.
  revert docs. induction es as [|e es IH]; intros docs.
  - exists []. simpl. rewrite app_nil_r. split_and!; try done.
    + intros d Hd. by apply elem_of_nil in Hd.
    + intros e He. by apply elem_of_nil in He.
  - cbn [insert_many]. destruct (reject e) as [err|] eqn:Hrej.
    + destruct (IH docs) as (new & Heq & Hnew & Hall & Hnd & Hlog).
      destruct (insert_many reject [idx] es docs) as [errs docs'] eqn:Hins.
      simpl in *. exists new. split_and!; [done| | |done|].
      * intros d Hd. destruct (Hnew d Hd) as (? & ? & ?).
        split_and!; [by apply list_elem_of_further|done..].
      * intros e' [->|He']%elem_of_cons Hacc; [congruence|]. by apply Hall.
      * rewrite Hrej. simpl. unfold omap in Hlog. by rewrite Hlog.
    + destruct (collides [idx] e docs) eqn:Hcol.
      * destruct (IH docs) as (new & Heq & Hnew & Hall & Hnd & Hlog).
        destruct (insert_many reject [idx] es docs) as [errs docs'] eqn:Hins.
        simpl in *. exists new. split_and!; [done| | |done|].
        -- intros d Hd. destruct (Hnew d Hd) as (? & ? & ?).
           split_and!; [by apply list_elem_of_further|done..].
        -- intros e' [->|He']%elem_of_cons Hacc; [|by apply Hall].
           apply collides_single in Hcol. rewrite Heq, fmap_app, elem_of_app. by left.
        -- rewrite Hrej. simpl. unfold omap in Hlog. by rewrite Hlog.
      * apply collides_single_false in Hcol.
        destruct (IH (docs ++ [Stored (fresh_id docs) e]))
          as (new & Heq & Hnew & Hall & Hnd & Hlog).
        exists (Stored (fresh_id docs) e :: new).
        split_and!.
        -- by rewrite Heq, <- app_assoc.
        -- intros d [->|Hd]%elem_of_cons.
           ++ simpl. split_and!; [apply list_elem_of_here|done..].
           ++ destruct (Hnew d Hd) as (? & ? & Hk). split_and!;
                [by apply list_elem_of_further|done|].
              intros Hin. apply Hk. rewrite fmap_app, elem_of_app. by left.
        -- intros e' [->|He']%elem_of_cons Hacc; [|by apply Hall].
           rewrite Heq, !fmap_app, !elem_of_app. left. right.
           apply list_elem_of_here.
        -- intros Hdocs. apply Hnd. rewrite fmap_app. apply NoDup_app.
           split_and!; [done| |apply NoDup_singleton].
           intros k Hk ->%list_elem_of_singleton. done.
        -- rewrite Hlog. simpl. by rewrite Hrej.
Qed.

Lemma dump_to_mongodb_insert (es : list document) (docs : list stored) :
  db_interface.dump_to_mongodb reject [idx] es docs
  = (omap insert_error_log (insert_many reject [idx] es docs).1,
     (insert_many reject [idx] es docs).2).
Proof.
  unfold db_interface.dump_to_mongodb. destruct es as [|e es]; [done|].
  by destruct (insert_many reject [idx] (e :: es) docs).
Qed.
End Insert.

Lemma count_absent {A B} `{EqDecision B} (f : A -> B) (l : list A) (k : B) :
  k ∉ f <$> l <-> length (filter (fun y => f y = k) l) = 0%nat.
Proof.
  induction l as [|a l IH]; [by split; [|intros _ ?%elem_of_nil]|].
  rewrite fmap_cons, not_elem_of_cons, IH. destruct (decide (f a = k)) as [Heq|Hne].
  - rewrite filter_cons_True by done. simpl. split; [by intros [? _]|lia].
  - rewrite filter_cons_False by done. split; [by intros [_ ?]|by split].
Qed.

Lemma count_NoDup {A B} `{EqDecision B} (f : A -> B) (l : list A) (k : B) :
  NoDup (f <$> l) -> k ∈ f <$> l -> length (filter (fun y => f y = k) l) = 1%nat.
Proof.
  induction l as [|a l IH].
  - intros _ Hk. by apply elem_of_nil in Hk.
  - rewrite fmap_cons. intros [Hna Hnd]%NoDup_cons [Hk|Hk]%elem_of_cons.
    + rewrite filter_cons_True by done. simpl. f_equal.
      apply count_absent. by rewrite Hk.
    + rewrite filter_cons_False; [by apply IH|]. intros Heq. apply Hna. by rewrite Heq.
Qed.

(** C3: [enqueue_crawl_tasks] keeps the stored tasks and appends drafts the
    server accepts whose pair [(kind, key)] no stored task carries; a draft
    that collides is dropped and nothing is logged for it; an error of
    another kind is logged, once per draft, and the other drafts go in all
    the same: every accepted draft finds its pair stored exactly once
    afterwards.  So two accepted drafts with the same pair leave exactly one
    stored task, whether they come in one call or in two. *)
Theorem enqueue_crawl_tasks_dedup (reject : document -> option write_error)
    (drafts : list document) (q : list stored) :
  unique_tasks q ->
  let r := db_interface.enqueue_crawl_tasks reject drafts q in
  r.1 = omap (fun e => reject e ≫= insert_error_log) drafts /\
  (exists new, r.2 = q ++ new /\
     forall d, d ∈ new ->
       body d ∈ drafts /\ reject (body d) = None /\ stored_with (task_key (body d)) q = 0%nat) /\
  (forall e, e ∈ drafts -> reject e = None -> stored_with (task_key e) r.2 = 1%nat) /\
  unique_tasks r.2 /\
  (forall e1 e2, reject e1 = None -> reject e2 = None -> task_key e1 = task_key e2 ->
     stored_with (task_key e1) (db_interface.enqueue_crawl_tasks reject [e1; e2] q).2 = 1%nat /\
     stored_with (task_key e1)
       (db_interface.enqueue_crawl_tasks reject [e2]
          (db_interface.enqueue_crawl_tasks reject [e1] q).2).2 = 1%nat).
Proof.
  intros Hq.
  assert (forall drafts q, unique_tasks q ->
            unique_tasks (db_interface.enqueue_crawl_tasks reject drafts q).2 /\
            forall e, e ∈ drafts -> reject e = None ->
              stored_with (task_key e) (db_interface.enqueue_crawl_tasks reject drafts q).2
              = 1%nat) as Hone.
  { clear. intros drafts q Hq. unfold db_interface.enqueue_crawl_tasks,
      db_interface.crawlqueue_unique. rewrite dump_to_mongodb_insert. simpl.
    destruct (insert_many_spec reject ["data"; "task"] drafts q)
      as (new & _ & _ & Hall & Hnd & _).
    split; [by apply Hnd|]. intros e He Hacc.
    apply (count_NoDup (fun d => task_key (body d))); [by apply Hnd|by apply Hall]. }
  simpl. split_and!.
  - unfold db_interface.enqueue_crawl_tasks, db_interface.crawlqueue_unique.
    rewrite dump_to_mongodb_insert. simpl.
    by destruct (insert_many_spec reject ["data"; "task"] drafts q) as (new & _ & _ & _ & _ & ->).
  - unfold db_interface.enqueue_crawl_tasks, db_interface.crawlqueue_unique.
    rewrite dump_to_mongodb_insert. simpl.
    destruct (insert_many_spec reject ["data"; "task"] drafts q) as (new & Heq & Hnew & _).
    exists new. split; [done|]. intros d Hd. destruct (Hnew d Hd) as (? & ? & Hk).
    split_and!; [done..|]. by apply (count_absent (fun d => task_key (body d))).
  - apply (proj2 (Hone drafts q Hq)).
  - apply (proj1 (Hone drafts q Hq)).
  - intros e1 e2 H1 H2 Hk. split.
    + apply (proj2 (Hone [e1; e2] q Hq)); [apply list_elem_of_here|done].
    + rewrite Hk.
      apply (proj2 (Hone [e2] _ (proj1 (Hone [e1] q Hq)))); [apply list_elem_of_here|done].
Qed.

(** C3 on the empty queue: two drafts for the same package leave one task. *)
Lemma enqueue_crawl_tasks_dedup_witness :
  stored_with (task_key (main.task_draft (VStr "com.a") DETAILS))
    (db_interface.enqueue_crawl_tasks accept_all
       [main.task_draft (VStr "com.a") DETAILS; main.task_draft (VStr "com.a") DETAILS] []).2
  = 1%nat.
Proof.
  assert (unique_tasks []) as Hq by (unfold unique_tasks; simpl; apply NoDup_nil; done).
  apply (proj1 (proj2 (proj2 (proj2 (proj2
           (enqueue_crawl_tasks_dedup accept_all [] [] Hq))))
           (main.task_draft (VStr "com.a") DETAILS) (main.task_draft (VStr "com.a") DETAILS)
           eq_refl eq_refl eq_refl)).
Defined.

Example enqueue_crawl_tasks_logs_other_errors :
  db_interface.enqueue_crawl_tasks
    (fun e => if decide (e !! "data" = Some (VStr "bad"))
              then Some (WriteError 121 "Document failed validation") else None)
    [main.task_draft (VStr "com.a") DETAILS; main.task_draft (VStr "bad") DETAILS;
     main.task_draft (VStr "com.a") DETAILS; main.task_draft (VStr "com.b") DETAILS]
    []
  = ([(ERROR, "Document failed validation")],
     [Stored 1 (main.task_draft (VStr "com.a") DETAILS);
      Stored 2 (main.task_draft (VStr "com.b") DETAILS)]).
Proof. vm_compute. reflexivity. Qed.

(** ** What the calls keep *)

Lemma apply_update_id (u : update) (d : stored) : _id (apply_update u d) = _id d.
Proof. by destruct u. Qed.

Lemma find_one_and_update_Some q u sort docs d docs' :
  find_one_and_update q u sort docs = (Some d, docs') ->
  exists i, docs !! i = Some d /\ matches q d = true /\ docs' = <[i := apply_update u d]> docs.
Proof.
  unfold find_one_and_update. destruct (select q sort docs) as [[i d1]|] eqn:Hsel; [|done].
  intros [= <- <-]. apply select_Some in Hsel as (? & ? & _). by exists i.
Qed.

Lemma find_one_and_update_None q u sort docs docs' :
  find_one_and_update q u sort docs = (None, docs') ->
  docs' = docs /\ forall d, d ∈ docs -> matches q d = false.
Proof.
  unfold find_one_and_update. destruct (select q sort docs) as [[i d1]|] eqn:Hsel; [done|].
  intros [= <-]. split; [done|]. apply (proj1 (select_None _ _ _) Hsel).
Qed.

Lemma find_by_id_found u docs i d :
  unique_ids docs -> docs !! i = Some d ->
  find_one_and_update [("_id", Is (VNum (_id d)))] u None docs
  = (Some d, <[i := apply_update u d]> docs).
Proof.
  intros Hu Hi. unfold find_one_and_update. rewrite (select_by_id docs i d Hi); [done|].
  intros j d' Hlt Hj Heq. pose proof (unique_ids_lookup _ _ _ _ _ Hu Hi Hj Heq). lia.
Qed.

Lemma ids_insert_same (q : list stored) i d d' :
  q !! i = Some d -> _id d' = _id d -> _id <$> <[i := d']> q = _id <$> q.
Proof.
  intros Hi Hid. rewrite list_fmap_insert, Hid. apply list_insert_id.
  by rewrite list_lookup_fmap, Hi.
Qed.

Lemma find_one_and_update_ids q u sort docs :
  _id <$> (find_one_and_update q u sort docs).2 = _id <$> docs.
Proof.
  destruct (find_one_and_update q u sort docs) as [[d|] docs'] eqn:Heq; simpl.
  - apply find_one_and_update_Some in Heq as (i & Hi & _ & ->).
    eapply ids_insert_same; [done|apply apply_update_id].
  - by apply find_one_and_update_None in Heq as [-> _].
Qed.

Lemma update_many_ids q u docs : _id <$> (update_many q u docs).2 = _id <$> docs.
Proof.
  unfold update_many. simpl. rewrite <- list_fmap_compose. apply list_fmap_ext.
  intros i d _. simpl. destruct (matches q d); [apply apply_update_id|done].
Qed.

Lemma fresh_id_above (docs : list stored) (d : stored) : d ∈ docs -> _id d < fresh_id docs.
Proof.
  unfold fresh_id. induction docs as [|a docs IH]; [by intros ?%elem_of_nil|].
  intros [->|Hd]%elem_of_cons; simpl; [lia|]. specialize (IH Hd). lia.
Qed.

Lemma ids_grow_refl q : ids_grow q q.
Proof. split; [|done]. exists []. by rewrite app_nil_r. Qed.

Lemma ids_grow_trans q1 q2 q3 : ids_grow q1 q2 -> ids_grow q2 q3 -> ids_grow q1 q3.
Proof.
  intros [[n1 H1] U1] [[n2 H2] U2]. split; [|auto].
  exists (n1 ++ n2). by rewrite H2, H1, <- app_assoc.
Qed.

Lemma ids_grow_same q q' : _id <$> q' = _id <$> q -> ids_grow q q'.
Proof.
  intros Heq. split; [exists []; by rewrite app_nil_r|]. unfold unique_ids. by rewrite Heq.
Qed.

Lemma insert_many_ids reject idxs es docs : ids_grow docs (insert_many reject idxs es docs).2.
Proof.
  revert docs. induction es as [|e es IH]; intros docs; [apply ids_grow_refl|].
  cbn [insert_many]. destruct (reject e).
  - specialize (IH docs). by destruct (insert_many reject idxs es docs).
  - destruct (collides idxs e docs).
    + specialize (IH docs). by destruct (insert_many reject idxs es docs).
    + eapply ids_grow_trans; [|apply IH]. split.
      * exists [fresh_id docs]. by rewrite fmap_app.
      * unfold unique_ids. rewrite fmap_app. intros Hu. apply NoDup_app.
        split_and!; [done| |apply NoDup_singleton].
        intros x (d & Hx & Hd)%list_elem_of_fmap Hf%list_elem_of_singleton.
        pose proof (fresh_id_above docs d Hd). simpl in Hf. lia.
Qed.

Lemma dump_to_mongodb_ids reject idxs es docs :
  ids_grow docs (db_interface.dump_to_mongodb reject idxs es docs).2.
Proof.
  unfold db_interface.dump_to_mongodb. destruct es as [|e es]; [apply ids_grow_refl|].
  pose proof (insert_many_ids reject idxs (e :: es) docs) as H.
  by destruct (insert_many reject idxs (e :: es) docs).
Qed.

Lemma get_crawl_task_ids c t1 t2 t3 q :
  _id <$> (db_interface.get_crawl_task c t1 t2 t3 q).2 = _id <$> q.
Proof.
  unfold db_interface.get_crawl_task.
  pose proof (find_one_and_update_ids [("start_time", Is VNull)]
                (Set_ [("start_time", VNum t1)]) (Some "priority") q) as H1.
  destruct (find_one_and_update _ _ (Some "priority") q) as [[d|] q1]; simpl in *; [done|].
  by rewrite find_one_and_update_ids.
Qed.

Lemma get_app_undownloaded_ids c free t1 t2 t3 q :
  _id <$> (db_interface.get_app_undownloaded c free t1 t2 t3 q).2 = _id <$> q.
Proof.
  unfold db_interface.get_app_undownloaded.
  match goal with |- context [find_one_and_update ?f ?u None q] =>
    pose proof (find_one_and_update_ids f u None q) as H1;
    destruct (find_one_and_update f u None q) as [[d|] q1] end; simpl in *; [done|].
  by rewrite find_one_and_update_ids.
Qed.

Lemma set_crawl_task_completed_ids now i e q :
  _id <$> (db_interface.set_crawl_task_completed now i e q).2 = _id <$> q.
Proof.
  unfold db_interface.set_crawl_task_completed.
  match goal with |- context [find_one_and_update ?f ?u None q] =>
    pose proof (find_one_and_update_ids f u None q) as H1;
    destruct (find_one_and_update f u None q) as [? ?] end. done.
Qed.

Lemma reset_crawl_task_ids i q : _id <$> (db_interface.reset_crawl_task i q).2 = _id <$> q.
Proof.
  unfold db_interface.reset_crawl_task.
  match goal with |- context [find_one_and_update ?f ?u None q] =>
    pose proof (find_one_and_update_ids f u None q) as H1;
    destruct (find_one_and_update f u None q) as [? ?] end. done.
Qed.

Lemma set_app_downloaded_ids now i q :
  _id <$> (db_interface.set_app_downloaded now i q).2 = _id <$> q.
Proof.
  unfold db_interface.set_app_downloaded.
  match goal with |- context [find_one_and_update ?f ?u None q] =>
    pose proof (find_one_and_update_ids f u None q) as H1;
    destruct (find_one_and_update f u None q) as [? ?] end. done.
Qed.

Lemma reset_app_download_ids i q : _id <$> (db_interface.reset_app_download i q).2 = _id <$> q.
Proof.
  unfold db_interface.reset_app_download.
  match goal with |- context [find_one_and_update ?f ?u None q] =>
    pose proof (find_one_and_update_ids f u None q) as H1;
    destruct (find_one_and_update f u None q) as [? ?] end. done.
Qed.

Lemma set_similar_apps_ids p ps q :
  _id <$> (db_interface.set_similar_apps p ps q).2 = _id <$> q.
Proof. unfold db_interface.set_similar_apps. apply update_many_ids. Qed.

Lemma world_grows_refl w : world_grows w w.
Proof. split; apply ids_grow_refl. Qed.

Lemma world_grows_same w w' :
  playstore_col w' = playstore_col w -> crawlqueue_col w' = crawlqueue_col w ->
  world_grows w w'.
Proof. intros H1 H2. split; rewrite ?H1, ?H2; apply ids_grow_refl. Qed.

Lemma world_grows_trans w1 w2 w3 : world_grows w1 w2 -> world_grows w2 w3 -> world_grows w1 w3.
Proof. intros [? ?] [? ?]. split; by eapply ids_grow_trans. Qed.

Section Keeps.
Context (env : environment) (emulated_device : string).

Lemma keeps_ret {A} (a : A) : keeps_ids (ret a).
Proof. intros w. apply world_grows_refl. Qed.

Lemma keeps_raise {A} (e : exn) : keeps_ids (raise (A:=A) e).
Proof. intros w. apply world_grows_refl. Qed.

Lemma keeps_lift {A} (o : outcome A) : keeps_ids (lift o).
Proof. intros w. apply world_grows_refl. Qed.

Lemma keeps_bind {A B} (m : M A) (f : A -> M B) :
  keeps_ids m -> (forall a, keeps_ids (f a)) -> keeps_ids (bind m f).
Proof.
  intros Hm Hf w. unfold bind. specialize (Hm w). destruct (m w) as [[a|e] w']; [|done].
  eapply world_grows_trans; [done|apply Hf].
Qed.

Lemma keeps_logging l msg : keeps_ids (logging l msg).
Proof. intros w. by apply world_grows_same. Qed.

Lemma keeps_log_all ls : keeps_ids (log_all ls).
Proof. intros w. by apply world_grows_same. Qed.

Lemma keeps_put_file p d : keeps_ids (put_file p d).
Proof. intros w. by apply world_grows_same. Qed.

Lemma keeps_interact : keeps_ids (main.interact env).
Proof. intros w. unfold main.interact. case_decide; by apply world_grows_same. Qed.

Lemma keeps_on_playstore {A} (f : list stored -> A * list stored) :
  (forall q, ids_grow q (f q).2) -> keeps_ids (on_playstore f).
Proof. intros Hf w. split; [apply Hf|apply ids_grow_refl]. Qed.

Lemma keeps_on_crawlqueue {A} (f : list stored -> A * list stored) :
  (forall q, ids_grow q (f q).2) -> keeps_ids (on_crawlqueue f).
Proof. intros Hf w. split; [apply ids_grow_refl|apply Hf]. Qed.

Lemma keeps_store_call {A} (on : (list stored -> A * list stored) -> M A)
    (f : nat -> list stored -> A * list stored) :
  (forall n, keeps_ids (on (f n))) -> keeps_ids (main.store_call env on f).
Proof.
  intros Hon w. unfold main.store_call.
  assert (world_grows w (bump w)) as Hb by by apply world_grows_same.
  assert (world_grows w (on (f (tick w)) (bump w)).2) as Hw
    by (eapply world_grows_trans; [exact Hb|apply Hon]).
  case_decide; [|done]. by destruct (sigint_during env).
Qed.

Lemma keeps_playstore_call f :
  (forall n q, ids_grow q (f n q).2) -> keeps_ids (main.playstore_call env f).
Proof.
  intros Hf. apply keeps_bind.
  - apply keeps_store_call. intros n. by apply keeps_on_playstore.
  - intros ls. apply keeps_log_all.
Qed.

Lemma keeps_crawlqueue_call f :
  (forall n q, ids_grow q (f n q).2) -> keeps_ids (main.crawlqueue_call env f).
Proof.
  intros Hf. apply keeps_bind.
  - apply keeps_store_call. intros n. by apply keeps_on_crawlqueue.
  - intros ls. apply keeps_log_all.
Qed.

Lemma keeps_db_dump es : keeps_ids (main.db_dump env es).
Proof. apply keeps_playstore_call. intros _ q. apply dump_to_mongodb_ids. Qed.

Lemma keeps_db_enqueue es : keeps_ids (main.db_enqueue_crawl_tasks env es).
Proof. apply keeps_crawlqueue_call. intros _ q. apply dump_to_mongodb_ids. Qed.

Lemma keeps_db_set_similar p ps : keeps_ids (main.db_set_similar_apps env p ps).
Proof.
  apply keeps_playstore_call. intros _ q. apply ids_grow_same, set_similar_apps_ids.
Qed.

Lemma keeps_db_completed i e : keeps_ids (main.db_set_crawl_task_completed env i e).
Proof.
  apply keeps_crawlqueue_call. intros n q. apply ids_grow_same, set_crawl_task_completed_ids.
Qed.

Lemma keeps_db_downloaded i : keeps_ids (main.db_set_app_downloaded env i).
Proof.
  apply keeps_playstore_call. intros n q. apply ids_grow_same, set_app_downloaded_ids.
Qed.

Lemma keeps_dump_data entries : keeps_ids (main.dump_data env emulated_device entries).
Proof.
  unfold main.dump_data. destruct (main.dump_data_drafts _ _).
  apply keeps_bind; [apply keeps_db_dump|]. intros _. apply keeps_db_enqueue.
Qed.

Lemma keeps_dump_data_details d : keeps_ids (main.dump_data_details env emulated_device d).
Proof.
  apply keeps_bind; [apply keeps_lift|]. intros drafts.
  apply keeps_bind; [apply keeps_db_dump|]. intros _. apply keeps_db_enqueue.
Qed.

Lemma keeps_crawl_similar p : keeps_ids (main.crawl_similar env emulated_device p).
Proof.
  repeat (apply keeps_bind; [first [apply keeps_interact|apply keeps_lift
                                   |apply keeps_db_set_similar]|intros ?]).
  apply keeps_dump_data.
Qed.

Lemma keeps_crawl_creator p : keeps_ids (main.crawl_creator env emulated_device p).
Proof.
  repeat (apply keeps_bind; [first [apply keeps_interact|apply keeps_lift]|intros ?]).
  apply keeps_dump_data.
Qed.

Lemma keeps_children_of pages k : keeps_ids (main.children_of env pages k).
Proof.
  unfold main.children_of. destruct (pages !! k) as [[|a s]|]; try apply keeps_ret.
  repeat (apply keeps_bind; [first [apply keeps_interact|apply keeps_lift]|intros ?]).
  apply keeps_ret.
Qed.

Lemma keeps_crawl_details p : keeps_ids (main.crawl_details env emulated_device p).
Proof.
  apply keeps_bind; [apply keeps_interact|]. intros n.
  apply keeps_bind; [apply keeps_lift|]. intros [docV2 pages].
  repeat (apply keeps_bind; [apply keeps_children_of|intros ?]).
  apply keeps_dump_data_details.
Qed.

Lemma keeps_execute t d : keeps_ids (main.execute_crawl_task env emulated_device t d).
Proof.
  intros w. unfold main.execute_crawl_task, bind, lift, main.switcher_get.
  destruct t as [[| |s|]|]; simpl; repeat case_decide;
    first [apply keeps_crawl_similar|apply keeps_crawl_creator
          |apply keeps_crawl_details|by apply world_grows_same].
Qed.

Lemma keeps_crawl_claimed task : keeps_ids (main.crawl_claimed env emulated_device task).
Proof.
  unfold main.crawl_claimed. apply keeps_bind; [apply keeps_logging|]. intros _.
  apply keeps_bind.
  - intros w. pose proof (keeps_execute (field task "task") (field task "data") w) as H.
    by destruct (main.execute_crawl_task _ _ _ _ w) as [[?|[]] ?].
  - intros error. apply keeps_bind; [apply keeps_db_completed|]. intros _. apply keeps_ret.
Qed.

Lemma keeps_download_apk p v path : keeps_ids (main.download_apk env p v path).
Proof.
  intros w. unfold main.download_apk.
  match goal with |- context [?m w] =>
    assert (keeps_ids m) as Hm; [|specialize (Hm w); by destruct (m w) as [[?|[]] ?]] end.
  apply keeps_bind; [apply keeps_interact|]. intros n.
  apply keeps_bind; [apply keeps_lift|]. intros [[|a s]|]; try apply keeps_ret.
  apply keeps_bind; [apply keeps_interact|]. intros n'.
  destruct (write_file env n' path); [apply keeps_raise|apply keeps_put_file].
Qed.

Lemma keeps_download_until_written fuel d v name path :
  keeps_ids (main.download_until_written env fuel d v name path).
Proof.
  induction fuel as [|fuel IH]; [apply keeps_raise|].
  cbn [main.download_until_written]. apply keeps_bind; [apply keeps_logging|]. intros _ w.
  pose proof (keeps_download_apk d v path w) as H.
  destruct (main.download_apk env d v path w) as [[?|[]] w']; try done.
  eapply world_grows_trans; [done|].
  apply (keeps_bind (logging ERROR _) (fun _ => main.download_until_written _ _ _ _ _ _));
    [apply keeps_logging|done].
Qed.
End Keeps.

(** ** The driver loops *)

Lemma unset_stored_without (f1 f2 : string) (q : list stored) (i : nat) (d : stored) :
  f1 ≠ "_id" -> f2 ≠ "_id" -> unique_ids q -> q !! i = Some d ->
  stored_without f1 f2 (_id d)
    (find_one_and_update [("_id", Is (VNum (_id d)))] (Unset [f1; f2]) None q).2.
Proof.
  intros H1 H2 Hu Hi. rewrite (find_by_id_found _ _ _ _ Hu Hi). simpl.
  assert (i < length q)%nat as Hlen by by eapply lookup_lt_Some.
  split.
  - eexists. split; [eapply list_elem_of_lookup_2; by apply list_lookup_insert_eq|done].
  - intros d' Hd' Hid. apply list_elem_of_lookup in Hd' as [j Hj].
    destruct (decide (j = i)) as [->|Hne].
    + rewrite list_lookup_insert_eq in Hj by done. injection Hj as <-.
      unfold field. rewrite !decide_False by done. simpl. split.
      * destruct (decide (f1 = f2)) as [->|?]; [apply lookup_delete_eq|].
        rewrite lookup_delete_ne by done. apply lookup_delete_eq.
      * apply lookup_delete_eq.
    + rewrite list_lookup_insert_ne in Hj by done.
      by destruct (Hne (unique_ids_lookup _ _ _ _ _ Hu Hi Hj Hid)).
Qed.

(** A document stored at a position is still stored, under the same id,
    after the collection has grown. *)
Lemma ids_grow_lookup (q q' : list stored) (i : nat) (d : stored) :
  ids_grow q q' -> q !! i = Some d -> exists d', q' !! i = Some d' /\ _id d' = _id d.
Proof.
  intros [[new Hids] _] Hi.
  assert ((_id <$> q') !! i = Some (_id d)) as H.
  { rewrite Hids. apply lookup_app_l_Some. by rewrite list_lookup_fmap, Hi. }
  rewrite list_lookup_fmap in H. destruct (q' !! i) as [d'|]; [|done].
  exists d'. split; [done|]. by injection H.
Qed.

Section Drivers.
Context (env : environment) (c : conf) (emulated_device : string).
Context (isalnum isspace : N -> bool).

Lemma db_get_crawl_task_Raise (w w1 : world) (e : exn) :
  main.db_get_crawl_task env c w = (Raise e, w1) ->
  e = KeyboardInterrupt /\
  w1 = if sigint_during env
       then set_crawlqueue
              (db_interface.get_crawl_task c (clock env (tick w) 0) (clock env (tick w) 1)
                 (clock env (tick w) 2) (crawlqueue_col w)).2 (bump w)
       else bump w.
Proof.
  unfold main.db_get_crawl_task, main.store_call. case_decide; [|done].
  by intros [= <- <-].
Qed.

Lemma db_get_crawl_task_Ok (w w1 : world) (r : option stored) :
  main.db_get_crawl_task env c w = (Ok r, w1) ->
  sigint_at env ≠ Some (tick w) /\
  (r, crawlqueue_col w1)
  = db_interface.get_crawl_task c (clock env (tick w) 0) (clock env (tick w) 1)
      (clock env (tick w) 2) (crawlqueue_col w) /\
  playstore_col w1 = playstore_col w /\ tick w1 = S (tick w) /\
  log w1 = log w /\ files w1 = files w.
Proof.
  unfold main.db_get_crawl_task, main.store_call. case_decide; [done|].
  unfold on_crawlqueue. intros [= <- <-]. simpl. split_and!; try done.
  by destruct (db_interface.get_crawl_task _ _ _ _ _).
Qed.

Lemma db_get_app_undownloaded_Raise (w w1 : world) (e : exn) :
  main.db_get_app_undownloaded env c w = (Raise e, w1) ->
  e = KeyboardInterrupt /\ sigint_at env = Some (tick w) /\
  w1 = if sigint_during env
       then set_playstore
              (db_interface.get_app_undownloaded c true (clock env (tick w) 0)
                 (clock env (tick w) 1) (clock env (tick w) 2) (playstore_col w)).2 (bump w)
       else bump w.
Proof.
  unfold main.db_get_app_undownloaded, main.store_call. case_decide; [|done].
  by intros [= <- <-].
Qed.

Lemma db_get_app_undownloaded_Ok (w w1 : world) (r : option stored) :
  main.db_get_app_undownloaded env c w = (Ok r, w1) ->
  sigint_at env ≠ Some (tick w) /\
  (r, playstore_col w1)
  = db_interface.get_app_undownloaded c true (clock env (tick w) 0) (clock env (tick w) 1)
      (clock env (tick w) 2) (playstore_col w) /\
  crawlqueue_col w1 = crawlqueue_col w /\ tick w1 = S (tick w) /\
  log w1 = log w /\ files w1 = files w.
Proof.
  unfold main.db_get_app_undownloaded, main.store_call. case_decide; [done|].
  unfold on_playstore. intros [= <- <-]. simpl. split_and!; try done.
  by destruct (db_interface.get_app_undownloaded _ _ _ _ _ _).
Qed.

Lemma interact_Raise (w w1 : world) (e : exn) :
  main.interact env w = (Raise e, w1) ->
  e = KeyboardInterrupt /\ sigint_at env = Some (tick w) /\ w1 = bump w.
Proof. unfold main.interact. case_decide; [|done]. by intros [= <- <-]. Qed.

Lemma interact_Ok (w w1 : world) (n : nat) :
  main.interact env w = (Ok n, w1) ->
  sigint_at env ≠ Some (tick w) /\ n = tick w /\ w1 = bump w.
Proof. unfold main.interact. case_decide; [done|]. by intros [= <- <-]. Qed.

(** The handler of [crawl_playstore], when no further signal arrives. *)
Lemma crawl_interrupted_runs (task : option stored) (w : world) :
  sigint_at env ≠ Some (tick w) ->
  exists w',
    main.crawl_interrupted env task w = (Ok main.Break, w') /\
    playstore_col w' = playstore_col w /\
    crawlqueue_col w'
    = match task with
      | Some t => (db_interface.reset_crawl_task (_id t) (crawlqueue_col w)).2
      | None => crawlqueue_col w
      end.
Proof.
  intros Hsig. unfold main.crawl_interrupted, bind, logging.
  destruct task as [t|]; [|by eexists].
  unfold main.db_reset_crawl_task. rewrite crawlqueue_call_ok by done.
  by eexists.
Qed.

(** The handler of [create_apks_pool], when no further signal arrives. *)
Lemma pool_interrupted_runs (next_apk : option stored) (w : world) :
  sigint_at env ≠ Some (tick w) ->
  exists w',
    main.pool_interrupted env next_apk w = (Ok main.Break, w') /\
    crawlqueue_col w' = crawlqueue_col w /\
    playstore_col w'
    = match next_apk with
      | Some a => (db_interface.reset_app_download (_id a) (playstore_col w)).2
      | None => playstore_col w
      end.
Proof.
  intros Hsig. unfold main.pool_interrupted, bind, logging.
  destruct next_apk as [a|]; [|by eexists].
  unfold main.db_reset_app_download. rewrite playstore_call_ok by done.
  by eexists.
Qed.

Lemma keeps_pool_claimed fuel dir a :
  keeps_ids (main.pool_claimed env isalnum isspace fuel dir a).
Proof.
  unfold main.pool_claimed.
  apply keeps_bind; [apply keeps_lift|]. intros version_code.
  apply keeps_bind; [apply keeps_download_until_written|]. intros _.
  apply keeps_bind; [apply keeps_db_downloaded|]. intros _. apply keeps_ret.
Qed.

(** C6, amended: when the [try] block of a driver loop is left by
    [KeyboardInterrupt] (and no second signal arrives while the handler
    runs), the loop ends.  The task, or record, bound to the loop's
    variable at that moment is stored afterwards with neither lease nor
    completion, that is, pending.  With nothing bound nothing is reset:
    the collections are as they were when the signal came before a
    request, and as the claim left them, the lease it set included, when
    the signal came while the answer to the claim was awaited. *)
Theorem interrupt_resets_lease (fuel : nat) (output_dir : string) (dir_size : Z)
    (w w2 : world) :
  sigint_at env ≠ Some (tick w2) ->
  (forall task,
     unique_ids (crawlqueue_col w) ->
     main.crawl_try env c emulated_device w = (task, (Raise KeyboardInterrupt, w2)) ->
     exists w3,
       main.crawl_step env c emulated_device w = (Ok main.Break, w3) /\
       playstore_col w3 = playstore_col w2 /\
       match task with
       | Some t => stored_without "start_time" "end_time" (_id t) (crawlqueue_col w3)
       | None =>
           playstore_col w3 = playstore_col w /\
           crawlqueue_col w3
           = if sigint_during env
             then (db_interface.get_crawl_task c (clock env (tick w) 0)
                     (clock env (tick w) 1) (clock env (tick w) 2) (crawlqueue_col w)).2
             else crawlqueue_col w
       end)
  /\
  (forall next_apk,
     unique_ids (playstore_col w) ->
     main.pool_try env c isalnum isspace fuel output_dir dir_size w
     = (next_apk, (Raise KeyboardInterrupt, w2)) ->
     exists w3,
       main.pool_step env c isalnum isspace fuel output_dir dir_size w
       = (Ok main.Break, w3) /\
       crawlqueue_col w3 = crawlqueue_col w2 /\
       match next_apk with
       | Some a =>
           stored_without "download_start_time" "download_end_time" (_id a)
             (playstore_col w3)
       | None =>
           crawlqueue_col w3 = crawlqueue_col w /\
           playstore_col w3
           = if sigint_during env && bool_decide (sigint_at env = Some (S (tick w)))
                && bool_decide (folder_size env (tick w) < dir_size * 1000 * 1000)
             then (db_interface.get_app_undownloaded c true (clock env (S (tick w)) 0)
                     (clock env (S (tick w)) 1) (clock env (S (tick w)) 2)
                     (playstore_col w)).2
             else playstore_col w
       end).
Proof.
  intros Hsig. split.
  - intros task Hu Htry. unfold main.crawl_step. rewrite Htry.
    destruct (crawl_interrupted_runs task w2 Hsig) as (w3 & -> & Hp & Hq).
    exists w3. split_and!; [done..|].
    unfold main.crawl_try in Htry.
    destruct (main.db_get_crawl_task env c w) as [[[t|]|e] w1] eqn:Hclaim.
    + injection Htry as <- Hcl.
      apply db_get_crawl_task_Ok in Hclaim as (_ & Hget & _).
      pose proof (get_crawl_task_ids c (clock env (tick w) 0) (clock env (tick w) 1)
                    (clock env (tick w) 2) (crawlqueue_col w)) as Hids.
      symmetry in Hget. pose proof Hget as Hpos.
      apply get_crawl_task_position in Hpos as (i & _ & Hi & _ & _).
      rewrite Hget in Hids. simpl in Hids.
      pose proof (keeps_crawl_claimed env emulated_device t w1) as [_ Hgrow].
      rewrite Hcl in Hgrow. simpl in Hgrow.
      assert (ids_grow (crawlqueue_col w) (crawlqueue_col w2)) as Hg.
      { eapply ids_grow_trans; [by apply ids_grow_same|done]. }
      destruct (ids_grow_lookup _ _ _ _ Hg Hi) as (d2 & Hi2 & Hid2).
      rewrite Hq. unfold db_interface.reset_crawl_task. rewrite <- Hid2.
      pose proof (unset_stored_without "start_time" "end_time" (crawlqueue_col w2) i d2
                    ltac:(done) ltac:(done) (proj2 Hg Hu) Hi2) as Hs.
      by destruct (find_one_and_update _ _ None (crawlqueue_col w2)).
    + by injection Htry.
    + injection Htry as <- -> <-.
      apply db_get_crawl_task_Raise in Hclaim as [_ ->]. rewrite Hq, Hp.
      by destruct (sigint_during env).
  - intros next_apk Hu Htry. unfold main.pool_step. rewrite Htry.
    destruct (pool_interrupted_runs next_apk w2 Hsig) as (w3 & -> & Hq & Hp).
    exists w3. split_and!; [done..|].
    unfold main.pool_try in Htry.
    destruct (main.interact env w) as [[n|e] w0] eqn:Hint.
    + apply interact_Ok in Hint as (_ & -> & ->). case_decide.
      * destruct (main.db_get_app_undownloaded env c (bump w)) as [[[a|]|e] w1] eqn:Hclaim.
        -- injection Htry as <- Hcl.
           apply db_get_app_undownloaded_Ok in Hclaim as (_ & Hget & _).
           pose proof (get_app_undownloaded_ids c true (clock env (S (tick w)) 0)
                         (clock env (S (tick w)) 1) (clock env (S (tick w)) 2)
                         (playstore_col w)) as Hids.
           symmetry in Hget. simpl in Hget. rewrite Hget in Hids. simpl in Hids.
           assert (a ∈ playstore_col w) as [i Hi]%list_elem_of_lookup.
           { unfold db_interface.get_app_undownloaded in Hget.
             match type of Hget with context [find_one_and_update ?f ?u None (playstore_col w)] =>
               destruct (find_one_and_update f u None (playstore_col w))
                 as [[a1|] q1] eqn:H1 end.
             - injection Hget as -> _.
               apply find_one_and_update_Some in H1 as (i & Hi & _).
               by eapply list_elem_of_lookup_2.
             - apply find_one_and_update_None in H1 as [-> _].
               apply find_one_and_update_Some in Hget as (i & Hi & _).
               by eapply list_elem_of_lookup_2. }
           pose proof (keeps_pool_claimed fuel output_dir a w1) as [Hgrow _].
           rewrite Hcl in Hgrow. simpl in Hgrow.
           assert (ids_grow (playstore_col w) (playstore_col w2)) as Hg.
           { eapply ids_grow_trans; [by apply ids_grow_same|done]. }
           destruct (ids_grow_lookup _ _ _ _ Hg Hi) as (d2 & Hi2 & Hid2).
           rewrite Hp. unfold db_interface.reset_app_download. rewrite <- Hid2.
           pose proof (unset_stored_without "download_start_time" "download_end_time"
                         (playstore_col w2) i d2 ltac:(done) ltac:(done)
                         (proj2 Hg Hu) Hi2) as Hs.
           by destruct (find_one_and_update _ _ None (playstore_col w2)).
        -- by injection Htry.
        -- injection Htry as <- -> <-.
           apply db_get_app_undownloaded_Raise in Hclaim as (_ & Hat & ->).
           rewrite Hq, Hp. change (tick (bump w)) with (S (tick w)) in *.
           rewrite (bool_decide_eq_true_2 _ Hat), (bool_decide_eq_true_2 _ H).
           rewrite !andb_true_r. by destruct (sigint_during env).
      * unfold bind in Htry.
        destruct (main.interact env (bump w)) as [[n|e] w1] eqn:Hint; [by injection Htry|].
        injection Htry as <- -> <-. apply interact_Raise in Hint as (_ & _ & ->).
        rewrite Hq, Hp. rewrite (bool_decide_eq_false_2 (folder_size _ _ < _)) by done.
        by rewrite andb_false_r.
    + injection Htry as <- -> <-. apply interact_Raise in Hint as (_ & Hat & ->).
      rewrite Hq, Hp.
      rewrite (bool_decide_eq_false_2 (sigint_at env = Some (S (tick w))))
        by (rewrite Hat; intros [= ?]; lia).
      by rewrite andb_false_r.
Qed.
End Drivers.

Section Steps.
Context (env : environment) (c : conf) (emulated_device : string).
Context (isalnum isspace : N -> bool).

Lemma db_get_crawl_task_run (w : world) :
  sigint_at env ≠ Some (tick w) ->
  main.db_get_crawl_task env c w
  = (Ok (db_interface.get_crawl_task c (clock env (tick w) 0) (clock env (tick w) 1)
           (clock env (tick w) 2) (crawlqueue_col w)).1,
     set_crawlqueue
       (db_interface.get_crawl_task c (clock env (tick w) 0) (clock env (tick w) 1)
          (clock env (tick w) 2) (crawlqueue_col w)).2 (bump w)).
Proof. intros H. unfold main.db_get_crawl_task. by rewrite store_call_ok. Qed.

Lemma db_get_app_undownloaded_run (w : world) :
  sigint_at env ≠ Some (tick w) ->
  main.db_get_app_undownloaded env c w
  = (Ok (db_interface.get_app_undownloaded c true (clock env (tick w) 0)
           (clock env (tick w) 1) (clock env (tick w) 2) (playstore_col w)).1,
     set_playstore
       (db_interface.get_app_undownloaded c true (clock env (tick w) 0)
          (clock env (tick w) 1) (clock env (tick w) 2) (playstore_col w)).2 (bump w)).
Proof. intros H. unfold main.db_get_app_undownloaded. by rewrite store_call_ok. Qed.


Lemma get_app_undownloaded_position (free : bool) (t1 t2 t3 : Z)
    (q q' : list stored) (d : stored) :
  db_interface.get_app_undownloaded c free t1 t2 t3 q = (Some d, q') ->
  exists i t, q !! i = Some d /\ q' = <[i := download_leased t d]> q.
Proof.
  unfold db_interface.get_app_undownloaded.
  match goal with |- context [find_one_and_update ?f ?u None q] =>
    destruct (find_one_and_update f u None q) as [[a1|] q1] eqn:H1 end.
  - intros [= -> <-]. apply find_one_and_update_Some in H1 as (i & Hi & _ & ->).
    by exists i, t1.
  - apply find_one_and_update_None in H1 as [-> _].
    intros (i & Hi & _ & ->)%find_one_and_update_Some. by exists i, t3.
Qed.
End Steps.

Lemma matches_undownloaded (free : bool) (q : query) (d : stored) :
  matches (db_interface.undownloaded_filter free q) d = true -> matches q d = true.
Proof.
  unfold db_interface.undownloaded_filter, matches. destruct free; [|done].
  rewrite forallb_app. by intros [? _]%andb_true_iff.
Qed.

(** What [get_app_undownloaded] returns has no download lease, or no
    download completion. *)
Lemma get_app_undownloaded_phases (c : conf) (free : bool) (t1 t2 t3 : Z)
    (q q' : list stored) (d : stored) :
  db_interface.get_app_undownloaded c free t1 t2 t3 q = (Some d, q') ->
  is_null (field d "download_start_time") = true \/
  is_null (field d "download_end_time") = true.
Proof.
  unfold db_interface.get_app_undownloaded.
  match goal with |- context [find_one_and_update ?f ?u None q] =>
    destruct (find_one_and_update f u None q) as [[a1|] q1] eqn:H1 end.
  - intros [= -> <-]. apply find_one_and_update_Some in H1 as (i & _ & Hm & _).
    apply matches_undownloaded in Hm. left. unfold matches in Hm. simpl in Hm.
    by rewrite andb_true_r in Hm.
  - intros (i & _ & Hm & _)%find_one_and_update_Some.
    apply matches_undownloaded in Hm. right. unfold matches in Hm. simpl in Hm.
    rewrite andb_true_r in Hm. by apply andb_true_iff in Hm as [_ ?].
Qed.

Section Retire.
Context (env : environment) (c : conf) (emulated_device : string).
Context (isalnum isspace : N -> bool).


Lemma download_apk_no_payload (p v : option value) (path : string) (w : world) :
  sigint_at env ≠ Some (tick w) ->
  no_payload (download env (tick w) p v) = true ->
  main.download_apk env p v path w = (Ok tt, bump w).
Proof.
  intros Hsig Hnone. unfold main.download_apk, bind. rewrite interact_ok by done.
  unfold lift. by destruct (download env (tick w) p v) as [[[|a s]|]|e].
Qed.

Lemma download_until_written_no_payload (fuel : nat) (d v : option value)
    (name path : string) (w : world) :
  sigint_at env ≠ Some (tick w) ->
  no_payload (download env (tick w) d v) = true ->
  main.download_until_written env (S fuel) d v name path w
  = (Ok tt, bump (add_log [(INFO, "Downloading " +:+ py_str d +:+ ", Version "
                                  +:+ py_str v)] w)).
Proof.
  intros Hsig Hnone. cbn [main.download_until_written]. unfold bind, logging.
  by rewrite download_apk_no_payload.
Qed.

Lemma set_app_downloaded_found (now : Z) (q : list stored) (i : nat) (d : stored) :
  unique_ids q -> q !! i = Some d ->
  db_interface.set_app_downloaded now (_id d) q = ([], <[i := downloaded now d]> q).
Proof.
  intros Hu Hi. unfold db_interface.set_app_downloaded.
  by rewrite (find_by_id_found _ _ _ _ Hu Hi).
Qed.

(** C4, amended: when the fetch for a claimed record (a record that has
    its [details.appDetails], where the version code is read) returns no
    payload, no file is put in place and no error is logged or recorded, and the
    record is marked downloaded all the same: [download_end_time] is set,
    and no later claim returns the record. *)
Theorem no_payload_marks_downloaded (fuel : nat) (output_dir : string) (dir_size : Z)
    (w : world) (next_apk : stored) (p1 : list stored) (version_code : option value) :
  sigint_at env = None ->
  unique_ids (playstore_col w) ->
  folder_size env (tick w) < dir_size * 1000 * 1000 ->
  db_interface.get_app_undownloaded c true (clock env (S (tick w)) 0)
    (clock env (S (tick w)) 1) (clock env (S (tick w)) 2) (playstore_col w)
  = (Some next_apk, p1) ->
  main.version_code_of next_apk = Ok version_code ->
  no_payload (download env (S (S (tick w))) (field next_apk "docid") version_code)
  = true ->
  exists w2 i t,
    let d' := downloaded (clock env (S (S (S (tick w)))) 0) (download_leased t next_apk) in
    main.pool_step env c isalnum isspace (S fuel) output_dir dir_size w
    = (Ok main.Continue, w2) /\
    files w2 = files w /\
    crawlqueue_col w2 = crawlqueue_col w /\
    log w2 = log w ++ [(INFO, "Downloading " +:+ py_str (field next_apk "docid")
                              +:+ ", Version "
                              +:+ py_str version_code)] /\
    playstore_col w !! i = Some next_apk /\
    playstore_col w2 = <[i := d']> (playstore_col w) /\
    field d' "download_end_time" = Some (VNum (clock env (S (S (S (tick w)))) 0)) /\
    field d' "error" = field next_apk "error" /\
    (forall c' free t1 t2 t3,
       fst (db_interface.get_app_undownloaded c' free t1 t2 t3 (playstore_col w2)) ≠ Some d').
Proof.
  intros Hsig Hu Hsize Hget Hvc Hnone.
  assert (forall w', sigint_at env ≠ Some (tick w')) as Hno by (intros w'; by rewrite Hsig).
  pose proof Hget as Hpos.
  apply get_app_undownloaded_position in Hpos as (i & t & Hi & ->).
  assert (i < length (playstore_col w))%nat as Hlen by by eapply lookup_lt_Some.
  exists (add_log []
            (set_playstore
               (<[i := downloaded (clock env (S (S (S (tick w)))) 0)
                         (download_leased t next_apk)]> (playstore_col w))
               (bump (bump
                 (add_log [(INFO, "Downloading " +:+ py_str (field next_apk "docid")
                                  +:+ ", Version "
                                  +:+ py_str version_code)]
                   (set_playstore (<[i := download_leased t next_apk]> (playstore_col w))
                      (bump (bump w)))))))),
    i, t.
  cbv zeta. split_and!; try done.
  - unfold main.pool_step, main.pool_try. rewrite interact_ok by done.
    rewrite decide_True by done.
    rewrite db_get_app_undownloaded_run by done.
    change (tick (bump w)) with (S (tick w)).
    change (playstore_col (bump w)) with (playstore_col w). rewrite Hget. cbn [fst snd].
    unfold main.pool_claimed, bind, lift. rewrite Hvc.
    rewrite download_until_written_no_payload by done.
    unfold main.db_set_app_downloaded. rewrite playstore_call_ok by done.
    change (_id next_apk) with (_id (download_leased t next_apk)).
    cbn [tick playstore_col add_log set_playstore bump].
    rewrite (set_app_downloaded_found _ (<[i := download_leased t next_apk]> (playstore_col w))
               i (download_leased t next_apk)).
    + cbn [fst snd ret]. by rewrite list_insert_insert_eq.
    + unfold unique_ids. by erewrite ids_insert_same.
    + by apply list_lookup_insert_eq.
  - simpl. by rewrite app_nil_r, <- ?app_assoc.
  - unfold field. simpl. by rewrite lookup_insert_eq.
  - unfold field. simpl. by rewrite !lookup_insert_ne.
  - intros c' free t1 t2 t3 Hret.
    destruct (db_interface.get_app_undownloaded c' free t1 t2 t3 _) as [[d|] q'] eqn:Hg;
      [|done].
    simpl in Hret. injection Hret as ->.
    apply get_app_undownloaded_phases in Hg. unfold field in Hg. simpl in Hg.
    rewrite lookup_insert_ne, !lookup_insert_eq in Hg by done. by destruct Hg.
Qed.
End Retire.


(** C4, as stated, fails: the fetch for the claimed record returns no
    payload, and the record comes out of the turn marked downloaded. *)
Lemma pool_marks_record_without_payload :
  download sample_env 2 (field sample_record "docid")
    (field sample_record "details.appDetails.versionCode") = Ok None /\
  exists w',
    main.pool_step sample_env sample_conf file_tools.ascii_isalnum file_tools.ascii_isspace
      1 "out" 100 (sample_world [sample_record] []) = (Ok main.Continue, w') /\
    playstore_col w' = [downloaded 103 (download_leased 101 sample_record)] /\
    field (downloaded 103 (download_leased 101 sample_record)) "download_end_time"
    = Some (VNum 103) /\
    files w' = [].
Proof. split; [reflexivity|]. eexists. split; [vm_compute; reflexivity|]. by vm_compute. Qed.

(** C4, amended, on the collection that holds the one free record. *)
Lemma no_payload_marks_downloaded_witness :
  exists w2 i t,
    let d' := downloaded (clock sample_env 3 0) (download_leased t sample_record) in
    main.pool_step sample_env sample_conf file_tools.ascii_isalnum file_tools.ascii_isspace
      1 "out" 100 (sample_world [sample_record] []) = (Ok main.Continue, w2) /\
    files w2 = [] /\
    crawlqueue_col w2 = [] /\
    log w2 = [] ++ [(INFO, "Downloading " +:+ py_str (field sample_record "docid")
                           +:+ ", Version "
                           +:+ py_str (field sample_record "details.appDetails.versionCode"))] /\
    [sample_record] !! i = Some sample_record /\
    playstore_col w2 = <[i := d']> [sample_record] /\
    field d' "download_end_time" = Some (VNum (clock sample_env 3 0)) /\
    field d' "error" = field sample_record "error" /\
    (forall c' free t1 t2 t3,
       fst (db_interface.get_app_undownloaded c' free t1 t2 t3 (playstore_col w2)) ≠ Some d').
Proof.
  apply (no_payload_marks_downloaded sample_env sample_conf file_tools.ascii_isalnum
           file_tools.ascii_isspace 0 "out" 100 (sample_world [sample_record] [])
           sample_record [download_leased 101 sample_record] (Some (VNum 7))).
  - reflexivity.
  - unfold unique_ids. apply (bool_decide_unpack _). vm_compute. exact I.
  - simpl. lia.
  - vm_compute. reflexivity.
  - vm_compute. reflexivity.
  - reflexivity.
Defined.

(** C9 on the queue of priorities 1, 5, 3. *)
Lemma increase_priority_frame_witness :
  exists w',
    main.change_priority sample_env ["com.c"] (sample_world [] queue_1_5_3) = (Ok tt, w') /\
    playstore_col w' = [] /\
    length (crawlqueue_col w') = 3%nat /\
    forall i d, queue_1_5_3 !! i = Some d ->
      exists d', crawlqueue_col w' !! i = Some d' /\
        (forall s, kind d = Some (VStr (CrawlTask_value DETAILS)) ->
                   key d = Some (VStr s) -> s ∈ ["com.c"] ->
                   d' = with_priority 10 d /\ priority d' = Some 10) /\
        (forall s, kind d = Some (VStr s) -> s ≠ CrawlTask_value DETAILS -> d' = d) /\
        (forall s, key d = Some (VStr s) -> s ∉ ["com.c"] -> d' = d).
Proof.
  apply (increase_priority_frame sample_env ["com.c"] (sample_world [] queue_1_5_3)).
  simpl. discriminate.
Defined.

(** C6 on the queue of priorities 1, 5, 3, the signal arriving at the
    second interaction, while the claimed task is carried out. *)
Lemma interrupt_resets_lease_witness :
  exists w3,
    main.crawl_step (interrupted_env 1) sample_conf "device" (sample_world [] queue_1_5_3)
    = (Ok main.Break, w3) /\
    playstore_col w3 = [] /\
    stored_without "start_time" "end_time" 2 (crawlqueue_col w3).
Proof.
  apply (proj1 (interrupt_resets_lease (interrupted_env 1) sample_conf "device"
                  file_tools.ascii_isalnum file_tools.ascii_isspace 1 "out" 100
                  (sample_world [] queue_1_5_3)
                  (main.crawl_try (interrupted_env 1) sample_conf "device"
                     (sample_world [] queue_1_5_3)).2.2
                  ltac:(vm_compute; discriminate))
           (Some (pending_task 2 "com.b" 5))).
  - unfold unique_ids. apply (bool_decide_unpack _). vm_compute. exact I.
  - vm_compute. reflexivity.
Defined.

(** C6, as stated, fails: the signal arrives while the answer to the claim
    is awaited.  The store has leased the task of priority 5; the loop,
    with nothing bound to its variable, ends and resets nothing; the task
    is left leased, and is not claimable until the lease has expired. *)
Lemma interrupt_strands_lease :
  exists w3,
    main.crawl_step (interrupted_during_env 0) sample_conf "device"
      (sample_world [] queue_1_5_3) = (Ok main.Break, w3) /\
    crawlqueue_col w3
    = [pending_task 1 "com.a" 1; lease 100 (pending_task 2 "com.b" 5);
       pending_task 3 "com.c" 3] /\
    leased_at (lease 100 (pending_task 2 "com.b" 5)) = Some (VNum 100) /\
    ~ stored_without "start_time" "end_time" 2 (crawlqueue_col w3) /\
    claimable sample_conf 110 (lease 100 (pending_task 2 "com.b" 5)) = false.
Proof.
  eexists. split; [vm_compute; reflexivity|]. cbn [crawlqueue_col].
  split_and!; [done|done| |done].
  intros [_ Hall].
  destruct (Hall (lease 100 (pending_task 2 "com.b" 5))
              ltac:(apply list_elem_of_further, list_elem_of_here) eq_refl) as [Hl _].
  discriminate Hl.
Qed.

(** * Further properties *)

(** ** Completion and missing ids *)

Lemma find_by_id_missing u docs i :
  unknown_id i docs ->
  find_one_and_update [("_id", Is (VNum i))] u None docs = (None, docs).
Proof.
  intros Hi. unfold find_one_and_update.
  destruct (select _ None docs) as [[j d]|] eqn:Hsel; [|done].
  apply select_Some in Hsel as (Hj & Hm & _). rewrite matches_id in Hm.
  apply bool_decide_eq_true in Hm. destruct Hi. rewrite <- Hm.
  apply list_elem_of_fmap. exists d. split; [done|]. by eapply list_elem_of_lookup_2.
Qed.

(** X1: [set_crawl_task_completed] on a stored task sets [end_time] to the
    current time and leaves the lease as it is; it records the error only
    when the error is truthy: with [None], [0] or the empty string the
    [error] field keeps the value it had. *)
Theorem set_crawl_task_completed_records (now : Z) (error : option value)
    (q : list stored) (i : nat) (d : stored) :
  unique_ids q -> q !! i = Some d ->
  exists d',
    db_interface.set_crawl_task_completed now (_id d) error q = ([], <[i := d']> q) /\
    _id d' = _id d /\
    completed_at d' = Some (VNum now) /\
    leased_at d' = leased_at d /\
    field d' "error" = (if truthy error then error else field d "error") /\
    forall k, k ≠ "end_time" -> k ≠ "error" -> field d' k = field d k.
Proof.
  intros Hu Hi. unfold db_interface.set_crawl_task_completed.
  rewrite (find_by_id_found _ _ _ _ Hu Hi). destruct (truthy error) eqn:Ht.
  - destruct error as [v|]; [|done]. eexists. split; [reflexivity|].
    unfold completed_at, leased_at, field. simpl.
    split_and!; [done|by rewrite lookup_insert_ne, lookup_insert_eq
                |by rewrite !lookup_insert_ne|by rewrite lookup_insert_eq|].
    intros k H1 H2. case_decide; [done|]. by rewrite !lookup_insert_ne.
  - eexists. split; [reflexivity|].
    unfold completed_at, leased_at, field. simpl.
    split_and!; [done|by rewrite lookup_insert_eq
                |by rewrite !lookup_insert_ne|by rewrite lookup_insert_ne|].
    intros k H1 H2. case_decide; [done|]. by rewrite !lookup_insert_ne.
Qed.

(** X1 on the queue of priorities 1, 5, 3: completing the second task with
    the falsy error [0]. *)
Lemma set_crawl_task_completed_records_witness :
  exists d',
    db_interface.set_crawl_task_completed 60 2 (Some (VNum 0)) queue_1_5_3
    = ([], <[1%nat := d']> queue_1_5_3) /\
    _id d' = 2 /\
    completed_at d' = Some (VNum 60) /\
    leased_at d' = leased_at (pending_task 2 "com.b" 5) /\
    field d' "error" = field (pending_task 2 "com.b" 5) "error" /\
    forall k, k ≠ "end_time" -> k ≠ "error" ->
      field d' k = field (pending_task 2 "com.b" 5) k.
Proof.
  apply (set_crawl_task_completed_records 60 (Some (VNum 0)) queue_1_5_3 1
           (pending_task 2 "com.b" 5)).
  - unfold unique_ids. apply (bool_decide_unpack _). vm_compute. exact I.
  - reflexivity.
Defined.

(** X2: when no stored document has the id, [set_crawl_task_completed],
    [reset_crawl_task], [set_app_downloaded] and [reset_app_download] leave
    the collection as it is and log one error. *)
Theorem missing_id_is_logged (now : Z) (error : option value) (i : Z) (col : list stored) :
  unknown_id i col ->
  db_interface.set_crawl_task_completed now i error col
  = ([(ERROR, "Unable to set task " +:+ pretty i +:+ " as completed! Id not found.")], col) /\
  db_interface.reset_crawl_task i col
  = ([(ERROR, "Unable to set task " +:+ pretty i +:+ " as completed! Id not found.")], col) /\
  db_interface.set_app_downloaded now i col
  = ([(ERROR, "Unable to set app " +:+ pretty i +:+ " as downloaded! Id not found.")], col) /\
  db_interface.reset_app_download i col
  = ([(ERROR, "Unable to set app " +:+ pretty i +:+ " as downloaded! Id not found.")], col).
Proof.
  intros Hi.
  unfold db_interface.set_crawl_task_completed, db_interface.reset_crawl_task,
    db_interface.set_app_downloaded, db_interface.reset_app_download.
  by rewrite !(find_by_id_missing _ _ _ Hi).
Qed.

(** X2 on the queue of priorities 1, 5, 3 and the id 9. *)
Lemma missing_id_is_logged_witness :
  db_interface.reset_crawl_task 9 queue_1_5_3
  = ([(ERROR, "Unable to set task " +:+ pretty 9 +:+ " as completed! Id not found.")],
     queue_1_5_3).
Proof.
  apply (proj1 (proj2 (missing_id_is_logged 0 None 9 queue_1_5_3
                         ltac:(apply (bool_decide_unpack _); vm_compute; exact I)))).
Defined.

(** ** Sequences of claims *)

(** The lease a claim sets is one of the two times read for it. *)
Lemma get_crawl_task_leased (c : conf) (t1 t2 t3 : Z) (q q' : list stored) (d : stored) :
  db_interface.get_crawl_task c t1 t2 t3 q = (Some d, q') ->
  exists i t, (t = t1 \/ t = t3) /\ q !! i = Some d /\ q' = <[i := lease t d]> q.
Proof.
  unfold db_interface.get_crawl_task.
  destruct (find_one_and_update _ _ (Some "priority") q) as [[d1|] q1] eqn:H1.
  - intros [= -> <-]. apply find_one_and_update_Some in H1 as (i & Hi & _ & ->).
    exists i, t1. auto.
  - apply find_one_and_update_None in H1 as [-> _].
    intros (i & Hi & _ & ->)%find_one_and_update_Some. exists i, t3. auto.
Qed.

(** In a collection with unique ids, the document stored under an id after
    an update in place is the updated one. *)
Lemma updated_in_place (q : list stored) (i : nat) (d d1 d2 : stored) :
  unique_ids q -> q !! i = Some d -> _id d1 = _id d ->
  d2 ∈ <[i := d1]> q -> _id d2 = _id d -> d2 = d1.
Proof.
  intros Hu Hi H1 [j Hj]%list_elem_of_lookup H2.
  assert (i < length q)%nat as Hlen by by eapply lookup_lt_Some.
  destruct (decide (j = i)) as [->|Hne].
  - rewrite list_lookup_insert_eq in Hj by done. by injection Hj.
  - rewrite list_lookup_insert_ne in Hj by done.
    by destruct (Hne (unique_ids_lookup _ _ _ _ _ Hu Hi Hj H2)).
Qed.

Lemma lease_fields (t : Z) (d : stored) :
  _id (lease t d) = _id d /\ leased_at (lease t d) = Some (VNum t) /\
  completed_at (lease t d) = completed_at d /\ priority (lease t d) = priority d.
Proof.
  unfold leased_at, completed_at, priority, sort_key, field, lease. simpl.
  by rewrite lookup_insert_eq, !lookup_insert_ne.
Qed.

(** X3: two claims in a row do not hand out the same task: the task a
    claim returns is not returned by the next claim, as long as the lease
    just set has not expired by then. *)
Theorem claims_are_exclusive (c : conf) (t1 t2 t3 t1' t2' t3' : Z)
    (q q1 q2 : list stored) (d d2 : stored) :
  unique_ids q ->
  db_interface.get_crawl_task c t1 t2 t3 q = (Some d, q1) ->
  db_interface.get_crawl_task c t1' t2' t3' q1 = (Some d2, q2) ->
  t2' - t1 <= max_task_duration_seconds c ->
  t2' - t3 <= max_task_duration_seconds c ->
  _id d2 ≠ _id d.
Proof.
  intros Hu H1 H2 Hd1 Hd3 Hid.
  apply get_crawl_task_leased in H1 as (i & t & Ht & Hi & ->).
  pose proof (get_crawl_task_phases c t1' t2' t3' (<[i := lease t d]> q)) as Hph.
  rewrite H2 in Hph. destruct Hph as [Hin Hcase].
  destruct (lease_fields t d) as (Hlid & Hl & _ & _).
  assert (d2 = lease t d) as -> by by eapply updated_in_place.
  destruct Hcase as [Hp|He].
  - unfold pending in Hp. by rewrite Hl in Hp.
  - apply expired_inv in He as (T & HT & Hlt & _). rewrite Hl in HT. injection HT as <-.
    destruct Ht as [-> | ->]; lia.
Qed.

(** X3 on the queue of priorities 1, 5, 3: the first claim returns the task
    of priority 5, the second the task of priority 3. *)
Lemma claims_are_exclusive_witness : _id (pending_task 3 "com.c" 3) ≠ _id (pending_task 2 "com.b" 5).
Proof.
  apply (claims_are_exclusive sample_conf 50 50 50 51 51 51 queue_1_5_3
           (db_interface.get_crawl_task sample_conf 50 50 50 queue_1_5_3).2
           (db_interface.get_crawl_task sample_conf 51 51 51
              (db_interface.get_crawl_task sample_conf 50 50 50 queue_1_5_3).2).2).
  - unfold unique_ids. apply (bool_decide_unpack _). vm_compute. exact I.
  - vm_compute. reflexivity.
  - vm_compute. reflexivity.
  - simpl. lia.
  - simpl. lia.
Defined.

(** X4: a task that was claimed and then marked completed, with or without
    an error, is returned by no later claim. *)
Theorem completed_task_is_retired (c c' : conf) (t1 t2 t3 now t1' t2' t3' : Z)
    (error : option value) (q q1 q3 : list stored) (d d3 : stored) :
  unique_ids q ->
  db_interface.get_crawl_task c t1 t2 t3 q = (Some d, q1) ->
  db_interface.get_crawl_task c' t1' t2' t3'
    (db_interface.set_crawl_task_completed now (_id d) error q1).2 = (Some d3, q3) ->
  _id d3 ≠ _id d.
Proof.
  intros Hu H1 H3 Hid.
  apply get_crawl_task_leased in H1 as (i & t & _ & Hi & ->).
  assert (i < length q)%nat as Hlen by by eapply lookup_lt_Some.
  destruct (lease_fields t d) as (Hlid & Hl & _ & _).
  unfold db_interface.set_crawl_task_completed in H3. rewrite <- Hlid in H3.
  rewrite (find_by_id_found _ (<[i := lease t d]> q) i (lease t d)) in H3;
    [|unfold unique_ids; by erewrite ids_insert_same|by apply list_lookup_insert_eq].
  cbn [snd] in H3. rewrite list_insert_insert_eq in H3.
  match type of H3 with context [apply_update ?u (lease t d)] =>
    set (d' := apply_update u (lease t d)) in * end.
  assert (leased_at d' = Some (VNum t) /\ is_null (completed_at d') = false) as [Hl' Hc'].
  { unfold d', leased_at, completed_at, field. destruct (truthy error); simpl.
    - split.
      + rewrite !lookup_insert_ne by done. by rewrite lookup_insert_eq.
      + rewrite lookup_insert_ne by done. by rewrite lookup_insert_eq.
    - split.
      + rewrite lookup_insert_ne by done. by rewrite lookup_insert_eq.
      + by rewrite lookup_insert_eq. }
  pose proof (get_crawl_task_phases c' t1' t2' t3' (<[i := d']> q)) as Hph.
  rewrite H3 in Hph. destruct Hph as [Hin Hcase].
  assert (d3 = d') as ->.
  { eapply updated_in_place; [done..| |done| by rewrite Hid]. unfold d'.
    by rewrite apply_update_id. }
  destruct Hcase as [Hp|He].
  - unfold pending in Hp. by rewrite Hl' in Hp.
  - unfold expired in He. rewrite Hc' in He. by rewrite andb_false_r in He.
Qed.

(** X4 on the queue of priorities 1, 5, 3: the task of priority 5 is
    claimed and completed; the next claim returns the task of priority 3. *)
Lemma completed_task_is_retired_witness :
  _id (pending_task 3 "com.c" 3) ≠ _id (pending_task 2 "com.b" 5).
Proof.
  apply (completed_task_is_retired sample_conf sample_conf 50 50 50 60 500 500 500
           (Some (VNum 404)) queue_1_5_3
           (db_interface.get_crawl_task sample_conf 50 50 50 queue_1_5_3).2
           (db_interface.get_crawl_task sample_conf 500 500 500
              (db_interface.set_crawl_task_completed 60 2 (Some (VNum 404))
                 (db_interface.get_crawl_task sample_conf 50 50 50 queue_1_5_3).2).2).2).
  - unfold unique_ids. apply (bool_decide_unpack _). vm_compute. exact I.
  - vm_compute. reflexivity.
  - vm_compute. reflexivity.
Defined.

(** X5: pending tasks come out in descending priority: when two claims in
    a row both return a pending task, the second task's priority is not
    greater than the first's. *)
Theorem claims_descend_in_priority (c c' : conf) (t1 t2 t3 t1' t2' t3' : Z)
    (q q1 q2 : list stored) (d d2 : stored) :
  db_interface.get_crawl_task c t1 t2 t3 q = (Some d, q1) ->
  db_interface.get_crawl_task c' t1' t2' t3' q1 = (Some d2, q2) ->
  pending d = true -> pending d2 = true ->
  key_lt (priority d) (priority d2) = false.
Proof.
  intros H1 H2 Hp Hp2.
  apply get_crawl_task_position in H1 as (i & t & Hi & -> & Hcase).
  assert (i < length q)%nat as Hlen by by eapply lookup_lt_Some.
  destruct Hcase as [(_ & Hbest)|Hnone];
    [|rewrite Hnone in Hp; [done|by eapply list_elem_of_lookup_2]].
  pose proof (get_crawl_task_phases c' t1' t2' t3' (<[i := lease t d]> q)) as Hph.
  rewrite H2 in Hph. destruct Hph as [[j Hj]%list_elem_of_lookup _].
  destruct (decide (j = i)) as [->|Hne].
  - rewrite list_lookup_insert_eq in Hj by done. injection Hj as <-.
    destruct (lease_fields t d) as (_ & Hl & _ & _). unfold pending in Hp2.
    by rewrite Hl in Hp2.
  - rewrite list_lookup_insert_ne in Hj by done. by apply (Hbest j d2).
Qed.

(** X5 on the queue of priorities 1, 5, 3: priority 5, then priority 3. *)
Lemma claims_descend_in_priority_witness :
  key_lt (priority (pending_task 2 "com.b" 5)) (priority (pending_task 3 "com.c" 3)) = false.
Proof.
  apply (claims_descend_in_priority sample_conf sample_conf 50 50 50 51 51 51 queue_1_5_3
           (db_interface.get_crawl_task sample_conf 50 50 50 queue_1_5_3).2
           (db_interface.get_crawl_task sample_conf 51 51 51
              (db_interface.get_crawl_task sample_conf 50 50 50 queue_1_5_3).2).2);
    vm_compute; reflexivity.
Defined.

(** ** Counting pending tasks *)

Lemma count_insert {A} (P : A -> Prop) `{!forall x, Decision (P x)} (l : list A) (i : nat) (x y : A) :
  l !! i = Some x ->
  (length (filter P (<[i := y]> l)) + (if decide (P x) then 1 else 0)
   = length (filter P l) + (if decide (P y) then 1 else 0))%nat.
Proof.
  revert i. induction l as [|a l IH]; intros [|i] Hi; try done; simpl in Hi.
  - injection Hi as ->. simpl. rewrite !filter_cons.
    destruct (decide (P x)), (decide (P y)); simpl; lia.
  - specialize (IH i Hi). simpl. rewrite !filter_cons.
    destruct (decide (P a)); simpl; lia.
Qed.

Lemma count_none {A} (P : A -> Prop) `{!forall x, Decision (P x)} (l : list A) :
  (forall x, x ∈ l -> ~ P x) -> length (filter P l) = 0%nat.
Proof.
  induction l as [|a l IH]; [done|]. intros Hall.
  rewrite filter_cons_False by (apply Hall, list_elem_of_here).
  apply IH. intros x Hx. by apply Hall, list_elem_of_further.
Qed.

(** X6: a claim takes exactly one task out of the pending ones: when the
    task returned is pending, one pending task fewer is left; when it is
    not (an expired lease is taken over), no task was pending and none is
    afterwards. *)
Theorem claim_takes_one_pending (c : conf) (t1 t2 t3 : Z) (q q1 : list stored) (d : stored) :
  db_interface.get_crawl_task c t1 t2 t3 q = (Some d, q1) ->
  length q1 = length q /\
  (pending d = true -> count_pending q = S (count_pending q1)) /\
  (pending d = false -> count_pending q = 0%nat /\ count_pending q1 = 0%nat).
Proof.
  intros H. apply get_crawl_task_position in H as (i & t & Hi & -> & Hcase).
  destruct (lease_fields t d) as (_ & Hl & _ & _).
  assert (pending (lease t d) = false) as Hnl by (unfold pending; by rewrite Hl).
  pose proof (count_insert (fun d => pending d = true) q i d (lease t d) Hi) as Hcount.
  rewrite (decide_False (P := pending (lease t d) = true)) in Hcount by by rewrite Hnl.
  split; [by rewrite length_insert|]. unfold count_pending. split.
  - intros Hp. rewrite decide_True in Hcount by done. lia.
  - intros Hp. rewrite decide_False in Hcount by by rewrite Hp.
    destruct Hcase as [[Hp' _]|Hnone]; [congruence|].
    assert (length (filter (fun d => pending d = true) q) = 0%nat) as H0.
    { apply count_none. intros x Hx. by rewrite Hnone. }
    lia.
Qed.

(** X6 on the queue of priorities 1, 5, 3: three pending tasks before the
    claim, two after. *)
Lemma claim_takes_one_pending_witness :
  count_pending queue_1_5_3
  = S (count_pending (db_interface.get_crawl_task sample_conf 50 50 50 queue_1_5_3).2).
Proof.
  apply (proj1 (proj2 (claim_takes_one_pending sample_conf 50 50 50 queue_1_5_3
                         (db_interface.get_crawl_task sample_conf 50 50 50 queue_1_5_3).2
                         (pending_task 2 "com.b" 5) ltac:(vm_compute; reflexivity)))).
  reflexivity.
Defined.

(** ** Priority bumps and claims *)

Lemma with_priority_fields (p : Z) (d : stored) :
  pending (with_priority p d) = pending d /\ priority (with_priority p d) = Some p.
Proof.
  unfold pending, leased_at, priority, sort_key, field, with_priority. simpl.
  by rewrite lookup_insert_ne, lookup_insert_eq.
Qed.

(** X7: after [set_crawl_task_priority] has raised matching tasks to the
    priority [p], the next claim returns a pending task of priority at
    least [p], whenever one of the matching tasks is pending. *)
Theorem bumped_task_is_claimed_first (c : conf) (t1 t2 t3 p : Z) (task_type s : string)
    (datas : list string) (q : list stored) (d0 : stored) :
  d0 ∈ q -> pending d0 = true ->
  kind d0 = Some (VStr task_type) -> key d0 = Some (VStr s) -> s ∈ datas ->
  exists d q',
    db_interface.get_crawl_task c t1 t2 t3
      (db_interface.set_crawl_task_priority task_type datas p q).2 = (Some d, q') /\
    pending d = true /\
    key_lt (priority d) (Some p) = false.
Proof.
  intros Hd0 Hp0 Hk Hkey Hin. rewrite set_crawl_task_priority_queue.
  set (f := fun d => if matches _ d then apply_update _ d else d).
  assert (with_priority p d0 ∈ f <$> q) as Hin'.
  { apply list_elem_of_fmap. exists d0. split; [|done]. unfold f.
    replace (matches _ d0) with true; [done|]. symmetry.
    unfold matches. simpl. fold (kind d0) (key d0). rewrite Hk, Hkey.
    rewrite existsb_in_strings. simpl.
    by rewrite !bool_decide_eq_true_2. }
  destruct (with_priority_fields p d0) as [Hp' Hprio]. rewrite Hp0 in Hp'.
  pose proof (get_crawl_task_phases c t1 t2 t3 (f <$> q)) as Hph.
  destruct (db_interface.get_crawl_task c t1 t2 t3 (f <$> q)) as [[d|] q'] eqn:Hget.
  - exists d, q'. split; [done|].
    apply get_crawl_task_position in Hget as (i & t & Hi & _ & Hcase).
    destruct Hcase as [(Hp & Hbest)|Hnone]; [|by rewrite Hnone in Hp'].
    split; [done|]. apply list_elem_of_lookup in Hin' as [j Hj].
    rewrite <- Hprio. by apply (Hbest j).
  - destruct (Hph _ Hin') as [Hnp _]. congruence.
Qed.

(** X7 on the queue of priorities 1, 5, 3: the task of priority 1 is
    raised to 10 and is the next one claimed. *)
Lemma bumped_task_is_claimed_first_witness :
  exists d q',
    db_interface.get_crawl_task sample_conf 50 50 50
      (db_interface.set_crawl_task_priority "CRAWL_DETAILS" ["com.a"] 10 queue_1_5_3).2
    = (Some d, q') /\
    pending d = true /\
    key_lt (priority d) (Some 10) = false.
Proof.
  apply (bumped_task_is_claimed_first sample_conf 50 50 50 10 "CRAWL_DETAILS" "com.a"
           ["com.a"] queue_1_5_3 (pending_task 1 "com.a" 1)).
  - apply list_elem_of_here.
  - reflexivity.
  - reflexivity.
  - reflexivity.
  - apply list_elem_of_here.
Defined.

(** ** Re-discovery *)

Lemma insert_many_all_known (reject : document -> option write_error) (idx : list string)
    (es : list document) (docs : list stored) :
  (forall e, e ∈ es -> reject e = None ->
     index_key idx e ∈ (fun d => index_key idx (body d)) <$> docs) ->
  (insert_many reject [idx] es docs).2 = docs.
Proof.
  induction es as [|e es IH]; [done|]. intros Hall. cbn [insert_many].
  assert ((insert_many reject [idx] es docs).2 = docs) as Hrest.
  { apply IH. intros e' He'. apply Hall. by apply list_elem_of_further. }
  destruct (reject e) eqn:Hrej.
  - by destruct (insert_many reject [idx] es docs).
  - rewrite (proj2 (collides_single idx e docs)) by (apply Hall; [apply list_elem_of_here|done]).
    by destruct (insert_many reject [idx] es docs).
Qed.

(** X8: discovering the same edges again is a no-op: when the pair of every
    accepted draft is stored already, [enqueue_crawl_tasks] leaves the queue
    as it is; so enqueueing a batch a second time gives what the first time
    gave. *)
Theorem rediscovery_is_a_no_op (reject : document -> option write_error)
    (drafts : list document) (q : list stored) :
  ((forall e, e ∈ drafts -> reject e = None -> stored_with (task_key e) q ≠ 0%nat) ->
   (db_interface.enqueue_crawl_tasks reject drafts q).2 = q) /\
  db_interface.enqueue_crawl_tasks reject drafts
    (db_interface.enqueue_crawl_tasks reject drafts q).2
  = db_interface.enqueue_crawl_tasks reject drafts q.
Proof.
  unfold db_interface.enqueue_crawl_tasks, db_interface.crawlqueue_unique.
  rewrite !dump_to_mongodb_insert. cbn [snd]. split.
  - intros Hall. apply insert_many_all_known. intros e He Hacc.
    specialize (Hall e He Hacc).
    destruct (decide (index_key ["data"; "task"] e
                      ∈ (fun d => index_key ["data"; "task"] (body d)) <$> q)); [done|].
    destruct Hall. by apply (count_absent (fun d => task_key (body d))).
  - destruct (insert_many_spec reject ["data"; "task"] drafts q)
      as (new & _ & _ & Hall & _ & Hlog).
    destruct (insert_many_spec reject ["data"; "task"] drafts
                (insert_many reject [["data"; "task"]] drafts q).2)
      as (new' & _ & _ & _ & _ & Hlog').
    rewrite Hlog', Hlog. f_equal. by apply insert_many_all_known.
Qed.

(** X8 on one stored task: enqueueing its pair again changes nothing. *)
Lemma rediscovery_is_a_no_op_witness :
  (db_interface.enqueue_crawl_tasks accept_all
     [main.task_draft (VStr "com.a") DETAILS] [pending_task 1 "com.a" 1]).2
  = [pending_task 1 "com.a" 1].
Proof.
  apply (proj1 (rediscovery_is_a_no_op accept_all [main.task_draft (VStr "com.a") DETAILS]
                  [pending_task 1 "com.a" 1])).
  intros e He%list_elem_of_singleton _. subst e. vm_compute. discriminate.
Defined.

Lemma NoDup_fmap_eq {A B} (f : A -> B) (l : list A) (x y : A) :
  NoDup (f <$> l) -> x ∈ l -> y ∈ l -> f x = f y -> x = y.
Proof.
  intros Hnd [i Hi]%list_elem_of_lookup [j Hj]%list_elem_of_lookup Heq.
  assert (i = j) as ->; [|congruence].
  eapply (NoDup_lookup _ _ _ _ Hnd); rewrite list_lookup_fmap.
  - by rewrite Hi.
  - rewrite Hj. simpl. by rewrite Heq.
Qed.

(** X9: the first write wins: [dump] keeps the stored records and appends
    accepted drafts whose package, version and device are not stored yet;
    a record stored under the identity of a draft is, after the call, still
    the only record of that identity, with the fields it had. *)
Theorem dump_first_write_wins (reject : document -> option write_error)
    (entries : list document) (col : list stored) :
  unique_records col ->
  let r := db_interface.dump reject entries col in
  (exists new, r.2 = col ++ new /\
     forall d, d ∈ new ->
       body d ∈ entries /\ reject (body d) = None /\
       record_key (body d) ∉ (fun d => record_key (body d)) <$> col) /\
  unique_records r.2 /\
  (forall d e d', d ∈ col -> e ∈ entries -> record_key e = record_key (body d) ->
     d' ∈ r.2 -> record_key (body d') = record_key e -> d' = d).
Proof.
  intros Hu. unfold db_interface.dump, db_interface.playstore_unique.
  rewrite dump_to_mongodb_insert. cbn [snd].
  destruct (insert_many_spec reject ["docid"; "details.appDetails.versionCode"; "device"]
              entries col) as (new & Heq & Hnew & _ & Hnd & _).
  split_and!.
  - by exists new.
  - by apply Hnd.
  - intros d e d' Hd He Hk Hd' Hk'.
    apply (NoDup_fmap_eq (fun d => record_key (body d)) _ d' d (Hnd Hu)); [done| |congruence].
    rewrite Heq, elem_of_app. by left.
Qed.

(** X9 on the one sample record and a second draft for the same package,
    version and device with another payload: the identity stays unique. *)
Lemma dump_first_write_wins_witness :
  unique_records
    (db_interface.dump accept_all
       [<["title" := VStr "other"]> (body sample_record)] [sample_record]).2.
Proof.
  apply (proj1 (proj2 (dump_first_write_wins accept_all
                         [<["title" := VStr "other"]> (body sample_record)] [sample_record]
                         ltac:(apply (bool_decide_unpack _); vm_compute; exact I)))).
Defined.

Example dump_keeps_first_payload :
  (db_interface.dump accept_all
     [<["title" := VStr "other"]> (body sample_record)] [sample_record]).2
  = [sample_record].
Proof. vm_compute. reflexivity. Qed.

(** ** The download lease *)

Lemma matches_download_pending (free_only : bool) (d : stored) :
  matches (db_interface.undownloaded_filter free_only [("download_start_time", Is VNull)]) d
  = download_pending d && offered free_only d.
Proof.
  unfold matches, db_interface.undownloaded_filter, download_pending, offered, free.
  destruct free_only; simpl; by rewrite ?andb_true_r.
Qed.

Lemma matches_download_expired (free_only : bool) (deadline : Z) (d : stored) :
  matches (db_interface.undownloaded_filter free_only
             [("download_start_time", Lt deadline); ("download_end_time", Is VNull)]) d
  = download_expired deadline d && offered free_only d.
Proof.
  unfold matches, db_interface.undownloaded_filter, download_expired, offered, free.
  destruct free_only; simpl; rewrite ?andb_true_r;
    destruct (field d "download_start_time") as [[]|]; simpl; try done;
    by rewrite ?andb_assoc.
Qed.

(** Without a sort, the first matching document is picked. *)
Lemma select_first (q : query) (docs : list stored) (i : nat) (d : stored) :
  select q None docs = Some (i, d) ->
  docs !! i = Some d /\ matches q d = true /\
  forall j d', (j < i)%nat -> docs !! j = Some d' -> matches q d' = false.
Proof.
  intros (Hi & Hm & Hb)%select_Some. split_and!; [done..|].
  intros j d' Hlt Hj. destruct (matches q d') eqn:Hm'; [|done].
  destruct (Hb j d' Hj Hm') as [_ H]. by specialize (H Hlt).
Qed.

Lemma select_first_picked (q : query) (docs : list stored) (i : nat) (d : stored) :
  docs !! i = Some d -> matches q d = true ->
  (forall j d', (j < i)%nat -> docs !! j = Some d' -> matches q d' = false) ->
  select q None docs = Some (i, d).
Proof.
  intros Hi Hm Hfirst. apply select_picked. split_and!; [done..|].
  intros j d' Hj Hm'. split; [done|]. intros Hlt. by rewrite (Hfirst j d' Hlt Hj) in Hm'.
Qed.

(** The two phases of [get_app_undownloaded]. *)
Lemma get_app_undownloaded_cases (c : conf) (free_only : bool) (t1 t2 t3 : Z)
    (col : list stored) :
  match db_interface.get_app_undownloaded c free_only t1 t2 t3 col with
  | (Some d, col') =>
      exists i, col !! i = Some d /\ offered free_only d = true /\
        ((download_pending d = true /\
          (forall j d', (j < i)%nat -> col !! j = Some d' ->
             download_pending d' && offered free_only d' = false) /\
          col' = <[i := download_leased t1 d]> col)
         \/
         ((forall d', d' ∈ col -> download_pending d' && offered free_only d' = false) /\
          download_expired (t2 - max_download_duration_seconds c) d = true /\
          (forall j d', (j < i)%nat -> col !! j = Some d' ->
             download_expired (t2 - max_download_duration_seconds c) d'
             && offered free_only d' = false) /\
          col' = <[i := download_leased t3 d]> col))
  | (None, col') =>
      col' = col /\
      forall d, d ∈ col -> offered free_only d = true ->
        download_pending d = false /\
        download_expired (t2 - max_download_duration_seconds c) d = false
  end.
Proof.
  unfold db_interface.get_app_undownloaded, find_one_and_update. cbv zeta.
  destruct (select _ None col) as [[i d]|] eqn:H1.
  - apply select_first in H1 as (Hi & Hm & Hfirst).
    rewrite matches_download_pending in Hm. apply andb_true_iff in Hm as [Hp Ho].
    exists i. split_and!; [done..|]. left. split_and!; [done| |done].
    intros j d' Hlt Hj. rewrite <- matches_download_pending. by eapply Hfirst.
  - pose proof (proj1 (select_None _ _ _) H1) as Hn1.
    assert (forall d', d' ∈ col -> download_pending d' && offered free_only d' = false) as Hnp.
    { intros d' Hd'. rewrite <- matches_download_pending. auto. }
    match goal with |- context [select ?f None col] =>
      destruct (select f None col) as [[i d]|] eqn:H2 end.
    + apply select_first in H2 as (Hi & Hm & Hfirst).
      rewrite matches_download_expired in Hm. apply andb_true_iff in Hm as [He Ho].
      exists i. split_and!; [done..|]. right. split_and!; [done..| |done].
      intros j d' Hlt Hj. rewrite <- matches_download_expired. by eapply Hfirst.
    + pose proof (proj1 (select_None _ _ _) H2) as Hn2.
      split; [done|]. intros d Hd Ho.
      specialize (Hnp d Hd). specialize (Hn2 d Hd).
      rewrite matches_download_expired in Hn2. rewrite Ho, andb_true_r in Hnp, Hn2. done.
Qed.

(** X10: [get_app_undownloaded] picks the first record, in the order of
    the collection, that has no download lease (and, with [free_only], an
    offer of price ["0"]) and sets its lease; only when there is none it
    picks the first such record whose lease is older than the deadline and
    whose download is not completed; it returns the record as it was, and
    nothing exactly when no record qualifies.  With [free_only] a record
    without a free offer is never returned. *)
Theorem get_app_undownloaded_claims (c : conf) (free_only : bool) (t1 t2 t3 : Z)
    (col : list stored) :
  match db_interface.get_app_undownloaded c free_only t1 t2 t3 col with
  | (Some d, col') =>
      exists i, col !! i = Some d /\ offered free_only d = true /\
        ((download_pending d = true /\
          (forall j d', (j < i)%nat -> col !! j = Some d' ->
             download_pending d' && offered free_only d' = false) /\
          col' = <[i := download_leased t1 d]> col)
         \/
         ((forall d', d' ∈ col -> download_pending d' && offered free_only d' = false) /\
          download_expired (t2 - max_download_duration_seconds c) d = true /\
          (forall j d', (j < i)%nat -> col !! j = Some d' ->
             download_expired (t2 - max_download_duration_seconds c) d'
             && offered free_only d' = false) /\
          col' = <[i := download_leased t3 d]> col))
  | (None, col') =>
      col' = col /\
      forall d, d ∈ col -> offered free_only d = true ->
        download_pending d = false /\
        download_expired (t2 - max_download_duration_seconds c) d = false
  end.
Proof.
  pose proof (get_app_undownloaded_cases c free_only t1 t2 t3 col) as H.
  destruct (db_interface.get_app_undownloaded c free_only t1 t2 t3 col) as [[d|] col'].
  - destruct H as (i & Hi & Ho & Hcase). exists i. split_and!; [done..|].
    destruct Hcase as [(? & ? & ?)|(? & ? & ? & ?)]; [by left|by right].
  - destruct H as [-> H]. split; [done|]. intros d Hd Ho. by apply H.
Qed.

Example get_app_undownloaded_skips_paid :
  fst (db_interface.get_app_undownloaded sample_conf true 50 50 50 [paid_record; sample_record])
  = Some sample_record /\
  fst (db_interface.get_app_undownloaded sample_conf false 50 50 50 [paid_record; sample_record])
  = Some paid_record /\
  fst (db_interface.get_app_undownloaded sample_conf true 50 50 50 [paid_record]) = None.
Proof. vm_compute. done. Qed.

Lemma download_cleared_fields (d : stored) :
  _id (download_cleared d) = _id d /\
  download_pending (download_cleared d) = true /\
  field (download_cleared d) "download_end_time" = None /\
  forall k, k ≠ "download_start_time" -> k ≠ "download_end_time" ->
    field (download_cleared d) k = field d k.
Proof.
  unfold download_pending, field, download_cleared. simpl. split_and!; [done| | |].
  - rewrite lookup_delete_ne by done. by rewrite lookup_delete_eq.
  - by rewrite lookup_delete_eq.
  - intros k H1 H2. case_decide; [done|]. by rewrite !lookup_delete_ne.
Qed.

(** X11: in a collection with unique ids, [reset_app_download] after a
    download claim clears the two download fields of the claimed record and
    nothing else, and the next download claim, at any time, returns that
    record again. *)
Theorem download_reset_restores (c : conf) (free_only : bool) (t1 t2 t3 : Z)
    (col col1 : list stored) (d : stored) :
  unique_ids col ->
  db_interface.get_app_undownloaded c free_only t1 t2 t3 col = (Some d, col1) ->
  exists i,
    col !! i = Some d /\
    db_interface.reset_app_download (_id d) col1 = ([], <[i := download_cleared d]> col) /\
    (forall k, k ≠ "download_start_time" -> k ≠ "download_end_time" ->
       field (download_cleared d) k = field d k) /\
    forall c' t1' t2' t3',
      fst (db_interface.get_app_undownloaded c' free_only t1' t2' t3'
             (<[i := download_cleared d]> col))
      = Some (download_cleared d).
Proof.
  intros Hu Hget. pose proof (get_app_undownloaded_cases c free_only t1 t2 t3 col) as Hc.
  rewrite Hget in Hc. destruct Hc as (i & Hi & Ho & Hcase).
  assert (i < length col)%nat as Hlen by by eapply lookup_lt_Some.
  destruct (download_cleared_fields d) as (Hid & Hp & _ & Hframe).
  assert (exists t, col1 = <[i := download_leased t d]> col) as [t ->].
  { destruct Hcase as [(_ & _ & ->)|(_ & _ & _ & ->)]; eauto. }
  exists i. split_and!; [done| |done|].
  - unfold db_interface.reset_app_download.
    change (_id d) with (_id (download_leased t d)).
    rewrite (find_by_id_found _ (<[i := download_leased t d]> col) i (download_leased t d));
      [|unfold unique_ids; by erewrite ids_insert_same|by apply list_lookup_insert_eq].
    cbn [snd]. rewrite list_insert_insert_eq. f_equal. f_equal.
    unfold download_cleared, download_leased. simpl. by rewrite delete_insert_eq.
  - intros c' t1' t2' t3'. unfold db_interface.get_app_undownloaded, find_one_and_update.
    cbv zeta.
    rewrite (select_first_picked _ _ i (download_cleared d)); [done|..].
    + by apply list_lookup_insert_eq.
    + rewrite matches_download_pending, Hp. unfold offered, free in *.
      by rewrite Hframe.
    + intros j d' Hlt Hj. rewrite list_lookup_insert_ne in Hj by lia.
      rewrite matches_download_pending.
      destruct Hcase as [(_ & Hfirst & _)|(Hnone & _)]; [by eapply Hfirst|].
      apply Hnone. by eapply list_elem_of_lookup_2.
Qed.

(** X11 on the collection of the paid record and the free sample record. *)
Lemma download_reset_restores_witness :
  exists i,
    [paid_record; sample_record] !! i = Some sample_record /\
    db_interface.reset_app_download (_id sample_record)
      [paid_record; download_leased 50 sample_record]
    = ([], <[i := download_cleared sample_record]> [paid_record; sample_record]) /\
    (forall k, k ≠ "download_start_time" -> k ≠ "download_end_time" ->
       field (download_cleared sample_record) k = field sample_record k) /\
    forall c' t1' t2' t3',
      fst (db_interface.get_app_undownloaded c' true t1' t2' t3'
             (<[i := download_cleared sample_record]> [paid_record; sample_record]))
      = Some (download_cleared sample_record).
Proof.
  apply (download_reset_restores sample_conf true 50 50 50 [paid_record; sample_record]
           [paid_record; download_leased 50 sample_record] sample_record).
  - unfold unique_ids. apply (bool_decide_unpack _). vm_compute. exact I.
  - vm_compute. reflexivity.
Defined.

(** ** Bulk updates *)

Lemma count_matches_zero (q : query) (u : update) (docs : list stored) :
  (forall d, d ∈ docs -> matches q d = false) -> update_many q u docs = (0%nat, docs).
Proof.
  intros Hnone. unfold update_many. f_equal.
  - apply count_none. intros d Hd. by rewrite Hnone.
  - rewrite <- (list_fmap_id docs) at 2. apply list_fmap_ext.
    intros i d Hi. rewrite Hnone; [done|]. by eapply list_elem_of_lookup_2.
Qed.

Lemma count_matches_pos (q : query) (u : update) (docs : list stored) (d : stored) :
  d ∈ docs -> matches q d = true -> (update_many q u docs).1 ≠ 0%nat.
Proof.
  intros Hd Hm. unfold update_many. simpl. intros H0.
  apply nil_length_inv in H0.
  by eapply (filter_nil_not_elem_of (fun d => matches q d = true)).
Qed.

(** X12: [set_similar_apps] sets [similarTo] on every record of the
    package, whatever its version and device, and leaves the records of
    other packages as they are; it logs an error exactly when the package
    has no record, and then changes nothing. *)
Theorem set_similar_apps_marks_package (package : string) (packages : list string)
    (col : list stored) :
  (forall d, d ∈ col -> exists s, field d "docid" = Some (VStr s)) ->
  let r := db_interface.set_similar_apps (Some (VStr package)) packages col in
  r.2 = (fun d => if decide (field d "docid" = Some (VStr package))
                  then with_similar packages d else d) <$> col /\
  ((exists d, d ∈ col /\ field d "docid" = Some (VStr package)) -> r.1 = []) /\
  ((forall d, d ∈ col -> field d "docid" ≠ Some (VStr package)) ->
   r = ([(ERROR, "Unable to set similar packages for " +:+ package
                 +:+ "! Entry not found.")], col)).
Proof.
  intros Hwf.
  assert (forall d, d ∈ col ->
            matches [("docid", Is (VStr package))] d
            = bool_decide (field d "docid" = Some (VStr package))) as Hm.
  { intros d Hd. destruct (Hwf d Hd) as [s Hs]. unfold matches. simpl.
    rewrite Hs, andb_true_r. apply bool_decide_ext. split; congruence. }
  assert (db_interface.set_similar_apps (Some (VStr package)) packages col
          = (if decide ((update_many [("docid", Is (VStr package))]
                           (Set_ [("similarTo", VArr packages)]) col).1 = 0%nat)
             then [(ERROR, "Unable to set similar packages for " +:+ package
                           +:+ "! Entry not found.")]
             else [],
             (update_many [("docid", Is (VStr package))]
                (Set_ [("similarTo", VArr packages)]) col).2)) as -> by done.
  cbv zeta. cbn [fst snd]. split_and!.
  - unfold update_many. cbn [snd]. apply list_fmap_ext. intros i d Hi.
    rewrite Hm by by eapply list_elem_of_lookup_2.
    case_decide; [by rewrite bool_decide_eq_true_2|by rewrite bool_decide_eq_false_2].
  - intros (d & Hd & Hdoc).
    rewrite decide_False; [done|]. apply (count_matches_pos _ _ _ d Hd).
    rewrite Hm by done. by apply bool_decide_eq_true.
  - intros Hnone.
    rewrite count_matches_zero; [done|].
    intros d Hd. rewrite Hm by done. by apply bool_decide_eq_false, Hnone.
Qed.

(** X12 on the two sample records: no record of the package [com.none]. *)
Lemma set_similar_apps_marks_package_witness :
  db_interface.set_similar_apps (Some (VStr "com.none")) ["com.a"] [paid_record; sample_record]
  = ([(ERROR, "Unable to set similar packages for " +:+ "com.none" +:+ "! Entry not found.")],
     [paid_record; sample_record]).
Proof.
  assert (forall d, d ∈ [paid_record; sample_record] ->
            exists s, field d "docid" = Some (VStr s)) as Hwf.
  { intros d Hd. rewrite !elem_of_cons in Hd.
    destruct Hd as [->|[->|Hd]]; [by eexists..|by apply elem_of_nil in Hd]. }
  apply (proj2 (proj2 (set_similar_apps_marks_package "com.none" ["com.a"]
                         [paid_record; sample_record] Hwf))).
  intros d Hd. rewrite !elem_of_cons in Hd.
  destruct Hd as [->|[->|Hd]]; [done..|by apply elem_of_nil in Hd].
Defined.

Example set_similar_apps_all_versions :
  (db_interface.set_similar_apps (Some (VStr "com.a")) ["com.b"]
     [sample_record; paid_record;
      Stored 3 (<["details.appDetails.versionCode" := VNum 8]> (body sample_record))]).2
  = [with_similar ["com.b"] sample_record; paid_record;
     with_similar ["com.b"]
       (Stored 3 (<["details.appDetails.versionCode" := VNum 8]> (body sample_record)))].
Proof. vm_compute. reflexivity. Qed.

(** X13: when no stored task has the kind and one of the keys,
    [set_crawl_task_priority] leaves the queue as it is and logs one
    error. *)
Theorem set_crawl_task_priority_without_match (task_type : string) (datas : list string)
    (p : Z) (q : list stored) :
  (forall d, d ∈ q ->
     exists k s, kind d = Some (VStr k) /\ key d = Some (VStr s) /\
                 (k = task_type -> s ∉ datas)) ->
  db_interface.set_crawl_task_priority task_type datas p q
  = ([(ERROR, "Unable to set priority for " +:+ py_str (Some (VArr datas))
              +:+ "! Entry not found.")], q).
Proof.
  intros Hnone.
  assert (db_interface.set_crawl_task_priority task_type datas p q
          = (if decide ((update_many
                           [("task", Is (VStr task_type)); ("data", In_ (VStr <$> datas))]
                           (Set_ [("priority", VNum p)]) q).1 = 0%nat)
             then [(ERROR, "Unable to set priority for " +:+ py_str (Some (VArr datas))
                           +:+ "! Entry not found.")]
             else [],
             (update_many [("task", Is (VStr task_type)); ("data", In_ (VStr <$> datas))]
                (Set_ [("priority", VNum p)]) q).2)) as -> by done.
  assert (forall d, d ∈ q ->
            matches [("task", Is (VStr task_type)); ("data", In_ (VStr <$> datas))] d
            = false) as Hm.
  { intros d Hd. destruct (Hnone d Hd) as (k & s & Hk & Hs & Hout).
    unfold matches. simpl. fold (kind d) (key d). rewrite Hk, Hs, existsb_in_strings.
    simpl. destruct (decide (k = task_type)) as [->|Hne].
    - rewrite (bool_decide_eq_false_2 _ (Hout eq_refl)). by rewrite andb_false_r.
    - rewrite bool_decide_eq_false_2; [done|]. congruence. }
  by rewrite (count_matches_zero _ _ q Hm).
Qed.

(** X13 on the queue of priorities 1, 5, 3 and a package that has no
    task. *)
Lemma set_crawl_task_priority_without_match_witness :
  db_interface.set_crawl_task_priority "CRAWL_DETAILS" ["com.none"] 10 queue_1_5_3
  = ([(ERROR, "Unable to set priority for " +:+ py_str (Some (VArr ["com.none"]))
              +:+ "! Entry not found.")], queue_1_5_3).
Proof.
  apply (set_crawl_task_priority_without_match "CRAWL_DETAILS" ["com.none"] 10 queue_1_5_3).
  intros d Hd. unfold queue_1_5_3 in Hd. rewrite !elem_of_cons in Hd.
  destruct Hd as [->|[->|[->|Hd]]]; [| | |by apply elem_of_nil in Hd];
    eexists _, _; (split_and!; [reflexivity|reflexivity|]);
    intros _ Hin%list_elem_of_singleton; discriminate.
Defined.

(** The keys are logged as [repr] writes them. *)
Example py_str_of_keys :
  py_str (Some (VArr ["com.a"; "it's"; "a\b"]))
  = "['com.a', " +:+ String double_quote ("it's" +:+ String double_quote ", 'a\\b']").
Proof. vm_compute. reflexivity. Qed.

(** ** What carrying out a task adds to the queue *)

Lemma insert_many_appends reject idxs es docs :
  exists new, (insert_many reject idxs es docs).2 = docs ++ new /\
              forall d, d ∈ new -> body d ∈ es.
Proof.
  revert docs. induction es as [|e es IH]; intros docs.
  - exists []. split; [by rewrite app_nil_r|]. by intros d ?%elem_of_nil.
  - cbn [insert_many].
    assert (forall docs', (exists new, (insert_many reject idxs es docs').2 = docs' ++ new /\
                              forall d, d ∈ new -> body d ∈ e :: es)) as IH'.
    { intros docs'. destruct (IH docs') as (new & ? & Hnew). exists new. split; [done|].
      intros d Hd. by apply list_elem_of_further, Hnew. }
    destruct (reject e).
    + destruct (IH' docs) as (new & Heq & Hnew).
      destruct (insert_many reject idxs es docs). by exists new.
    + destruct (collides idxs e docs).
      * destruct (IH' docs) as (new & Heq & Hnew).
        destruct (insert_many reject idxs es docs). by exists new.
      * destruct (IH' (docs ++ [Stored (fresh_id docs) e])) as (new & Heq & Hnew).
        exists (Stored (fresh_id docs) e :: new). split; [by rewrite Heq, <- app_assoc|].
        intros d [->|Hd]%elem_of_cons; [apply list_elem_of_here|by apply Hnew].
Qed.

Lemma enqueue_appends_drafted reject (es : list document) (q : list stored) :
  (forall e, e ∈ es -> exists data t, e = main.task_draft data t) ->
  exists new, (db_interface.enqueue_crawl_tasks reject es q).2 = q ++ new /\
              Forall drafted new.
Proof.
  intros Hes. unfold db_interface.enqueue_crawl_tasks, db_interface.dump_to_mongodb.
  destruct es as [|e es]; [exists []; by rewrite app_nil_r|].
  destruct (insert_many_appends reject db_interface.crawlqueue_unique (e :: es) q)
    as (new & Heq & Hnew).
  destruct (insert_many _ _ (e :: es) q) as [errs q']. simpl in *.
  exists new. split; [done|]. apply Forall_forall. intros d Hd.
  destruct (Hes _ (Hnew d Hd)) as (data & t & Hb). by exists data, t.
Qed.

Lemma queue_appended_refl w : queue_appended w w.
Proof. exists []. by rewrite app_nil_r. Qed.

Lemma queue_appended_same w w' : crawlqueue_col w' = crawlqueue_col w -> queue_appended w w'.
Proof. intros H. exists []. by rewrite app_nil_r. Qed.

Lemma queue_appended_trans w1 w2 w3 :
  queue_appended w1 w2 -> queue_appended w2 w3 -> queue_appended w1 w3.
Proof.
  intros (n1 & H1 & F1) (n2 & H2 & F2). exists (n1 ++ n2).
  split; [by rewrite H2, H1, <- app_assoc|by apply Forall_app].
Qed.

Section Appends.
Context (env : environment) (emulated_device : string).

Lemma appends_bind {A B} (m : M A) (f : A -> M B) :
  appends_only m -> (forall a, appends_only (f a)) -> appends_only (bind m f).
Proof.
  intros Hm Hf w. unfold bind. specialize (Hm w). destruct (m w) as [[a|e] w']; [|done].
  eapply queue_appended_trans; [done|apply Hf].
Qed.

Lemma appends_interact : appends_only (main.interact env).
Proof. intros w. unfold main.interact. case_decide; by apply queue_appended_same. Qed.

Lemma appends_lift {A} (o : outcome A) : appends_only (lift o).
Proof. intros w. apply queue_appended_refl. Qed.

Lemma appends_ret {A} (a : A) : appends_only (ret a).
Proof. intros w. apply queue_appended_refl. Qed.

Lemma appends_store_call {A} (on : (list stored -> A * list stored) -> M A)
    (f : nat -> list stored -> A * list stored) :
  (forall n, appends_only (on (f n))) -> appends_only (main.store_call env on f).
Proof.
  intros Hon w. unfold main.store_call.
  assert (queue_appended w (on (f (tick w)) (bump w)).2) as Hw.
  { eapply queue_appended_trans; [|apply Hon]. by apply queue_appended_same. }
  case_decide; [|done]. destruct (sigint_during env); [done|].
  by apply queue_appended_same.
Qed.

Lemma appends_playstore_call f : appends_only (main.playstore_call env f).
Proof.
  apply appends_bind.
  - apply appends_store_call. intros n w. by apply queue_appended_same.
  - intros ls w. by apply queue_appended_same.
Qed.

Lemma appends_db_enqueue es :
  (forall e, e ∈ es -> exists data t, e = main.task_draft data t) ->
  appends_only (main.db_enqueue_crawl_tasks env es).
Proof.
  intros Hes. apply appends_bind; [|intros; intros w; by apply queue_appended_same].
  apply appends_store_call. intros n w. unfold on_crawlqueue. simpl.
  by apply enqueue_appends_drafted.
Qed.

Lemma dump_data_drafts_drafted entries e :
  e ∈ (main.dump_data_drafts emulated_device entries).2 ->
  exists data t, e = main.task_draft data t.
Proof.
  unfold main.dump_data_drafts. simpl.
  intros (l & Hl & (entry & -> & _)%list_elem_of_fmap)%list_elem_of_join.
  rewrite !elem_of_cons in Hl. destruct Hl as [->|[->|Hl]]; eauto.
  by apply elem_of_nil in Hl.
Qed.

Lemma dump_data_details_drafts_drafted details records tasks e :
  main.dump_data_details_drafts emulated_device details = Ok (records, tasks) ->
  e ∈ tasks -> exists data t, e = main.task_draft data t.
Proof.
  unfold main.dump_data_details_drafts.
  destruct (main.extend_if_present details "similar" []) as [f1|]; [|done].
  destruct (main.extend_if_present details "preInstall" f1) as [f2|]; [|done].
  destruct (main.extend_if_present details "postInstall" f2) as [f3|]; [|done].
  destruct (details !! "creator") as [cr|]; [|done].
  intros [= <- <-]. simpl. intros [->|He]%elem_of_cons; [eauto|].
  apply list_elem_of_fmap in He as (p & -> & _). eauto.
Qed.

Lemma appends_dump_data entries : appends_only (main.dump_data env emulated_device entries).
Proof.
  unfold main.dump_data.
  pose proof (dump_data_drafts_drafted entries) as Hd.
  destruct (main.dump_data_drafts emulated_device entries) as [records tasks].
  apply appends_bind; [apply appends_playstore_call|]. intros _.
  by apply appends_db_enqueue.
Qed.

Lemma appends_dump_data_details details :
  appends_only (main.dump_data_details env emulated_device details).
Proof.
  intros w. unfold main.dump_data_details, bind, lift.
  destruct (main.dump_data_details_drafts emulated_device details) as [[records tasks]|e]
    eqn:Hd; [|apply queue_appended_refl].
  apply (appends_bind (main.db_dump env records)
           (fun _ => main.db_enqueue_crawl_tasks env tasks));
    [apply appends_playstore_call|]. intros _. apply appends_db_enqueue.
  intros e He. by eapply dump_data_details_drafts_drafted.
Qed.

Lemma appends_children_of pages k : appends_only (main.children_of env pages k).
Proof.
  unfold main.children_of. destruct (pages !! k) as [[|a s]|]; try apply appends_ret.
  repeat (apply appends_bind; [first [apply appends_interact|apply appends_lift]|intros ?]).
  apply appends_ret.
Qed.

Lemma appends_execute t d :
  appends_only (main.execute_crawl_task env emulated_device t d).
Proof.
  assert (appends_only (main.crawl_similar env emulated_device d)) as H1.
  { apply appends_bind; [apply appends_interact|]. intros n1.
    apply appends_bind; [apply appends_lift|]. intros page.
    apply appends_bind; [apply appends_interact|]. intros n2.
    apply appends_bind; [apply appends_lift|]. intros entries.
    apply appends_bind; [apply appends_playstore_call|]. intros _.
    apply appends_dump_data. }
  assert (appends_only (main.crawl_creator env emulated_device d)) as H2.
  { apply appends_bind; [apply appends_interact|]. intros n1.
    apply appends_bind; [apply appends_lift|]. intros page.
    apply appends_bind; [apply appends_interact|]. intros n2.
    apply appends_bind; [apply appends_lift|]. intros entries.
    apply appends_dump_data. }
  assert (appends_only (main.crawl_details env emulated_device d)) as H3.
  { apply appends_bind; [apply appends_interact|]. intros n.
    apply appends_bind; [apply appends_lift|]. intros [docV2 pages].
    repeat (apply appends_bind; [apply appends_children_of|intros ?]).
    apply appends_dump_data_details. }
  intros w. unfold main.execute_crawl_task, bind, lift, main.switcher_get.
  destruct t as [[| |s|]|]; simpl; repeat case_decide;
    first [apply H1|apply H2|apply H3|by apply queue_appended_same].
Qed.
End Appends.

(** X14: carrying out a task, whatever its kind and however it ends,
    neither removes nor changes a task of the queue: the queue only grows
    at its end, by tasks that carry a key and one of the three kinds and
    nothing else, so that each of them is pending. *)
Theorem execute_only_appends (env : environment) (emulated_device : string)
    (task_type task_data : option value) (w : world) :
  exists new,
    crawlqueue_col (main.execute_crawl_task env emulated_device task_type task_data w).2
    = crawlqueue_col w ++ new /\
    forall d, d ∈ new ->
      (exists data t, body d = main.task_draft data t) /\
      pending d = true /\ done d = false /\ priority d = None.
Proof.
  destruct (appends_execute env emulated_device task_type task_data w) as (new & Heq & Hnew).
  exists new. split; [done|]. intros d Hd.
  rewrite Forall_forall in Hnew. destruct (Hnew d Hd) as (data & t & Hb).
  split; [by exists data, t|].
  unfold pending, done, priority, sort_key, leased_at, completed_at, field. simpl.
  rewrite Hb. unfold main.task_draft. by rewrite !lookup_insert_ne, !lookup_singleton_ne.
Qed.

(** ** The crawl loop: errors and exhaustion *)

Lemma get_crawl_task_None (c : conf) (t1 t2 t3 : Z) (q : list stored) :
  (forall d, d ∈ q -> claimable c t2 d = false) ->
  db_interface.get_crawl_task c t1 t2 t3 q = (None, q).
Proof.
  intros Hnone. pose proof (get_crawl_task_phases c t1 t2 t3 q) as Hph.
  destruct (db_interface.get_crawl_task c t1 t2 t3 q) as [[d|] q'] eqn:Hget.
  - destruct Hph as [Hd Hcase]. specialize (Hnone d Hd). unfold claimable in Hnone.
    apply orb_false_iff in Hnone as [Hp He]. rewrite Hp, He in Hcase. by destruct Hcase.
  - f_equal. unfold db_interface.get_crawl_task in Hget.
    destruct (find_one_and_update _ _ (Some "priority") q) as [[d1|] q1] eqn:H1; [done|].
    apply find_one_and_update_None in H1 as [-> _].
    by apply find_one_and_update_None in Hget as [-> _].
Qed.

Section CrawlErrors.
Context (env : environment) (c : conf) (emulated_device : string).

(** The world in which a claimed task is carried out. *)
Local Abbreviation started w q1 task :=
  (add_log [(INFO, "Processing task " +:+ py_str (kind task) +:+ " for "
                   +:+ py_str (key task))] (set_crawlqueue q1 (bump w))).

Lemma crawl_step_claimed (w : world) (task : stored) (q1 : list stored) :
  sigint_at env ≠ Some (tick w) ->
  db_interface.get_crawl_task c (clock env (tick w) 0) (clock env (tick w) 1)
    (clock env (tick w) 2) (crawlqueue_col w) = (Some task, q1) ->
  main.crawl_step env c emulated_device w
  = match main.crawl_claimed env emulated_device task (set_crawlqueue q1 (bump w)) with
    | (Raise KeyboardInterrupt, w2) => main.crawl_interrupted env (Some task) w2
    | r => r
    end.
Proof.
  intros Hsig Hget. unfold main.crawl_step, main.crawl_try.
  rewrite db_get_crawl_task_run, Hget by done. cbn [fst snd].
  by destruct (main.crawl_claimed env emulated_device task _) as [[?|[]] ?].
Qed.

Lemma crawl_claimed_run (w1 : world) (task : stored) :
  main.crawl_claimed env emulated_device task w1
  = match main.execute_crawl_task env emulated_device (kind task) (key task)
            (add_log [(INFO, "Processing task " +:+ py_str (kind task) +:+ " for "
                             +:+ py_str (key task))] w1) with
    | (Ok _, w2) =>
        (do _ <- main.db_set_crawl_task_completed env (_id task) None ;;
         ret main.Continue)%py w2
    | (Raise (RequestError status), w2) =>
        (do _ <- main.db_set_crawl_task_completed env (_id task) status ;;
         ret main.Continue)%py w2
    | (Raise e, w2) => (Raise e, w2)
    end.
Proof.
  unfold main.crawl_claimed, bind, logging, kind, key.
  by destruct (main.execute_crawl_task env emulated_device _ _ _) as [[[]|[]] w2].
Qed.

(** The claimed task is still leased, at its place, when carrying it
    out has ended. *)
Lemma claimed_task_stays (w w2 : world) (task : stored) (q1 : list stored)
    (o : outcome unit) :
  unique_ids (crawlqueue_col w) ->
  db_interface.get_crawl_task c (clock env (tick w) 0) (clock env (tick w) 1)
    (clock env (tick w) 2) (crawlqueue_col w) = (Some task, q1) ->
  main.execute_crawl_task env emulated_device (kind task) (key task) (started w q1 task)
  = (o, w2) ->
  exists i t,
    crawlqueue_col w !! i = Some task /\
    crawlqueue_col w2 !! i = Some (lease t task) /\
    unique_ids (crawlqueue_col w2).
Proof.
  intros Hu Hget Hex. apply get_crawl_task_position in Hget as (i & t & Hi & -> & _).
  assert (i < length (crawlqueue_col w))%nat as Hlen by by eapply lookup_lt_Some.
  exists i, t. split; [done|].
  pose proof (appends_execute env emulated_device (kind task) (key task)
                (started w (<[i := lease t task]> (crawlqueue_col w)) task)) as (new & Heq & _).
  pose proof (keeps_execute env emulated_device (kind task) (key task)
                (started w (<[i := lease t task]> (crawlqueue_col w)) task)) as [_ [_ Hk]].
  rewrite Hex in Heq, Hk. simpl in Heq, Hk. split.
  - rewrite Heq. apply lookup_app_l_Some. by apply list_lookup_insert_eq.
  - apply Hk. unfold unique_ids. by erewrite ids_insert_same.
Qed.

(** X15: when carrying out a claimed task ends in [RequestError], the turn
    marks the task completed and the loop goes on; the status of the error
    is recorded in the task when it is truthy, and the task, completed, is
    never claimable again. *)
Theorem request_error_is_recorded (w w2 : world) (task : stored) (q1 : list stored)
    (status : option value) :
  sigint_at env = None ->
  unique_ids (crawlqueue_col w) ->
  db_interface.get_crawl_task c (clock env (tick w) 0) (clock env (tick w) 1)
    (clock env (tick w) 2) (crawlqueue_col w) = (Some task, q1) ->
  main.execute_crawl_task env emulated_device (kind task) (key task) (started w q1 task)
  = (Raise (RequestError status), w2) ->
  exists w3 i d',
    main.crawl_step env c emulated_device w = (Ok main.Continue, w3) /\
    playstore_col w3 = playstore_col w2 /\
    crawlqueue_col w !! i = Some task /\
    crawlqueue_col w3 = <[i := d']> (crawlqueue_col w2) /\
    _id d' = _id task /\
    completed_at d' = Some (VNum (clock env (tick w2) 0)) /\
    field d' "error" = (if truthy status then status else field task "error") /\
    (forall c' now, claimable c' now d' = false).
Proof.
  intros Hsig Hu Hget Hex.
  assert (forall w', sigint_at env ≠ Some (tick w')) as Hno by (intros w'; by rewrite Hsig).
  destruct (claimed_task_stays w w2 task q1 _ Hu Hget Hex) as (i & t & Hi & Hi2 & Hu2).
  rewrite (crawl_step_claimed w task q1 (Hno w) Hget), crawl_claimed_run.
  change (add_log _ (set_crawlqueue q1 (bump w))) with (started w q1 task). rewrite Hex.
  unfold bind, main.db_set_crawl_task_completed. rewrite crawlqueue_call_ok by done.
  destruct (lease_fields t task) as (Hlid & Hl & _ & _).
  unfold db_interface.set_crawl_task_completed. rewrite <- Hlid.
  rewrite (find_by_id_found _ _ _ _ Hu2 Hi2). cbn [fst snd ret].
  eexists _, i, _. split; [reflexivity|].
  cbn [playstore_col crawlqueue_col add_log set_crawlqueue bump].
  split_and!; [done..| | | |].
  - by rewrite apply_update_id.
  - unfold completed_at, field. destruct (truthy status); simpl.
    + rewrite lookup_insert_ne by done. by rewrite lookup_insert_eq.
    + by rewrite lookup_insert_eq.
  - unfold field. destruct (truthy status) eqn:Ht; simpl.
    + rewrite lookup_insert_eq. by destruct status.
    + by rewrite !lookup_insert_ne.
  - intros c' now. unfold claimable, pending, expired, leased_at, completed_at, field.
    destruct (truthy status); simpl.
    + rewrite !lookup_insert_ne by done. rewrite lookup_insert_eq. simpl.
      rewrite lookup_insert_ne by done. rewrite lookup_insert_eq. simpl.
      by rewrite andb_false_r.
    + rewrite lookup_insert_ne by done. rewrite !lookup_insert_eq. simpl.
      by rewrite andb_false_r.
Qed.

(** X16: when carrying out a claimed task ends in an exception that is
    neither [RequestError] nor [KeyboardInterrupt], the exception leaves
    the loop, and the task is neither completed nor reset: it is stored
    with the lease the claim has set, so that only the expiry of the lease
    makes it claimable again. *)
Theorem uncaught_exception_keeps_lease (w w2 : world) (task : stored) (q1 : list stored)
    (e : exn) :
  sigint_at env ≠ Some (tick w) ->
  unique_ids (crawlqueue_col w) ->
  db_interface.get_crawl_task c (clock env (tick w) 0) (clock env (tick w) 1)
    (clock env (tick w) 2) (crawlqueue_col w) = (Some task, q1) ->
  main.execute_crawl_task env emulated_device (kind task) (key task) (started w q1 task)
  = (Raise e, w2) ->
  uncaught e = true ->
  exists i t,
    main.crawl_step env c emulated_device w = (Raise e, w2) /\
    crawlqueue_col w !! i = Some task /\
    crawlqueue_col w2 !! i = Some (lease t task) /\
    (t = clock env (tick w) 0 \/ t = clock env (tick w) 2) /\
    leased_at (lease t task) = Some (VNum t) /\
    completed_at (lease t task) = completed_at task /\
    forall c' now, completed_at task = None ->
      (claimable c' now (lease t task) = true <-> max_task_duration_seconds c' < now - t).
Proof.
  intros Hsig Hu Hget Hex He.
  destruct (claimed_task_stays w w2 task q1 _ Hu Hget Hex) as (i & t & Hi & Hi2 & Hu2).
  rewrite (crawl_step_claimed w task q1 Hsig Hget), crawl_claimed_run.
  change (add_log _ (set_crawlqueue q1 (bump w))) with (started w q1 task). rewrite Hex.
  destruct (lease_fields t task) as (_ & Hl & Hc & _).
  exists i, t. split_and!; [by destruct e|done..| |done|done|].
  - apply get_crawl_task_leased in Hget as (i' & t' & Ht' & Hi' & ->).
    assert (i' < length (crawlqueue_col w))%nat as Hlen by by eapply lookup_lt_Some.
    pose proof (appends_execute env emulated_device (kind task) (key task)
                  (started w (<[i' := lease t' task]> (crawlqueue_col w)) task))
      as (new & Heq & _).
    rewrite Hex in Heq. simpl in Heq.
    assert (i = i') as <- by exact (unique_ids_lookup _ _ _ _ _ Hu Hi' Hi eq_refl).
    rewrite Heq, lookup_app_l, list_lookup_insert_eq in Hi2
      by (rewrite ?length_insert; done).
    injection Hi2 as Hb. assert (t' = t) as <-; [|done].
    apply (f_equal (fun b : document => b !! "start_time")) in Hb. simpl in Hb.
    rewrite !lookup_insert_eq in Hb. by injection Hb.
  - intros c' now Hnc. unfold claimable.
    rewrite (pending_not_leased _ _ Hl), (expired_leased _ _ _ Hl); simpl.
    + rewrite bool_decide_eq_true. lia.
    + unfold done. by rewrite Hc, Hnc.
Qed.

(** X17: when no task is pending and no lease has expired, the crawl loop
    ends at once: one interaction, one line logged, nothing changed. *)
Theorem crawl_stops_when_nothing_is_claimable (fuel : nat) (w : world) :
  sigint_at env ≠ Some (tick w) ->
  (forall d, d ∈ crawlqueue_col w -> claimable c (clock env (tick w) 1) d = false) ->
  main.crawl_playstore env c emulated_device (S fuel) w
  = (Ok tt, add_log [(INFO, "No crawl task found! Exiting...")] (bump w)).
Proof.
  intros Hsig Hnone. cbn [main.crawl_playstore]. unfold bind at 1.
  unfold main.crawl_step, main.crawl_try.
  rewrite db_get_crawl_task_run by done. rewrite get_crawl_task_None by done.
  done.
Qed.
End CrawlErrors.

(** X15 on the queue of priorities 1, 5, 3, the catalog answering the
    details request with the status 404. *)
Lemma request_error_is_recorded_witness :
  exists w3 i d',
    main.crawl_step sample_env sample_conf "device" (sample_world [] queue_1_5_3)
    = (Ok main.Continue, w3) /\
    playstore_col w3 = [] /\
    queue_1_5_3 !! i = Some (pending_task 2 "com.b" 5) /\
    crawlqueue_col w3 = <[i := d']> (<[1%nat := lease 100 (pending_task 2 "com.b" 5)]> queue_1_5_3) /\
    _id d' = 2 /\
    completed_at d' = Some (VNum 102) /\
    field d' "error" = Some (VNum 404) /\
    (forall c' now, claimable c' now d' = false).
Proof.
  apply (request_error_is_recorded sample_env sample_conf "device"
           (sample_world [] queue_1_5_3)
           (main.execute_crawl_task sample_env "device"
              (kind (pending_task 2 "com.b" 5)) (key (pending_task 2 "com.b" 5))
              (add_log [(INFO, "Processing task " +:+ py_str (kind (pending_task 2 "com.b" 5))
                               +:+ " for " +:+ py_str (key (pending_task 2 "com.b" 5)))]
                 (set_crawlqueue (<[1%nat := lease 100 (pending_task 2 "com.b" 5)]> queue_1_5_3)
                    (bump (sample_world [] queue_1_5_3))))).2
           (pending_task 2 "com.b" 5)
           (<[1%nat := lease 100 (pending_task 2 "com.b" 5)]> queue_1_5_3)
           (Some (VNum 404))).
  - reflexivity.
  - unfold unique_ids. apply (bool_decide_unpack _). vm_compute. exact I.
  - vm_compute. reflexivity.
  - vm_compute. reflexivity.
Defined.

(** X16 on the queue of priorities 1, 5, 3, the catalog answering with a
    document that names no creator: [KeyError] leaves the loop. *)
Lemma uncaught_exception_keeps_lease_witness :
  exists i t,
    main.crawl_step keyless_env sample_conf "device" (sample_world [] queue_1_5_3)
    = (Raise (KeyError "creator"),
       (main.execute_crawl_task keyless_env "device"
          (kind (pending_task 2 "com.b" 5)) (key (pending_task 2 "com.b" 5))
          (add_log [(INFO, "Processing task " +:+ py_str (kind (pending_task 2 "com.b" 5))
                           +:+ " for " +:+ py_str (key (pending_task 2 "com.b" 5)))]
             (set_crawlqueue (<[1%nat := lease 100 (pending_task 2 "com.b" 5)]> queue_1_5_3)
                (bump (sample_world [] queue_1_5_3))))).2) /\
    queue_1_5_3 !! i = Some (pending_task 2 "com.b" 5) /\
    crawlqueue_col
      (main.execute_crawl_task keyless_env "device"
         (kind (pending_task 2 "com.b" 5)) (key (pending_task 2 "com.b" 5))
         (add_log [(INFO, "Processing task " +:+ py_str (kind (pending_task 2 "com.b" 5))
                          +:+ " for " +:+ py_str (key (pending_task 2 "com.b" 5)))]
            (set_crawlqueue (<[1%nat := lease 100 (pending_task 2 "com.b" 5)]> queue_1_5_3)
               (bump (sample_world [] queue_1_5_3))))).2 !! i
    = Some (lease t (pending_task 2 "com.b" 5)) /\
    (t = clock keyless_env 0 0 \/ t = clock keyless_env 0 2) /\
    leased_at (lease t (pending_task 2 "com.b" 5)) = Some (VNum t) /\
    completed_at (lease t (pending_task 2 "com.b" 5))
    = completed_at (pending_task 2 "com.b" 5) /\
    forall c' now, completed_at (pending_task 2 "com.b" 5) = None ->
      (claimable c' now (lease t (pending_task 2 "com.b" 5)) = true
       <-> max_task_duration_seconds c' < now - t).
Proof.
  apply (uncaught_exception_keeps_lease keyless_env sample_conf "device"
           (sample_world [] queue_1_5_3) _ (pending_task 2 "com.b" 5)
           (<[1%nat := lease 100 (pending_task 2 "com.b" 5)]> queue_1_5_3)
           (KeyError "creator")).
  - simpl. discriminate.
  - unfold unique_ids. apply (bool_decide_unpack _). vm_compute. exact I.
  - vm_compute. reflexivity.
  - vm_compute. reflexivity.
  - reflexivity.
Defined.

(** X17 on an empty queue. *)
Lemma crawl_stops_when_nothing_is_claimable_witness :
  main.crawl_playstore sample_env sample_conf "device" 1 (sample_world [] [])
  = (Ok tt, add_log [(INFO, "No crawl task found! Exiting...")] (bump (sample_world [] []))).
Proof.
  apply (crawl_stops_when_nothing_is_claimable sample_env sample_conf "device" 0
           (sample_world [] [])).
  - simpl. discriminate.
  - intros d Hd. by apply elem_of_nil in Hd.
Defined.

(** ** The download loop *)

Lemma get_app_undownloaded_None (c : conf) (free_only : bool) (t1 t2 t3 : Z)
    (col : list stored) :
  (forall d, d ∈ col -> offered free_only d = true ->
     download_pending d = false /\
     download_expired (t2 - max_download_duration_seconds c) d = false) ->
  db_interface.get_app_undownloaded c free_only t1 t2 t3 col = (None, col).
Proof.
  intros Hnone. pose proof (get_app_undownloaded_cases c free_only t1 t2 t3 col) as Hc.
  destruct (db_interface.get_app_undownloaded c free_only t1 t2 t3 col) as [[d|] col'].
  - destruct Hc as (i & Hi & Ho & Hcase).
    destruct (Hnone d (list_elem_of_lookup_2 _ _ _ Hi) Ho) as [Hp He].
    destruct Hcase as [(Hp' & _)|(_ & He' & _)]; congruence.
  - by destruct Hc as [-> _].
Qed.

Section Pool.
Context (env : environment) (c : conf) (isalnum isspace : N -> bool).
Context (Hquiet : sigint_at env = None).

Lemma quiet (w : world) : sigint_at env ≠ Some (tick w).
Proof. by rewrite Hquiet. Qed.

Lemma download_apk_download_error (p v : option value) (path msg : string) (w : world) :
  download env (tick w) p v = Raise (DownloadError msg) ->
  main.download_apk env p v path w = (Ok tt, add_log [(ERROR, msg)] (bump w)).
Proof.
  intros Hd. unfold main.download_apk, bind. rewrite interact_ok by apply quiet.
  unfold lift. by rewrite Hd.
Qed.

Lemma download_apk_written (p v : option value) (path data : string) (w : world) :
  download env (tick w) p v = Ok (Some data) -> data ≠ "" ->
  write_file env (S (tick w)) path = None ->
  main.download_apk env p v path w = (Ok tt, add_file path data (bump (bump w))).
Proof.
  intros Hd Hne Hw. unfold main.download_apk, bind. rewrite interact_ok by apply quiet.
  unfold lift. rewrite Hd. destruct data as [|a s]; [done|].
  rewrite interact_ok by apply quiet. cbn [tick bump]. by rewrite Hw.
Qed.

Lemma download_apk_io_error (p v : option value) (path data msg : string) (w : world) :
  download env (tick w) p v = Ok (Some data) -> data ≠ "" ->
  write_file env (S (tick w)) path = Some msg ->
  main.download_apk env p v path w = (Raise (IOError msg), bump (bump w)).
Proof.
  intros Hd Hne Hw. unfold main.download_apk, bind. rewrite interact_ok by apply quiet.
  unfold lift. rewrite Hd. destruct data as [|a s]; [done|].
  rewrite interact_ok by apply quiet. cbn [tick bump]. by rewrite Hw.
Qed.

Lemma pool_step_claimed (fuel : nat) (output_dir : string) (dir_size : Z) (w : world)
    (next_apk : stored) (p1 : list stored) :
  folder_size env (tick w) < dir_size * 1000 * 1000 ->
  db_interface.get_app_undownloaded c true (clock env (S (tick w)) 0)
    (clock env (S (tick w)) 1) (clock env (S (tick w)) 2) (playstore_col w)
  = (Some next_apk, p1) ->
  main.pool_step env c isalnum isspace fuel output_dir dir_size w
  = match main.pool_claimed env isalnum isspace fuel output_dir next_apk
            (set_playstore p1 (bump (bump w))) with
    | (Raise KeyboardInterrupt, w2) => main.pool_interrupted env (Some next_apk) w2
    | r => r
    end.
Proof.
  intros Hsize Hget. unfold main.pool_step, main.pool_try.
  rewrite interact_ok by apply quiet. rewrite decide_True by done.
  rewrite db_get_app_undownloaded_run by apply quiet.
  change (tick (bump w)) with (S (tick w)).
  change (playstore_col (bump w)) with (playstore_col w). rewrite Hget. cbn [fst snd].
  by destruct (main.pool_claimed env isalnum isspace fuel output_dir next_apk _)
    as [[?|[]] ?].
Qed.

Lemma pool_claimed_run (fuel : nat) (output_dir : string) (next_apk : stored)
    (version_code : option value) (w1 : world) :
  main.version_code_of next_apk = Ok version_code ->
  main.pool_claimed env isalnum isspace fuel output_dir next_apk w1
  = match main.download_until_written env fuel (field next_apk "docid") version_code
            (apk_filename isalnum isspace next_apk version_code)
            (main.path_join output_dir (apk_filename isalnum isspace next_apk version_code))
            w1 with
    | (Ok _, w2) =>
        (do _ <- main.db_set_app_downloaded env (_id next_apk) ;; ret main.Continue)%py w2
    | (Raise e, w2) => (Raise e, w2)
    end.
Proof.
  intros Hvc. unfold main.pool_claimed, apk_filename. unfold bind at 1. unfold lift.
  rewrite Hvc. unfold bind.
  by destruct (main.download_until_written env fuel _ _ _ _ w1) as [[[]|?] ?].
Qed.

(** Marking the claimed record, found at its place. *)
Lemma mark_downloaded (w2 : world) (col : list stored) (i : nat) (t : Z) (next_apk : stored) :
  unique_ids col -> col !! i = Some next_apk ->
  playstore_col w2 = <[i := download_leased t next_apk]> col ->
  (do _ <- main.db_set_app_downloaded env (_id next_apk) ;; ret main.Continue)%py w2
  = (Ok main.Continue,
     add_log []
       (set_playstore (<[i := downloaded (clock env (tick w2) 0)
                                 (download_leased t next_apk)]> col) (bump w2))).
Proof.
  intros Hu Hi Hp. assert (i < length col)%nat as Hlen by by eapply lookup_lt_Some.
  unfold bind, main.db_set_app_downloaded. rewrite playstore_call_ok by apply quiet.
  rewrite Hp. change (_id next_apk) with (_id (download_leased t next_apk)).
  rewrite (set_app_downloaded_found _ (<[i := download_leased t next_apk]> col) i
             (download_leased t next_apk));
    [|unfold unique_ids; by erewrite ids_insert_same|by apply list_lookup_insert_eq].
  cbn [fst snd ret]. by rewrite list_insert_insert_eq.
Qed.

(** X18: when the fetch for a claimed record (one that has its
    [details.appDetails], where the version code is read) raises
    [DownloadError], the
    message is logged, no file is put in place, and the record is marked
    downloaded all the same; the loop goes on. *)
Theorem download_error_is_swallowed (fuel : nat) (output_dir msg : string) (dir_size : Z)
    (w : world) (next_apk : stored) (p1 : list stored)
    (version_code : option value) :
  unique_ids (playstore_col w) ->
  folder_size env (tick w) < dir_size * 1000 * 1000 ->
  db_interface.get_app_undownloaded c true (clock env (S (tick w)) 0)
    (clock env (S (tick w)) 1) (clock env (S (tick w)) 2) (playstore_col w)
  = (Some next_apk, p1) ->
  main.version_code_of next_apk = Ok version_code ->
  download env (S (S (tick w))) (field next_apk "docid") version_code
  = Raise (DownloadError msg) ->
  exists w2 i t,
    main.pool_step env c isalnum isspace (S fuel) output_dir dir_size w
    = (Ok main.Continue, w2) /\
    files w2 = files w /\
    log w2 = log w ++ [(INFO, "Downloading " +:+ py_str (field next_apk "docid")
                              +:+ ", Version "
                              +:+ py_str version_code);
                       (ERROR, msg)] /\
    playstore_col w !! i = Some next_apk /\
    playstore_col w2
    = <[i := downloaded (clock env (S (S (S (tick w)))) 0) (download_leased t next_apk)]>
        (playstore_col w).
Proof.
  intros Hu Hsize Hget Hvc Hd. pose proof Hget as Hpos.
  apply (get_app_undownloaded_position c) in Hpos as (i & t & Hi & ->).
  rewrite (pool_step_claimed _ _ _ _ _ _ Hsize Hget), (pool_claimed_run _ _ _ _ _ Hvc).
  cbn [main.download_until_written]. unfold bind at 1. unfold logging at 1.
  rewrite (download_apk_download_error _ _ _ msg) by done.
  rewrite (mark_downloaded _ (playstore_col w) i t next_apk Hu Hi) by done.
  eexists _, i, t. split; [reflexivity|]. simpl.
  split_and!; [done| |done..]. by rewrite app_nil_r, <- app_assoc.
Qed.

(** X19: when the fetch for a claimed record (one that has its
    [details.appDetails]) gives a payload and the disk takes it, the
    payload is put in place once, under the sanitized name inside the
    output folder, and the record is marked downloaded. *)
Theorem payload_is_put_in_place (fuel : nat) (output_dir data : string) (dir_size : Z)
    (w : world) (next_apk : stored) (p1 : list stored)
    (version_code : option value) :
  unique_ids (playstore_col w) ->
  folder_size env (tick w) < dir_size * 1000 * 1000 ->
  db_interface.get_app_undownloaded c true (clock env (S (tick w)) 0)
    (clock env (S (tick w)) 1) (clock env (S (tick w)) 2) (playstore_col w)
  = (Some next_apk, p1) ->
  main.version_code_of next_apk = Ok version_code ->
  download env (S (S (tick w))) (field next_apk "docid") version_code
  = Ok (Some data) ->
  data ≠ "" ->
  write_file env (S (S (S (tick w))))
    (main.path_join output_dir (apk_filename isalnum isspace next_apk version_code))
  = None ->
  exists w2 i t,
    main.pool_step env c isalnum isspace (S fuel) output_dir dir_size w
    = (Ok main.Continue, w2) /\
    files w2
    = files w
      ++ [(main.path_join output_dir (apk_filename isalnum isspace next_apk version_code),
           data)] /\
    log w2 = log w ++ [(INFO, "Downloading " +:+ py_str (field next_apk "docid")
                              +:+ ", Version "
                              +:+ py_str version_code)] /\
    playstore_col w !! i = Some next_apk /\
    playstore_col w2
    = <[i := downloaded (clock env (S (S (S (S (tick w))))) 0) (download_leased t next_apk)]>
        (playstore_col w).
Proof.
  intros Hu Hsize Hget Hvc Hd Hne Hw. pose proof Hget as Hpos.
  apply (get_app_undownloaded_position c) in Hpos as (i & t & Hi & ->).
  rewrite (pool_step_claimed _ _ _ _ _ _ Hsize Hget), (pool_claimed_run _ _ _ _ _ Hvc).
  cbn [main.download_until_written]. unfold bind at 1. unfold logging at 1.
  rewrite (download_apk_written _ _ _ data) by done.
  rewrite (mark_downloaded _ (playstore_col w) i t next_apk Hu Hi) by done.
  eexists _, i, t. split; [reflexivity|]. simpl.
  split_and!; [done| |done..]. by rewrite app_nil_r.
Qed.

(** While the fetch gives a payload and every write fails, the inner loop
    is still retrying when its fuel is spent, and has changed neither a
    collection nor a file. *)
Lemma download_never_written (fuel : nat) (d v : option value) (name path data msg : string)
    (w : world) :
  data ≠ "" ->
  (forall n, download env n d v = Ok (Some data)) ->
  (forall n, write_file env n path = Some msg) ->
  exists w',
    main.download_until_written env fuel d v name path w = (Raise Diverged, w') /\
    playstore_col w' = playstore_col w /\ crawlqueue_col w' = crawlqueue_col w /\
    files w' = files w.
Proof.
  intros Hne Hd Hw. revert w. induction fuel as [|fuel IH]; intros w; [by eexists|].
  cbn [main.download_until_written]. unfold bind at 1. unfold logging at 1.
  rewrite (download_apk_io_error _ _ _ data msg) by done.
  unfold bind, logging.
  destruct (IH (add_log [(ERROR, "Error while writing " +:+ name +:+ " : " +:+ msg)]
                  (bump (bump (add_log [(INFO, "Downloading " +:+ py_str d +:+ ", Version "
                                               +:+ py_str v)] w)))))
    as (w' & -> & ? & ? & ?).
  by exists w'.
Qed.

(** X20: a failing disk is retried without end: while the fetch for a
    claimed record (one that has its [details.appDetails]) gives a
    payload and every write raises [IOError], the turn has not ended
    whatever the fuel, no file is in place, and the record is left as the
    claim left it: leased, and not marked downloaded. *)
Theorem failing_disk_never_marks (fuel : nat) (output_dir data msg : string) (dir_size : Z)
    (w : world) (next_apk : stored) (p1 : list stored)
    (version_code : option value) :
  folder_size env (tick w) < dir_size * 1000 * 1000 ->
  db_interface.get_app_undownloaded c true (clock env (S (tick w)) 0)
    (clock env (S (tick w)) 1) (clock env (S (tick w)) 2) (playstore_col w)
  = (Some next_apk, p1) ->
  main.version_code_of next_apk = Ok version_code ->
  data ≠ "" ->
  (forall n, download env n (field next_apk "docid") version_code = Ok (Some data)) ->
  (forall n, write_file env n
               (main.path_join output_dir
                  (apk_filename isalnum isspace next_apk version_code))
             = Some msg) ->
  exists w' i t,
    main.pool_step env c isalnum isspace fuel output_dir dir_size w = (Raise Diverged, w') /\
    files w' = files w /\
    playstore_col w !! i = Some next_apk /\
    playstore_col w' = <[i := download_leased t next_apk]> (playstore_col w) /\
    field (download_leased t next_apk) "download_start_time" = Some (VNum t) /\
    field (download_leased t next_apk) "download_end_time"
    = field next_apk "download_end_time".
Proof.
  intros Hsize Hget Hvc Hne Hd Hw. pose proof Hget as Hpos.
  apply (get_app_undownloaded_position c) in Hpos as (i & t & Hi & ->).
  rewrite (pool_step_claimed _ _ _ _ _ _ Hsize Hget), (pool_claimed_run _ _ _ _ _ Hvc).
  destruct (download_never_written fuel _ _
              (apk_filename isalnum isspace next_apk version_code) _ _ _
              (set_playstore (<[i := download_leased t next_apk]> (playstore_col w))
                 (bump (bump w))) Hne Hd Hw) as (w' & -> & Hp & _ & Hf).
  exists w', i, t. split_and!; [done..| |].
  - unfold field. simpl. by rewrite lookup_insert_eq.
  - unfold field. simpl. by rewrite lookup_insert_ne.
Qed.

(** X29: a claimed record without [details], or without [appDetails]
    under it, ends the loop: reading its version code raises
    [AttributeError], which leaves [create_apks_pool]; nothing is logged
    or fetched, and the record stays as the claim left it: leased, and
    not marked downloaded. *)
Theorem record_without_details_ends_the_pool (fuel : nat) (output_dir : string)
    (dir_size : Z) (w : world) (next_apk : stored) (p1 : list stored) :
  folder_size env (tick w) < dir_size * 1000 * 1000 ->
  db_interface.get_app_undownloaded c true (clock env (S (tick w)) 0)
    (clock env (S (tick w)) 1) (clock env (S (tick w)) 2) (playstore_col w)
  = (Some next_apk, p1) ->
  main.has_subdocument next_apk "details.appDetails" = false ->
  exists i t,
    main.create_apks_pool env c isalnum isspace (S fuel) output_dir dir_size w
    = (Raise AttributeError, set_playstore p1 (bump (bump w))) /\
    playstore_col w !! i = Some next_apk /\
    p1 = <[i := download_leased t next_apk]> (playstore_col w) /\
    field (download_leased t next_apk) "download_end_time"
    = field next_apk "download_end_time".
Proof.
  intros Hsize Hget Hsub.
  assert (main.version_code_of next_apk = Raise AttributeError) as Hvc.
  { unfold main.version_code_of. rewrite Hsub.
    by destruct (main.has_subdocument next_apk "details"). }
  pose proof Hget as Hpos.
  apply (get_app_undownloaded_position c) in Hpos as (i & t & Hi & ->).
  exists i, t. split_and!; [|done..| ].
  - cbn [main.create_apks_pool]. unfold bind at 1.
    rewrite (pool_step_claimed _ _ _ _ _ _ Hsize Hget).
    unfold main.pool_claimed. unfold bind at 1. unfold lift. by rewrite Hvc.
  - unfold field. simpl. by rewrite lookup_insert_ne.
Qed.

(** X21: at or above the size allowed for the folder, the turn claims no
    record: it sleeps and the loop goes on, with no collection and no
    file changed. *)
Theorem pool_waits_when_full (fuel : nat) (output_dir : string) (dir_size : Z) (w : world) :
  dir_size * 1000 * 1000 <= folder_size env (tick w) ->
  main.pool_step env c isalnum isspace fuel output_dir dir_size w
  = (Ok main.Continue, bump (bump w)).
Proof.
  intros Hfull. unfold main.pool_step, main.pool_try.
  rewrite interact_ok by apply quiet. rewrite decide_False by lia.
  unfold bind. by rewrite interact_ok by apply quiet.
Qed.

(** X22: when no record is left to download, the loop ends: the turn
    prints that no apk remains and changes nothing. *)
Theorem pool_stops_when_nothing_is_left (fuel : nat) (output_dir : string) (dir_size : Z)
    (w : world) :
  folder_size env (tick w) < dir_size * 1000 * 1000 ->
  (forall d, d ∈ playstore_col w -> free d = true ->
     download_pending d = false /\
     download_expired (clock env (S (tick w)) 1 - max_download_duration_seconds c) d
     = false) ->
  main.create_apks_pool env c isalnum isspace (S fuel) output_dir dir_size w
  = (Ok tt, add_log [(STDOUT, "No apk remaining! Shutting down.")] (bump (bump w))).
Proof.
  intros Hsize Hnone. cbn [main.create_apks_pool]. unfold bind at 1.
  unfold main.pool_step, main.pool_try.
  rewrite interact_ok by apply quiet. rewrite decide_True by done.
  rewrite db_get_app_undownloaded_run by apply quiet.
  change (tick (bump w)) with (S (tick w)).
  change (playstore_col (bump w)) with (playstore_col w).
  by rewrite get_app_undownloaded_None.
Qed.
End Pool.

(** X18 on the sample record, the fetch failing. *)
Lemma download_error_is_swallowed_witness :
  exists w2 i t,
    main.pool_step failing_download_env sample_conf file_tools.ascii_isalnum
      file_tools.ascii_isspace 1 "out" 100 (sample_world [sample_record] [])
    = (Ok main.Continue, w2) /\
    files w2 = [] /\
    log w2 = [] ++ [(INFO, "Downloading " +:+ py_str (field sample_record "docid")
                           +:+ ", Version "
                           +:+ py_str (field sample_record "details.appDetails.versionCode"));
                    (ERROR, "not found")] /\
    [sample_record] !! i = Some sample_record /\
    playstore_col w2
    = <[i := downloaded (clock failing_download_env 3 0) (download_leased t sample_record)]>
        [sample_record].
Proof.
  apply (download_error_is_swallowed failing_download_env sample_conf file_tools.ascii_isalnum
           file_tools.ascii_isspace eq_refl 0 "out" "not found" 100
           (sample_world [sample_record] []) sample_record
           [download_leased 101 sample_record] (Some (VNum 7))).
  - unfold unique_ids. apply (bool_decide_unpack _). vm_compute. exact I.
  - simpl. lia.
  - vm_compute. reflexivity.
  - vm_compute. reflexivity.
  - reflexivity.
Defined.

(** X19 on the sample record, the fetch giving a payload. *)
Lemma payload_is_put_in_place_witness :
  exists w2 i t,
    main.pool_step payload_env sample_conf file_tools.ascii_isalnum
      file_tools.ascii_isspace 1 "out" 100 (sample_world [sample_record] [])
    = (Ok main.Continue, w2) /\
    files w2
    = [] ++ [(main.path_join "out"
                (apk_filename file_tools.ascii_isalnum file_tools.ascii_isspace sample_record
                   (Some (VNum 7))),
              "apk-bytes")] /\
    log w2 = [] ++ [(INFO, "Downloading " +:+ py_str (field sample_record "docid")
                           +:+ ", Version "
                           +:+ py_str (field sample_record "details.appDetails.versionCode"))] /\
    [sample_record] !! i = Some sample_record /\
    playstore_col w2
    = <[i := downloaded (clock payload_env 4 0) (download_leased t sample_record)]>
        [sample_record].
Proof.
  apply (payload_is_put_in_place payload_env sample_conf file_tools.ascii_isalnum
           file_tools.ascii_isspace eq_refl 0 "out" "apk-bytes" 100
           (sample_world [sample_record] []) sample_record
           [download_leased 101 sample_record] (Some (VNum 7))).
  - unfold unique_ids. apply (bool_decide_unpack _). vm_compute. exact I.
  - simpl. lia.
  - vm_compute. reflexivity.
  - vm_compute. reflexivity.
  - reflexivity.
  - discriminate.
  - reflexivity.
Defined.

(** The file of the sample record is named after package, version and id;
    the separators do not survive the sanitizing. *)
Example payload_path :
  main.path_join "out"
    (apk_filename file_tools.ascii_isalnum file_tools.ascii_isspace sample_record
                   (Some (VNum 7)))
  = "out/com.a71.apk".
Proof. vm_compute. reflexivity. Qed.

(** X20 on the sample record, every write refused, with fuel for five tries. *)
Lemma failing_disk_never_marks_witness :
  exists w' i t,
    main.pool_step full_disk_env sample_conf file_tools.ascii_isalnum
      file_tools.ascii_isspace 5 "out" 100 (sample_world [sample_record] [])
    = (Raise Diverged, w') /\
    files w' = [] /\
    [sample_record] !! i = Some sample_record /\
    playstore_col w' = <[i := download_leased t sample_record]> [sample_record] /\
    field (download_leased t sample_record) "download_start_time" = Some (VNum t) /\
    field (download_leased t sample_record) "download_end_time"
    = field sample_record "download_end_time".
Proof.
  apply (failing_disk_never_marks full_disk_env sample_conf file_tools.ascii_isalnum
           file_tools.ascii_isspace eq_refl 5 "out" "apk-bytes" "No space left on device" 100
           (sample_world [sample_record] []) sample_record
           [download_leased 101 sample_record] (Some (VNum 7))).
  - simpl. lia.
  - vm_compute. reflexivity.
  - vm_compute. reflexivity.
  - discriminate.
  - intros n. reflexivity.
  - intros n. reflexivity.
Defined.

(** X21 on a folder that has reached its hundred megabytes. *)
Lemma pool_waits_when_full_witness :
  main.pool_step full_folder_env sample_conf file_tools.ascii_isalnum
    file_tools.ascii_isspace 1 "out" 100 (sample_world [sample_record] [])
  = (Ok main.Continue, bump (bump (sample_world [sample_record] []))).
Proof.
  apply (pool_waits_when_full full_folder_env sample_conf file_tools.ascii_isalnum
           file_tools.ascii_isspace eq_refl 1 "out" 100 (sample_world [sample_record] [])).
  simpl. lia.
Defined.

(** X22 on a paid record beside a free one that is downloaded. *)
Lemma pool_stops_when_nothing_is_left_witness :
  main.create_apks_pool sample_env sample_conf file_tools.ascii_isalnum
    file_tools.ascii_isspace 1 "out" 100
    (sample_world [paid_record; downloaded 50 (download_leased 5 sample_record)] [])
  = (Ok tt,
     add_log [(STDOUT, "No apk remaining! Shutting down.")]
       (bump (bump (sample_world
                      [paid_record; downloaded 50 (download_leased 5 sample_record)] [])))).
Proof.
  apply (pool_stops_when_nothing_is_left sample_env sample_conf file_tools.ascii_isalnum
           file_tools.ascii_isspace eq_refl 0 "out" 100
           (sample_world [paid_record; downloaded 50 (download_leased 5 sample_record)] [])).
  - simpl. lia.
  - intros d Hd Hfree. apply elem_of_cons in Hd as [->|Hd].
    + vm_compute in Hfree. discriminate.
    + apply list_elem_of_singleton in Hd as ->. vm_compute. done.
Defined.

(** X29 on the free record that has no [details]. *)
Lemma record_without_details_ends_the_pool_witness :
  exists i t,
    main.create_apks_pool sample_env sample_conf file_tools.ascii_isalnum
      file_tools.ascii_isspace 1 "out" 100 (sample_world [bare_record] [])
    = (Raise AttributeError,
       set_playstore [download_leased 101 bare_record]
         (bump (bump (sample_world [bare_record] [])))) /\
    [bare_record] !! i = Some bare_record /\
    [download_leased 101 bare_record] = <[i := download_leased t bare_record]> [bare_record] /\
    field (download_leased t bare_record) "download_end_time"
    = field bare_record "download_end_time".
Proof.
  apply (record_without_details_ends_the_pool sample_env sample_conf file_tools.ascii_isalnum
           file_tools.ascii_isspace eq_refl 0 "out" 100 (sample_world [bare_record] [])
           bare_record [download_leased 101 bare_record]).
  - simpl. lia.
  - vm_compute. reflexivity.
  - vm_compute. reflexivity.
Defined.

(** ** File names *)

Section SanitizeMore.
Context (isalnum isspace : N -> bool).

Local Abbreviation rstrip := (file_tools.rstrip isspace).
Local Abbreviation alnum := (fun c : N => isalnum c = true).

Lemma rstrip_sublist (s : list N) : rstrip s `sublist_of` s.
Proof.
  induction s as [|a rest IH]; simpl; [done|].
  destruct (rstrip rest) as [|b r] eqn:Hr.
  - destruct (isspace a).
    + apply sublist_nil_l.
    + apply sublist_skip, sublist_nil_l.
  - by apply sublist_skip.
Qed.

Lemma rstrip_alnum (s : list N) :
  (forall c, isalnum c = true -> isspace c = false) ->
  filter alnum (rstrip s) = filter alnum s.
Proof.
  intros Hsp. induction s as [|a rest IH]; simpl; [done|].
  destruct (rstrip rest) as [|b r] eqn:Hr.
  - destruct (isspace a) eqn:Ha.
    + rewrite filter_cons_False; [done|]. intros Hal. apply Hsp in Hal. congruence.
    + by rewrite (filter_cons alnum a []), (filter_cons alnum a rest), <- IH.
  - by rewrite (filter_cons alnum a (b :: r)), (filter_cons alnum a rest), IH.
Qed.

(** X23: sanitizing only removes characters, and never an alphanumeric
    one: the result is a subsequence of the name, and (no alphanumeric
    character being whitespace) has the alphanumeric characters of the
    name, all of them and in their order. *)
Theorem sanitize_filename_keeps_alnum (filename : list N) :
  (forall c, isalnum c = true -> isspace c = false) ->
  file_tools.sanitize_filename isalnum isspace filename `sublist_of` filename /\
  filter alnum (file_tools.sanitize_filename isalnum isspace filename)
  = filter alnum filename.
Proof.
  intros Hsp. unfold file_tools.sanitize_filename. split.
  - etrans; [apply rstrip_sublist|]. apply sublist_filter.
  - rewrite rstrip_alnum by done. rewrite list_filter_filter.
    apply list_filter_iff. intros c. tauto.
Qed.

(** X24: a character that is neither alphanumeric nor space, dot or
    underscore leaves no trace: the name with it and the name without it
    are sanitized to the same file name. *)
Theorem sanitize_filename_drops (before after : list N) (c : N) :
  isalnum c = false -> c ∉ file_tools.keep_characters ->
  file_tools.sanitize_filename isalnum isspace (before ++ c :: after)
  = file_tools.sanitize_filename isalnum isspace (before ++ after).
Proof.
  intros Hal Hk. unfold file_tools.sanitize_filename.
  rewrite !filter_app. rewrite filter_cons_False; [done|].
  intros [?|?]; [congruence|done].
Qed.
End SanitizeMore.

(** X23 on the ASCII tables. *)
Lemma sanitize_filename_keeps_alnum_witness :
  file_tools.sanitize_filename file_tools.ascii_isalnum file_tools.ascii_isspace
    (file_tools.of_string "a/b .apk ") `sublist_of` file_tools.of_string "a/b .apk " /\
  filter (fun c => file_tools.ascii_isalnum c = true)
    (file_tools.sanitize_filename file_tools.ascii_isalnum file_tools.ascii_isspace
       (file_tools.of_string "a/b .apk "))
  = filter (fun c => file_tools.ascii_isalnum c = true) (file_tools.of_string "a/b .apk ").
Proof.
  apply (sanitize_filename_keeps_alnum file_tools.ascii_isalnum file_tools.ascii_isspace
           (file_tools.of_string "a/b .apk ")).
  intros c. unfold file_tools.ascii_isalnum, file_tools.ascii_isspace.
  repeat case_bool_decide; simpl; try done; lia.
Defined.

(** X24 on the separator of the download names: the names of package
    [com.a], version 7, id 11 and of version 71, id 1 fall together. *)
Lemma sanitize_filename_drops_witness :
  file_tools.sanitize_filename file_tools.ascii_isalnum file_tools.ascii_isspace
    (file_tools.of_string "com.a#" ++ 35%N :: file_tools.of_string "7")
  = file_tools.sanitize_filename file_tools.ascii_isalnum file_tools.ascii_isspace
      (file_tools.of_string "com.a#" ++ file_tools.of_string "7").
Proof.
  apply (sanitize_filename_drops file_tools.ascii_isalnum file_tools.ascii_isspace
           (file_tools.of_string "com.a#") (file_tools.of_string "7") 35%N).
  - reflexivity.
  - apply (bool_decide_unpack _). vm_compute. exact I.
Defined.

Example download_names_collide :
  main.sanitize file_tools.ascii_isalnum file_tools.ascii_isspace "com.a##7##11.apk"
  = main.sanitize file_tools.ascii_isalnum file_tools.ascii_isspace "com.a##71##1.apk".
Proof. vm_compute. reflexivity. Qed.

(** ** Folder sizes *)

Section FolderSize.
Import file_tree.

Lemma scan_total (d : list entry) (total : Z) :
  scan entry_size d total
  = match scan entry_size d 0 with
    | inr n => inr (total + n)
    | inl e => inl e
    end.
Proof.
  revert total. induction d as [|e rest IH]; intros total; simpl.
  - f_equal. lia.
  - destruct (entry_size e) as [[]|n].
    + apply IH.
    + done.
    + rewrite (IH (total + n)), (IH (0 + n)).
      destruct (scan entry_size rest 0); [done|]. f_equal. lia.
Qed.

Lemma scan_app (d1 d2 : list entry) (total : Z) :
  scan entry_size (d1 ++ d2) total
  = match scan entry_size d1 total with
    | inr n => scan entry_size d2 n
    | inl e => inl e
    end.
Proof.
  revert total. induction d1 as [|e rest IH]; intros total; simpl; [done|].
  destruct (entry_size e) as [[]|n]; [apply IH|done|apply IH].
Qed.

(** X25: an entry deleted during the scan, file or folder, counts for
    nothing: the size is what it would be without the entry. *)
Theorem vanished_entry_is_skipped (before after : list entry) (e : entry) :
  entry_size e = inl FileNotFoundError ->
  get_folder_size (inr (before ++ e :: after)) = get_folder_size (inr (before ++ after)).
Proof.
  intros He. unfold get_folder_size. cbn [entry_size].
  rewrite !scan_app. destruct (scan entry_size before 0); [done|].
  simpl. by rewrite He.
Qed.

(** X26: sizes add up: the size of a folder whose scan succeeds is the
    sum over its listing, a subfolder counting with its own size. *)
Theorem folder_sizes_add_up (d1 d2 : list entry) (a b : Z) :
  get_folder_size (inr d1) = inr a ->
  get_folder_size (inr d2) = inr b ->
  get_folder_size (inr (d1 ++ d2)) = inr (a + b) /\
  get_folder_size (inr (IsDir (inr d1) :: d2)) = inr (a + b).
Proof.
  unfold get_folder_size. cbn [entry_size]. intros H1 H2. split.
  - rewrite scan_app, H1, scan_total, H2. done.
  - simpl. rewrite H1, scan_total, H2. f_equal; lia.
Qed.

(** X27: only [FileNotFoundError] is skipped: another error met at an
    entry, at whatever depth, is the result of the whole scan. *)
Theorem other_errors_leave_the_scan (d : list entry) (e : entry) :
  e ∈ d -> entry_size e = inl PermissionError ->
  get_folder_size (inr d) = inl PermissionError /\
  forall siblings, get_folder_size (inr (IsDir (inr d) :: siblings)) = inl PermissionError.
Proof.
  intros He Herr.
  assert (scan entry_size d 0 = inl PermissionError) as Hd.
  { apply list_elem_of_split in He as (d1 & d2 & ->).
    generalize 0. induction d1 as [|x rest IH]; intros total; simpl.
    - by rewrite Herr.
    - destruct (entry_size x) as [[]|n]; [apply IH|done|apply IH]. }
  unfold get_folder_size. cbn [entry_size]. split; [done|].
  intros siblings. simpl. by rewrite Hd.
Qed.
End FolderSize.

(** X25 on the sample listing, whose last entry is a folder that is gone. *)
Lemma vanished_entry_is_skipped_witness :
  file_tree.get_folder_size
    (inr ([file_tree.NotDir (inr 10)]
          ++ file_tree.IsDir (inl file_tree.FileNotFoundError) :: [file_tree.NotDir (inr 4)]))
  = file_tree.get_folder_size
      (inr ([file_tree.NotDir (inr 10)] ++ [file_tree.NotDir (inr 4)])).
Proof.
  apply (vanished_entry_is_skipped [file_tree.NotDir (inr 10)] [file_tree.NotDir (inr 4)]
           (file_tree.IsDir (inl file_tree.FileNotFoundError))).
  reflexivity.
Defined.

(** X26 on the sample listing beside a file of 4 bytes. *)
Lemma folder_sizes_add_up_witness :
  file_tree.get_folder_size (inr (file_tree.sample_listing ++ [file_tree.NotDir (inr 4)]))
  = inr (22 + 4) /\
  file_tree.get_folder_size
    (inr (file_tree.IsDir (inr file_tree.sample_listing) :: [file_tree.NotDir (inr 4)]))
  = inr (22 + 4).
Proof.
  apply (folder_sizes_add_up file_tree.sample_listing [file_tree.NotDir (inr 4)] 22 4).
  - reflexivity.
  - reflexivity.
Defined.

(** X27 on a folder that holds an unreadable subfolder. *)
Lemma other_errors_leave_the_scan_witness :
  file_tree.get_folder_size
    (inr [file_tree.NotDir (inr 10); file_tree.IsDir (inl file_tree.PermissionError)])
  = inl file_tree.PermissionError /\
  forall siblings,
    file_tree.get_folder_size
      (inr (file_tree.IsDir
              (inr [file_tree.NotDir (inr 10); file_tree.IsDir (inl file_tree.PermissionError)])
            :: siblings))
    = inl file_tree.PermissionError.
Proof.
  apply (other_errors_leave_the_scan
           [file_tree.NotDir (inr 10); file_tree.IsDir (inl file_tree.PermissionError)]
           (file_tree.IsDir (inl file_tree.PermissionError))).
  - apply list_elem_of_further, list_elem_of_here.
  - reflexivity.
Defined.

(** ** Detail results without a creator *)

Section NoCreator.
Context (env : environment) (emulated_device : string).

Lemma unchanged_refl (w : world) : unchanged w w.
Proof. done. Qed.

Lemma unchanged_trans (w1 w2 w3 : world) : unchanged w1 w2 -> unchanged w2 w3 -> unchanged w1 w3.
Proof. intros (? & ? & ?) (? & ? & ?). split_and!; congruence. Qed.

Lemma interact_unchanged (w : world) : unchanged w (main.interact env w).2.
Proof. unfold main.interact. by case_decide. Qed.

(** A preference page is read without a change to the collections; when
    the reading raises, the exception is the interrupt or comes from
    [getPages]. *)
Lemma children_of_unchanged (pref_pages : gmap string string) (k : string) (w : world) :
  unchanged w (main.children_of env pref_pages k w).2 /\
  forall e, (main.children_of env pref_pages k w).1 = Raise e ->
    e = KeyboardInterrupt \/ exists n page, getPages env n page = Raise e.
Proof.
  unfold main.children_of. destruct (pref_pages !! k) as [[|a page]|]; [done| |done].
  unfold bind, main.interact. case_decide.
  - split; [done|]. intros e [= <-]. by left.
  - unfold lift. destruct (getPages env (tick w) (String a page)) as [docs|e'] eqn:Hg.
    + done.
    + split; [done|]. intros e [= <-]. right. eauto.
Qed.

Lemma dump_data_details_no_creator (docV2 : document) (similar pre post : list string)
    (w : world) :
  docV2 !! "creator" = None ->
  main.dump_data_details env emulated_device
    (<["postInstall" := VArr post]>
       (<["preInstall" := VArr pre]> (<["similar" := VArr similar]> docV2))) w
  = (Raise (KeyError "creator"), w).
Proof.
  intros Hc. unfold main.dump_data_details, bind, lift, main.dump_data_details_drafts,
    main.extend_if_present.
  rewrite !lookup_insert_ne by done. rewrite lookup_insert_eq.
  rewrite lookup_insert_ne by done. rewrite lookup_insert_eq.
  rewrite lookup_insert_eq. cbn [main.extend_by].
  rewrite !lookup_insert_ne by done. by rewrite Hc.
Qed.

(** X28: a detail result that names no creator is never stored: the
    handler of a [DETAILS] task raises, [KeyError] for the creator unless
    the interrupt or a failing [getPages] came first, and neither
    collection has changed, so the packages the result lists are not
    enqueued either. *)
Theorem details_without_creator_store_nothing (package : option value) (w : world)
    (docV2 : document) (pref_pages : gmap string string) :
  details env (tick w) package = Ok (docV2, pref_pages) ->
  docV2 !! "creator" = None ->
  exists e w',
    main.crawl_details env emulated_device package w = (Raise e, w') /\
    unchanged w w' /\
    (e = KeyError "creator" \/ e = KeyboardInterrupt \/
     exists n page, getPages env n page = Raise e).
Proof.
  intros Hd Hc. unfold main.crawl_details. unfold bind at 1.
  pose proof (interact_unchanged w) as Hi. unfold main.interact in *.
  case_decide.
  { eexists _, _. split; [done|]. split; [done|]. by right; left. }
  unfold bind at 1. unfold lift at 1. rewrite Hd.
  remember (bump w) as w0 eqn:Hw0. cbn [snd] in Hi.
  unfold bind at 1.
  destruct (children_of_unchanged pref_pages "similar" w0) as [H1 He1].
  destruct (main.children_of env pref_pages "similar" w0) as [[similar|e1] w1].
  2:{ exists e1, w1. split; [done|]. split; [by eapply unchanged_trans|].
      right. by apply He1. }
  unfold bind at 1.
  destruct (children_of_unchanged pref_pages "preInstall" w1) as [H2 He2].
  destruct (main.children_of env pref_pages "preInstall" w1) as [[pre|e2] w2].
  2:{ exists e2, w2. split; [done|].
      split; [eapply unchanged_trans; [|done]; by eapply unchanged_trans|].
      right. by apply He2. }
  unfold bind at 1.
  destruct (children_of_unchanged pref_pages "postInstall" w2) as [H3 He3].
  destruct (main.children_of env pref_pages "postInstall" w2) as [[post|e3] w3].
  2:{ exists e3, w3. split; [done|].
      split; [eapply unchanged_trans; [|done];
              eapply unchanged_trans; [|done]; by eapply unchanged_trans|].
      right. by apply He3. }
  rewrite dump_data_details_no_creator by done.
  exists (KeyError "creator"), w3. split; [done|].
  split; [|by left].
  eapply unchanged_trans; [|done]. eapply unchanged_trans; [|done].
  by eapply unchanged_trans.
Qed.
End NoCreator.

(** X28 where the catalog answers with an empty document. *)
Lemma details_without_creator_store_nothing_witness :
  exists e w',
    main.crawl_details keyless_env "device" (Some (VStr "com.a"))
      (sample_world [sample_record] queue_1_5_3) = (Raise e, w') /\
    unchanged (sample_world [sample_record] queue_1_5_3) w' /\
    (e = KeyError "creator" \/ e = KeyboardInterrupt \/
     exists n page, getPages keyless_env n page = Raise e).
Proof.
  apply (details_without_creator_store_nothing keyless_env "device" (Some (VStr "com.a"))
           (sample_world [sample_record] queue_1_5_3) ∅ ∅).
  - reflexivity.
  - reflexivity.
Defined.

Example keyless_details_raise_key_error :
  (main.crawl_details keyless_env "device" (Some (VStr "com.a"))
     (sample_world [sample_record] queue_1_5_3)).1 = Raise (KeyError "creator").
Proof. vm_compute. reflexivity. Qed.
